(** * uxlaw: the upload-to-report pipeline

    A shallow embedding of the screenshot analysis pipeline:

    - the image normalizer of the upload pages
      ([handleImageUpload] in [app/page.tsx], the analyze page and
      [app/results/[id]/UploadButton.tsx]);
    - the three request submitters ([runAnalysis] of the analyze page,
      the effect of [HomePage], [runAnalysis] of [UploadButton]);
    - the analysis endpoint ([POST] of the [/api/analyze] route);
    - the report page ([ResultsPage] and [severityStyle] of
      [app/results/[id]/page.tsx], [severityStyle] of
      [DraggableBottomSheet.tsx]);
    - the touch handlers of the bottom sheet ([handleTouchStart],
      [handleTouchMove] and [handleTouchEnd] of
      [DraggableBottomSheet.tsx]).

    JavaScript values are embedded as a small inductive type, exceptions
    as an error monad, the report table as a list of rows.  What the
    repository does not contain (the model service, the storage client,
    [JSON.parse], number formatting and binary64 rounding) is collected
    in a record [Host]; every statement holds for every host.  What
    React makes of the children of the report page is [React_child]. *)

From Stdlib Require Import List String Ascii ZArith NArith QArith Qround Lia Lqa Bool Sorted.
From Stdlib Require DecimalString.
Import ListNotations.

#[local] Set Warnings "-register-all".

Open Scope string_scope.

(* ================================================================== *)
(** * JavaScript values *)
(* ================================================================== *)

(** A Number is NaN, an infinity, or a finite value, kept as the
    rational it denotes.  The two zeros are not told apart. *)
Inductive number : Type :=
| NaN
| PosInf
| NegInf
| Fin (q : Q).

(** The values [JSON.parse] and [Response.json] build, plus [undefined].
    A string is a sequence of UTF-16 code units, one [ascii] per code
    unit (code units below 256).  An object lists its own properties in
    property order. *)
Inductive JsValue : Type :=
| JUndefined
| JNull
| JBool (b : bool)
| JNum (n : number)
| JStr (s : string)
| JArr (items : list JsValue)
| JObj (props : list (string * JsValue)).

(** Evaluation either returns a value or throws one. *)
Inductive Outcome (A : Type) : Type :=
| Return (a : A)
| Throw (err : JsValue).
Arguments Return {A} a.
Arguments Throw {A} err.

Definition bind {A B : Type} (m : Outcome A) (k : A -> Outcome B) : Outcome B :=
  match m with
  | Return a => k a
  | Throw e => Throw e
  end.

Notation "x <- m ;; k" := (bind m (fun x => k))
  (at level 61, m at next level, right associativity).

(** An [Error] instance, as far as the handlers look at it: they read
    [err?.message] only. *)
Definition Error (message : string) : JsValue := JObj [("message", JStr message)].
Definition TypeError := Error.

Module Num.

Definition of_Z (z : Z) : number := Fin (inject_Z z).
Definition of_N (n : N) : number := of_Z (Z.of_N n).

(** [a <= b] on numbers; false as soon as one side is NaN. *)
Definition leb (a b : number) : bool :=
  match a, b with
  | NaN, _ | _, NaN => false
  | NegInf, _ => true
  | _, PosInf => true
  | Fin p, Fin q => Qle_bool p q
  | _, _ => false
  end.

(** [a > b] as the comparison operator evaluates it. *)
Definition gtb (a b : number) : bool :=
  match a, b with
  | NaN, _ | _, NaN => false
  | _, _ => negb (leb a b)
  end.

(** The finite numbers that are integers. *)
Definition is_integer (n : number) : bool :=
  match n with
  | Fin q => Qeq_bool q (inject_Z (Qfloor q))
  | _ => false
  end.

(** [n] is a finite number between [lo] and [hi]. *)
Definition between (lo hi : Q) (n : number) : Prop :=
  match n with
  | Fin q => (lo <= q /\ q <= hi)%Q
  | _ => False
  end.

End Num.

(** [Math.min] and [Math.max] of two arguments: NaN as soon as one
    argument is NaN. *)
Definition Math_min (a b : number) : number :=
  match a, b with
  | NaN, _ | _, NaN => NaN
  | _, _ => if Num.leb a b then a else b
  end.

Definition Math_max (a b : number) : number :=
  match a, b with
  | NaN, _ | _, NaN => NaN
  | _, _ => if Num.leb a b then b else a
  end.

(** [Math.round]: the nearest integer, ties towards +infinity. *)
Definition Math_round (a : number) : number :=
  match a with
  | Fin q => Fin (inject_Z (Qfloor (q + (1 # 2))))
  | _ => a
  end.

(* ------------------------------------------------------------------ *)
(** ** Operators on values *)

(** ToBoolean. *)
Definition truthy (v : JsValue) : bool :=
  match v with
  | JUndefined | JNull => false
  | JBool b => b
  | JNum NaN => false
  | JNum (Fin q) => negb (Qeq_bool q 0)
  | JNum _ => true
  | JStr s => negb (s =? "")
  | JArr _ | JObj _ => true
  end.

Definition nullish (v : JsValue) : bool :=
  match v with
  | JUndefined | JNull => true
  | _ => false
  end.

(** [a ?? b] and [a || b]. *)
Definition Coalesce (a b : JsValue) : JsValue := if nullish a then b else a.
Definition Or (a b : JsValue) : JsValue := if truthy a then a else b.

Definition typeof (v : JsValue) : string :=
  match v with
  | JUndefined => "undefined"
  | JNull => "object"
  | JBool _ => "boolean"
  | JNum _ => "number"
  | JStr _ => "string"
  | JArr _ | JObj _ => "object"
  end.

Fixpoint lookup (k : string) (props : list (string * JsValue)) : option JsValue :=
  match props with
  | [] => None
  | (k', v) :: rest => if k' =? k then Some v else lookup k rest
  end.

Definition has_own (k : string) (props : list (string * JsValue)) : bool :=
  match lookup k props with Some _ => true | None => false end.

(** Decimal digits of a non-negative integer, as an index is printed. *)
Definition decimal (n : N) : string := DecimalString.NilEmpty.string_of_uint (N.to_uint n).

(** [v.k] for a value that is neither [null] nor [undefined], and a name
    [k] that no built-in prototype defines: an own property, or
    [undefined].  ([length] of strings and arrays is read by [Length].) *)
Definition Get (v : JsValue) (k : string) : JsValue :=
  match v with
  | JObj props => match lookup k props with Some x => x | None => JUndefined end
  | _ => JUndefined
  end.

(** [v.k] in general: reading a property of [null] or [undefined] throws. *)
Definition GetProp (v : JsValue) (k : string) : Outcome JsValue :=
  if nullish v
  then Throw (TypeError ("Cannot read properties of " ++
                         (match v with JNull => "null" | _ => "undefined" end) ++
                         " (reading '" ++ k ++ "')"))
  else Return (Get v k).

(** [v?.k]. *)
Definition OptGet (v : JsValue) (k : string) : JsValue :=
  if nullish v then JUndefined else Get v k.

(** [v?.[0]]. *)
Definition OptFirst (v : JsValue) : JsValue :=
  match v with
  | JArr (x :: _) => x
  | JStr (String c _) => JStr (String c "")
  | JObj props => Get v "0"
  | _ => JUndefined
  end.

(** [s.slice(0, n)] and [a.slice(0, n)] for a constant [n >= 0]. *)
Definition String_slice0 (n : nat) (s : string) : string := substring 0 n s.
Definition Array_slice0 (n : nat) (a : list JsValue) : list JsValue := firstn n a.

(* ------------------------------------------------------------------ *)
(** ** White space and [trim] *)

(** The white space code units below 256: TAB, LF, VT, FF, CR, SP, NBSP. *)
Definition is_white_space (c : ascii) : bool :=
  let n := N_of_ascii c in
  (((9 <=? n) && (n <=? 13)) || (n =? 32) || (n =? 160))%N.

Fixpoint trim_start (s : list ascii) : list ascii :=
  match s with
  | c :: rest => if is_white_space c then trim_start rest else s
  | [] => []
  end.

Definition trim_chars (s : list ascii) : list ascii :=
  rev (trim_start (rev (trim_start s))).

Definition String_trim (s : string) : string :=
  string_of_list_ascii (trim_chars (list_ascii_of_string s)).

(* ================================================================== *)
(** * The report table and the collaborators *)
(* ================================================================== *)

(** One row of the table [Report] (the migration at the end of the
    report page's source file). *)
Record Report : Type := {
  id : string;
  createdAt : Z;
  imageDataUrl : string;
  goal : string;
  navItems : Z;
  ctaCount : Z;
  formFields : Z;
  score : number;
  topFixes : JsValue;
  laws : JsValue
}.

(** The argument [data] of [prisma.report.create]. *)
Record ReportData : Type := {
  d_imageDataUrl : string;
  d_goal : string;
  d_navItems : Z;
  d_ctaCount : Z;
  d_formFields : Z;
  d_score : number;
  d_topFixes : JsValue;
  d_laws : JsValue
}.

Definition Store : Type := list Report.

(** The argument of [client.chat.completions.create]. *)
Record ChatRequest : Type := {
  model : string;
  system_content : string;
  user_text : string;
  image_url : string;
  response_format : string
}.

(** What the repository calls and does not define, and the one long
    constant of the handler. *)
Record Host : Type := {
  (** rounding of an exact result to the nearest binary64 number *)
  roundToDouble : Q -> number;
  (** Number::toString *)
  NumberToString : number -> string;
  (** [JSON.parse]; [None] when it throws a SyntaxError *)
  JSON_parse : string -> option JsValue;
  (** the text of [DEFAULT_SYSTEM_PROMPT]; it is passed on to the model
      and nothing else reads it *)
  DEFAULT_SYSTEM_PROMPT : string;
  (** the model service *)
  chat_completions_create : ChatRequest -> Outcome JsValue;
  (** the identifier and the time stamp the table gives a new row *)
  new_id : Store -> string;
  now : Store -> Z;
  (** the exception of the storage client when it refuses the data *)
  create_rejects : ReportData -> option JsValue
}.

(* ================================================================== *)
(** * Conversions *)
(* ================================================================== *)

Module Literal.

Definition digit_of (base : N) (c : ascii) : option N :=
  let n := N_of_ascii c in
  let d := (if (48 <=? n) && (n <=? 57) then Some (n - 48)
            else if (97 <=? n) && (n <=? 102) then Some (n - 87)
            else if (65 <=? n) && (n <=? 70) then Some (n - 55)
            else None)%N in
  match d with
  | Some d => if (d <? base)%N then Some d else None
  | None => None
  end.

(** Reads the longest run of digits at the head of [s]: the value they
    add to [acc], how many they are, and what follows them. *)
Fixpoint read_digits (base : N) (s : list ascii) (acc : N) (count : nat)
  : N * nat * list ascii :=
  match s with
  | c :: rest =>
      match digit_of base c with
      | Some d => read_digits base rest (acc * base + d)%N (S count)
      | None => (acc, count, s)
      end
  | [] => (acc, count, [])
  end.

(** [m * 10^e]. *)
Definition scale10 (m : Z) (e : Z) : Q :=
  if (0 <=? e)%Z then inject_Z (m * 10 ^ e)%Z else (m # Z.to_pos (10 ^ (- e)))%Q.

(** ExponentPart: [e] or [E], an optional sign, at least one digit,
    and nothing after it. *)
Definition exponent (s : list ascii) : option Z :=
  match s with
  | c :: rest =>
      if ((c =? "e") || (c =? "E"))%char then
        let '(neg, ds) :=
          match rest with
          | "+"%char :: r => (false, r)
          | "-"%char :: r => (true, r)
          | _ => (false, rest)
          end in
        match read_digits 10 ds 0 0 with
        | (_, O, _) => None
        | (v, _, []) => Some (if neg then - Z.of_N v else Z.of_N v)%Z
        | _ => None
        end
      else None
  | [] => None
  end.

(** StrUnsignedDecimalLiteral without [Infinity]. *)
Definition unsigned_decimal (s : list ascii) : option Q :=
  let '(ip, ni, r1) := read_digits 10 s 0 0 in
  let '(m, nf, r2) :=
    match r1 with
    | "."%char :: r => read_digits 10 r ip 0
    | _ => (ip, O, r1)
    end in
  if (ni + nf =? 0)%nat then None
  else match r2 with
       | [] => Some (scale10 (Z.of_N m) (- Z.of_nat nf)%Z)
       | _ => match exponent r2 with
              | Some e => Some (scale10 (Z.of_N m) (e - Z.of_nat nf)%Z)
              | None => None
              end
       end.

(** NonDecimalIntegerLiteral: [0x], [0o] or [0b] and digits of that base. *)
Definition non_decimal (s : list ascii) : option Z :=
  match s with
  | "0"%char :: c :: ds =>
      let base :=
        (if (c =? "x") || (c =? "X") then Some 16
         else if (c =? "o") || (c =? "O") then Some 8
         else if (c =? "b") || (c =? "B") then Some 2
         else None)%char%N in
      match base with
      | Some b => match read_digits b ds 0 0 with
                  | (_, O, _) => None
                  | (v, _, []) => Some (Z.of_N v)
                  | _ => None
                  end
      | None => None
      end
  | _ => None
  end.

End Literal.

Section Conversions.

Context (host : Host).

(** StringToNumber: white space is trimmed, the empty string is 0, a
    StrNumericLiteral has its value, anything else is NaN. *)
Definition StringToNumber (s : string) : number :=
  match trim_chars (list_ascii_of_string s) with
  | [] => Fin 0
  | t =>
      match Literal.non_decimal t with
      | Some z => roundToDouble host (inject_Z z)
      | None =>
          let '(neg, u) :=
            match t with
            | "+"%char :: r => (false, r)
            | "-"%char :: r => (true, r)
            | _ => (false, t)
            end in
          if string_of_list_ascii u =? "Infinity"
          then (if neg then NegInf else PosInf)
          else match Literal.unsigned_decimal u with
               | Some q => roundToDouble host (if neg then - q else q)%Q
               | None => NaN
               end
      end
  end.

(** ToString.  An array is joined with commas, [null] and [undefined]
    elements giving the empty string.  A parsed object has no callable
    property of its own: it is [[object Object]] through
    [Object.prototype.toString], unless a property of its own named
    [toString] hides that method, and then the conversion throws. *)
Fixpoint ToString (v : JsValue) : Outcome string :=
  match v with
  | JUndefined => Return "undefined"
  | JNull => Return "null"
  | JBool b => Return (if b then "true" else "false")
  | JNum n => Return (NumberToString host n)
  | JStr s => Return s
  | JArr items =>
      (fix join (l : list JsValue) : Outcome string :=
         match l with
         | [] => Return ""
         | x :: rest =>
             s <- (if nullish x then Return "" else ToString x) ;;
             match rest with
             | [] => Return s
             | _ => r <- join rest ;; Return (s ++ "," ++ r)
             end
         end) items
  | JObj props =>
      if has_own "toString" props
      then Throw (TypeError "Cannot convert object to primitive value")
      else Return "[object Object]"
  end.

(** ToNumber, which is what [Number(v)] computes. *)
Definition ToNumber (v : JsValue) : Outcome number :=
  match v with
  | JUndefined => Return NaN
  | JNull => Return (Fin 0)
  | JBool b => Return (Fin (if b then 1 else 0))
  | JNum n => Return n
  | JStr s => Return (StringToNumber s)
  | JArr _ | JObj _ => s <- ToString v ;; Return (StringToNumber s)
  end.

End Conversions.

(* ================================================================== *)
(** * Objects: property order, spread, entries *)
(* ================================================================== *)

Module Props.

Definition t : Type := list (string * JsValue).

(** An array index: the canonical decimal form of an integer below
    2^32 - 1.  Such keys come first in property order, ascending. *)
Definition array_index (k : string) : option N :=
  match k with
  | EmptyString => None
  | String c rest =>
      if ((c =? "0")%char && negb (rest =? ""))%bool then None
      else match Literal.read_digits 10 (list_ascii_of_string k) 0 0 with
           | (n, _, []) => if (n <? 4294967295)%N then Some n else None
           | _ => None
           end
  end.

Fixpoint replace (k : string) (v : JsValue) (props : t) : t :=
  match props with
  | [] => []
  | (k', v') :: rest =>
      if k' =? k then (k', v) :: rest else (k', v') :: replace k v rest
  end.

(** Where a new array index goes: after the indices that are not
    larger, before everything else. *)
Fixpoint insert_index (n : N) (k : string) (v : JsValue) (props : t) : t :=
  match props with
  | [] => [(k, v)]
  | (k', v') :: rest =>
      match array_index k' with
      | Some n' => if (n' <=? n)%N then (k', v') :: insert_index n k v rest
                   else (k, v) :: props
      | None => (k, v) :: props
      end
  end.

(** CreateDataProperty: a property the object has keeps its place and
    takes the new value; a new one goes to its place in property
    order. *)
Definition define (props : t) (kv : string * JsValue) : t :=
  let '(k, v) := kv in
  if has_own k props then replace k v props
  else match array_index k with
       | Some n => insert_index n k v props
       | None => (props ++ [(k, v)])%list
       end.

Fixpoint indexed (i : N) (items : list JsValue) : t :=
  match items with
  | [] => []
  | x :: rest => (decimal i, x) :: indexed (N.succ i) rest
  end.

Fixpoint chars (i : N) (s : string) : t :=
  match s with
  | EmptyString => []
  | String c rest => (decimal i, JStr (String c "")) :: chars (N.succ i) rest
  end.

(** The own enumerable properties of a value, in property order:
    what [Object.entries] lists and what a spread copies. *)
Definition own (v : JsValue) : t :=
  match v with
  | JObj props => props
  | JArr items => indexed 0 items
  | JStr s => chars 0 s
  | _ => []
  end.

(** The object literal [{ ...props, ...v }]. *)
Definition spread (props : t) (v : JsValue) : t :=
  fold_left define (own v) props.

(** [Object.fromEntries]. *)
Definition fromEntries (entries : t) : t := fold_left define entries [].

(** The keys of an object, in property order. *)
Definition keys (props : t) : list string := map fst props.

(** [k1] may stand before [k2] in property order. *)
Definition before (k1 k2 : string) : Prop :=
  k1 <> k2 /\
  match array_index k1, array_index k2 with
  | Some a, Some b => (a <= b)%N
  | None, Some _ => False
  | _, None => True
  end.

(** Distinct keys, array indices first and ascending. *)
Definition ordered (props : t) : Prop := StronglySorted before (keys props).

End Props.

(* ================================================================== *)
(** * AnalysisEndpoint: [POST /api/analyze] *)
(* ================================================================== *)

Record Env : Type := {
  OPENAI_API_KEY : option string;
  UX_SYSTEM_PROMPT : option string
}.

(** Truthiness of [process.env.X]: set, and not the empty string. *)
Definition env_set (x : option string) : bool :=
  match x with
  | Some s => negb (s =? "")
  | None => false
  end.

Record Response : Type := {
  status : Z;
  body : JsValue
}.

Definition NextResponse_json (b : JsValue) (st : Z) : Response :=
  {| status := st; body := b |}.

Definition MAX_IMAGE_DATAURL_CHARS : Z := 2000000.

Definition clamp (n min max : number) : number :=
  Math_max min (Math_min max n).

(** The string a value is, where the code has made sure it is one. *)
Definition string_of (v : JsValue) : string :=
  match v with JStr s => s | _ => "" end.

(** [v.length] of a string or an array; nothing else gets here. *)
Definition Length (v : JsValue) : number :=
  match v with
  | JStr s => Num.of_Z (Z.of_nat (String.length s))
  | JArr a => Num.of_Z (Z.of_nat (List.length a))
  | _ => NaN
  end.

(** [v.startsWith(p)]: only a string has the method. *)
Definition String_startsWith (v : JsValue) (p : string) : Outcome bool :=
  match v with
  | JStr s => Return (prefix p s)
  | _ => Throw (TypeError "body.imageDataUrl.startsWith is not a function")
  end.

(** [v?.trim()]. *)
Definition Opt_trim (v : JsValue) : Outcome JsValue :=
  if nullish v then Return JUndefined
  else match v with
       | JStr s => Return (JStr (String_trim s))
       | _ => Throw (TypeError "completion.choices?.[0]?.message?.content?.trim is not a function")
       end.

(** The fields the handler computes from the parsed reply. *)
Record Sanitized : Type := {
  s_score : number;
  s_topFixes : JsValue;
  s_narrative : string;
  s_laws : JsValue;
  s_lawsToStore : JsValue
}.

Section Endpoint.

Context (host : Host).

Definition getSystemPrompt (env : Env) : string :=
  match UX_SYSTEM_PROMPT env with
  | Some s => if s =? "" then DEFAULT_SYSTEM_PROMPT host else s
  | None => DEFAULT_SYSTEM_PROMPT host
  end.

(** [prisma.report.create], of the storage client, which the
    repository calls and does not contain: a model of it, after the
    table of the migration.  The row takes the data, an identifier and
    a time stamp; the primary key refuses an identifier that is
    taken. *)
Definition prisma_report_create (st : Store) (d : ReportData)
  : Outcome (Report * Store) :=
  match create_rejects host d with
  | Some err => Throw err
  | None =>
      let r := {| id := new_id host st;
                  createdAt := now host st;
                  imageDataUrl := d_imageDataUrl d;
                  goal := d_goal d;
                  navItems := d_navItems d;
                  ctaCount := d_ctaCount d;
                  formFields := d_formFields d;
                  score := d_score d;
                  topFixes := d_topFixes d;
                  laws := d_laws d |} in
      if existsb (fun r' => id r' =? id r) st
      then Throw (Error "Unique constraint failed on the fields: (`id`)")
      else Return (r, (st ++ [r])%list)
  end.

(** [Array.isArray(parsed.topFixes) ? parsed.topFixes.slice(0, 3) : []]. *)
Definition topFixes_of (parsed_topFixes : JsValue) : JsValue :=
  match parsed_topFixes with
  | JArr a => JArr (Array_slice0 3 a)
  | _ => JArr []
  end.

(** [typeof parsed.narrative === "string" ? parsed.narrative.slice(0, 1500) : ""]. *)
Definition narrative_of (parsed_narrative : JsValue) : string :=
  if typeof parsed_narrative =? "string"
  then String_slice0 1500 (string_of parsed_narrative)
  else "".

(** [parsed.laws && typeof parsed.laws === "object" ? parsed.laws : {}]. *)
Definition laws_of (parsed_laws : JsValue) : JsValue :=
  if (truthy parsed_laws && (typeof parsed_laws =? "object"))%bool
  then parsed_laws
  else JObj [].

(** [{ narrative, ...laws }]. *)
Definition lawsToStore_of (narrative : string) (laws : JsValue) : JsValue :=
  JObj (Props.spread [("narrative", JStr narrative)] laws).

(** The block of [POST] between [JSON.parse] and
    [prisma.report.create]. *)
Definition sanitize (parsed : JsValue) : Outcome Sanitized :=
  parsed_score <- GetProp parsed "score" ;;
  n <- ToNumber host (Coalesce parsed_score (JNum (Fin 0))) ;;
  let score := clamp n (Fin 0) (Fin 100) in
  parsed_topFixes <- GetProp parsed "topFixes" ;;
  let topFixes := topFixes_of parsed_topFixes in
  parsed_narrative <- GetProp parsed "narrative" ;;
  let narrative := narrative_of parsed_narrative in
  parsed_laws <- GetProp parsed "laws" ;;
  let laws := laws_of parsed_laws in
  let lawsToStore := lawsToStore_of narrative laws in
  Return {| s_score := score;
            s_topFixes := topFixes;
            s_narrative := narrative;
            s_laws := laws;
            s_lawsToStore := lawsToStore |}.

Definition report_data (url : string) (s : Sanitized) : ReportData :=
  {| d_imageDataUrl := url;
     d_goal := "";
     d_navItems := 0;
     d_ctaCount := 0;
     d_formFields := 0;
     d_score := s_score s;
     d_topFixes := s_topFixes s;
     d_laws := s_lawsToStore s |}.

(** The argument of [client.chat.completions.create]. *)
Definition chat_request (env : Env) (url : string) : ChatRequest :=
  let prompt := "Analyze this screenshot for UX conversion issues." in
  {| model := "gpt-4o-mini";
     system_content := getSystemPrompt env;
     user_text := prompt;
     image_url := url;
     response_format := "json_object" |}.

(** [completion.choices?.[0]?.message?.content?.trim()]. *)
Definition reply_text (completion : JsValue) : Outcome JsValue :=
  choices <- GetProp completion "choices" ;;
  Opt_trim (OptGet (OptGet (OptFirst choices) "message") "content").

(** The [try] after the three guards: the model is asked, its reply
    parsed and sanitized, the row created. *)
Definition analyze (env : Env) (url : string) (st : Store)
  : Outcome (Response * Store) :=
  completion <- chat_completions_create host (chat_request env url) ;;
  raw <- reply_text completion ;;
  if negb (truthy raw) then
    Return (NextResponse_json
              (JObj [("error", JStr "Model returned empty response")]) 500, st)
  else
    match JSON_parse host (string_of raw) with
    | None =>
        Return (NextResponse_json
                  (JObj [("error", JStr "Model did not return valid JSON");
                         ("raw", raw)]) 500, st)
    | Some parsed =>
        s <- sanitize parsed ;;
        created <- prisma_report_create st (report_data url s) ;;
        let '(report, st') := created in
        Return (NextResponse_json (JObj [("reportId", JStr (id report))]) 200, st')
    end.

(** The body of the [try]: the three guards, then [analyze]. *)
Definition POST_try (env : Env) (req_json : Outcome JsValue) (st : Store)
  : Outcome (Response * Store) :=
  if negb (env_set (OPENAI_API_KEY env)) then
    Return (NextResponse_json
              (JObj [("error", JStr "Missing OPENAI_API_KEY in .env")]) 500, st)
  else
    body <- req_json ;;
    let imageDataUrl := OptGet body "imageDataUrl" in
    invalid <- (if negb (truthy imageDataUrl) then Return true
                else ok <- String_startsWith imageDataUrl "data:image/" ;;
                     Return (negb ok)) ;;
    if invalid : bool then
      Return (NextResponse_json
                (JObj [("error", JStr "Missing screenshot upload (imageDataUrl)")])
                400, st)
    else if Num.gtb (Length imageDataUrl) (Num.of_Z MAX_IMAGE_DATAURL_CHARS) then
      Return (NextResponse_json
                (JObj [("error",
                        JStr "Screenshot is too large. Upload a smaller image (or compress it) and try again.")])
                413, st)
    else analyze env (string_of imageDataUrl) st.

(** [POST]: whatever the body throws is answered with status 500 and
    the message of the exception, and the table is as it was.  (The
    line written to the console is left out.) *)
Definition POST (env : Env) (req_json : Outcome JsValue) (st : Store)
  : Response * Store :=
  match POST_try env req_json st with
  | Return out => out
  | Throw err =>
      (NextResponse_json
         (JObj [("error", Or (OptGet err "message") (JStr "Internal server error"))])
         500, st)
  end.

End Endpoint.

(** [prisma.report.findUnique({ where: { id } })]. *)
Definition prisma_report_findUnique (st : Store) (i : string) : option Report :=
  find (fun r => id r =? i) st.

(* ================================================================== *)
(** * ReportRenderer: the report page *)
(* ================================================================== *)

Record Style : Type := {
  borderColor : string;
  background : string;
  color : string
}.

Module BottomSheet.

(** [severityStyle] of [DraggableBottomSheet.tsx].  The [switch]
    compares with [===]: only the strings High and Medium leave the
    default. *)
Definition severityStyle (sev : JsValue) : Style :=
  match sev with
  | JStr s =>
      if s =? "High" then
        {| borderColor := "#ff6b6b"; background := "#2a1a1a"; color := "#ff8a8a" |}
      else if s =? "Medium" then
        {| borderColor := "#ffd93d"; background := "#2a2515"; color := "#ffed4e" |}
      else
        {| borderColor := "#666"; background := "#1a1a1a"; color := "#b0b0b0" |}
  | _ => {| borderColor := "#666"; background := "#1a1a1a"; color := "#b0b0b0" |}
  end.

End BottomSheet.

Module Results.

(** [severityStyle] of [page.tsx]. *)
Definition severityStyle (sev : JsValue) : Style :=
  match sev with
  | JStr s =>
      if s =? "High" then
        {| borderColor := "#ff6b6b"; background := "#2a1a1a"; color := "#ff8a8a" |}
      else if s =? "Medium" then
        {| borderColor := "#ffd93d"; background := "#2a2515"; color := "#ffed4e" |}
      else
        {| borderColor := "#666"; background := "#1a1a1a"; color := "#b0b0b0" |}
  | _ => {| borderColor := "#666"; background := "#1a1a1a"; color := "#b0b0b0" |}
  end.

(** The children of the list of top fixes. *)
Inductive TopFixesList : Type :=
| NoMajorIssues                    (* <li>No major issues detected.</li> *)
| Fixes (items : list JsValue).    (* one <li> per fix, in order *)

(** One card of "Findings by law". *)
Record LawCard : Type := {
  card_key : string;
  card_title : JsValue;
  card_severity : JsValue;
  card_finding : JsValue;
  card_tag : Style
}.

(** What the component returns for a report.  An empty
    [view_narrative] shows no narrative block. *)
Record ReportView : Type := {
  view_image : string;
  view_score : number;
  view_narrative : string;
  view_topFixes : TopFixesList;
  view_laws : list LawCard
}.

Inductive Page : Type :=
| ReportNotFound
| ReportPage (v : ReportView).

(** [topFixes.length ? topFixes.map(...) : <li>...</li>]. *)
Definition top_fixes_list (topFixes : JsValue) : Outcome TopFixesList :=
  match topFixes with
  | JArr [] => Return NoMajorIssues
  | JArr a => Return (Fixes a)
  | JStr s =>
      if s =? "" then Return NoMajorIssues
      else Throw (TypeError "topFixes.map is not a function")
  | JObj _ =>
      if truthy (Get topFixes "length")
      then Throw (TypeError "topFixes.map is not a function")
      else Return NoMajorIssues
  | _ => Return NoMajorIssues
  end.

(** The body of the [map] over the law entries. *)
Definition law_card (entry : string * JsValue) : Outcome LawCard :=
  let '(key, item) := entry in
  severity <- GetProp item "severity" ;;
  let tag := severityStyle severity in
  Return {| card_key := key;
            card_title := Get item "title";
            card_severity := severity;
            card_finding := Get item "finding";
            card_tag := tag |}.

Fixpoint law_cards (entries : Props.t) : Outcome (list LawCard) :=
  match entries with
  | [] => Return []
  | e :: rest =>
      c <- law_card e ;;
      cs <- law_cards rest ;;
      Return (c :: cs)
  end.

(** The laws of the cards: the stored mapping without [narrative]. *)
Definition law_entries (lawsAll : JsValue) : Props.t :=
  let lawEntries :=
    filter (fun e => negb (fst e =? "narrative")) (Props.own lawsAll) in
  Props.fromEntries lawEntries.

(** [typeof lawsAll.narrative === "string" ? lawsAll.narrative : ""]. *)
Definition narrative_shown (lawsAll : JsValue) : string :=
  if typeof (Get lawsAll "narrative") =? "string"
  then string_of (Get lawsAll "narrative")
  else "".

(** What React makes of a child [{v}]: a string or a number is text; a
    boolean, [null] and [undefined] show nothing; an array shows its
    items; a plain object is no child, and the render throws. *)
Fixpoint React_child (v : JsValue) : bool :=
  match v with
  | JObj _ => false
  | JArr items => forallb React_child items
  | _ => true
  end.

(** The children the page hands to React, in the order of the
    document: the score, the narrative, the top fixes, and the title,
    the severity and the finding of each card. *)
Definition children (v : ReportView) : list JsValue :=
  (JNum (view_score v) :: JStr (view_narrative v) ::
   match view_topFixes v with
   | NoMajorIssues => []
   | Fixes items => items
   end ++
   flat_map (fun c => [card_title c; card_severity c; card_finding c]) (view_laws v))%list.

(** React renders what the component has returned.  (The message of
    the error goes on to name the keys of the object.) *)
Definition render (v : ReportView) : Outcome Page :=
  if forallb React_child (children v) then Return (ReportPage v)
  else Throw (Error "Objects are not valid as a React child").

Definition ResultsPage (st : Store) (i : string) : Outcome Page :=
  match prisma_report_findUnique st i with
  | None => Return ReportNotFound
  | Some report =>
      let topFixes := Coalesce (topFixes report) (JArr []) in
      let lawsAll := Coalesce (laws report) (JObj []) in
      let narrative := narrative_shown lawsAll in
      let laws := law_entries lawsAll in
      fixes <- top_fixes_list topFixes ;;
      cards <- law_cards (firstn 3 laws) ;;
      render {| view_image := imageDataUrl report;
                view_score := score report;
                view_narrative := narrative;
                view_topFixes := fixes;
                view_laws := cards |}
  end.

End Results.

(* ================================================================== *)
(** * AnalysisRequestSubmitter: the three submitters *)
(* ================================================================== *)

(** What the browser answers to [fetch] and [res.json()]. *)
Inductive FetchResult : Type :=
| NetworkFailure (err : JsValue)
| Responded (ok : bool) (json : Outcome JsValue).

(** The state of a page: its React state, where it has navigated to,
    and the alerts it has shown. *)
Record Client : Type := {
  imagePreview : JsValue;
  isRunning : bool;
  error : JsValue;
  location : option string;
  alerts : list JsValue
}.

Definition setError (e : JsValue) (c : Client) : Client :=
  {| imagePreview := imagePreview c; isRunning := isRunning c; error := e;
     location := location c; alerts := alerts c |}.

Definition setIsRunning (b : bool) (c : Client) : Client :=
  {| imagePreview := imagePreview c; isRunning := b; error := error c;
     location := location c; alerts := alerts c |}.

Definition navigate (url : string) (c : Client) : Client :=
  {| imagePreview := imagePreview c; isRunning := isRunning c; error := error c;
     location := Some url; alerts := alerts c |}.

Definition alert (m : JsValue) (c : Client) : Client :=
  {| imagePreview := imagePreview c; isRunning := isRunning c; error := error c;
     location := location c; alerts := (alerts c ++ [m])%list |}.

(** [await fetch(...)] followed by [await res.json()]. *)
Definition fetch_json (net : FetchResult) : Outcome (bool * JsValue) :=
  match net with
  | NetworkFailure err => Throw err
  | Responded ok json => data <- json ;; Return (ok, data)
  end.

Section Submitters.

Context (host : Host).

(** The template literal [`/results/${data.reportId}`]. *)
Definition results_url (data : JsValue) : Outcome string :=
  reportId <- GetProp data "reportId" ;;
  s <- ToString host reportId ;;
  Return ("/results/" ++ s).

(** [runAnalysis] of the analyze page: [try], [catch], [finally]. *)
Definition AnalyzePage_runAnalysis (net : FetchResult) (c : Client) : Client :=
  if (negb (truthy (imagePreview c)) || isRunning c)%bool then c
  else
    let c := setError JNull c in
    let c := setIsRunning true c in
    let tried : Outcome Client :=
      r <- fetch_json net ;;
      let '(ok, data) := r in
      if negb ok then
        Return (setError (Or (OptGet data "error") (JStr "Analysis failed")) c)
      else
        url <- results_url data ;;
        Return (navigate url c) in
    let c :=
      match tried with
      | Return c' => c'
      | Throw err => setError (Or (OptGet err "message") (JStr "Network error")) c
      end in
    setIsRunning false c.

(** The effect of [HomePage] that runs when [imagePreview] changes:
    [try] and [catch], no [finally]. *)
Definition HomePage_analyze (net : FetchResult) (c : Client) : Client :=
  if (truthy (imagePreview c) && negb (isRunning c))%bool then
    let c := setError JNull c in
    let c := setIsRunning true c in
    let tried : Outcome Client :=
      r <- fetch_json net ;;
      let '(ok, data) := r in
      if negb ok then
        let c := setError (Or (OptGet data "error") (JStr "Analysis failed")) c in
        Return (setIsRunning false c)
      else
        url <- results_url data ;;
        Return (navigate url c) in
    match tried with
    | Return c' => c'
    | Throw err =>
        let c := setError (Or (OptGet err "message") (JStr "Network error")) c in
        setIsRunning false c
    end
  else c.

(** [runAnalysis] of [UploadButton]: no guard, errors are alerted. *)
Definition UploadButton_runAnalysis (net : FetchResult) (c : Client) : Client :=
  let c := setIsRunning true c in
  let tried : Outcome Client :=
    r <- fetch_json net ;;
    let '(ok, data) := r in
    if negb ok then
      let c := alert (Or (OptGet data "error") (JStr "Analysis failed")) c in
      Return (setIsRunning false c)
    else
      url <- results_url data ;;
      Return (navigate url c) in
  match tried with
  | Return c' => c'
  | Throw err =>
      let c := alert (Or (OptGet err "message") (JStr "Network error")) c in
      setIsRunning false c
  end.

End Submitters.

(* ================================================================== *)
(** * ImageNormalizer: the size of the canvas *)
(* ================================================================== *)

(** The size [img.onload] gives the canvas. *)
Record CanvasSize : Type := {
  scale : number;
  w : number;
  h : number
}.

Section Normalizer.

Context (host : Host).

(** [a / b]. *)
Definition Num_div (a b : number) : number :=
  match a, b with
  | NaN, _ | _, NaN => NaN
  | Fin p, Fin q =>
      if Qeq_bool q 0
      then (if Qeq_bool p 0 then NaN else if Qle_bool 0 p then PosInf else NegInf)
      else roundToDouble host (p / q)
  | Fin _, _ => Fin 0
  | PosInf, Fin q => if Qle_bool 0 q then PosInf else NegInf
  | NegInf, Fin q => if Qle_bool 0 q then NegInf else PosInf
  | _, _ => NaN
  end.

(** [a * b]. *)
Definition Num_mul (a b : number) : number :=
  match a, b with
  | NaN, _ | _, NaN => NaN
  | Fin p, Fin q => roundToDouble host (p * q)
  | Fin p, PosInf | PosInf, Fin p =>
      if Qeq_bool p 0 then NaN else if Qle_bool 0 p then PosInf else NegInf
  | Fin p, NegInf | NegInf, Fin p =>
      if Qeq_bool p 0 then NaN else if Qle_bool 0 p then NegInf else PosInf
  | PosInf, PosInf | NegInf, NegInf => PosInf
  | _, _ => NegInf
  end.

(** The arithmetic of [img.onload] in [handleImageUpload], the same in
    the three upload components.  [width] and [height] are
    [img.width] and [img.height]. *)
Definition img_onload (width height : N) : CanvasSize :=
  let MAX_W := Fin 1200 in
  let scale := Math_min (Fin 1) (Num_div MAX_W (Num.of_N width)) in
  let w := Math_round (Num_mul (Num.of_N width) scale) in
  let h := Math_round (Num_mul (Num.of_N height) scale) in
  {| scale := scale; w := w; h := h |}.

End Normalizer.

(** [img.width] as a rational. *)
Definition W (width : N) : Q := inject_Z (Z.of_N width).

(** What this development asks of binary64 rounding to nearest: a
    result in the normal range is finite and within relative error
    [2^-53], rounding is monotone, and the integers up to [2^53] are
    numbers. *)
Definition ulp_rel : Q := 1 # (2 ^ 53).
Definition min_normal : Q := 1 # (2 ^ 1022).
Definition max_normal : Q := inject_Z (2 ^ 1023).

Record Binary64 (fl : Q -> number) : Prop := {
  fl_exact : forall (x : Q) (z : Z),
      x == inject_Z z -> (Z.abs z <= 2 ^ 53)%Z -> Num.between x x (fl x);
  fl_monotone : forall x y : Q, x <= y -> Num.leb (fl x) (fl y) = true;
  fl_error : forall x : Q,
      min_normal <= x -> x <= max_normal ->
      Num.between (x * (1 - ulp_rel)) (x * (1 + ulp_rel)) (fl x)
}.

(* ================================================================== *)
(** * ImageNormalizer: [handleImageUpload] *)
(* ================================================================== *)

(** What the browser does with the selected file.  [Decoded] carries
    [img.width], [img.height] and the canvas: [None] when [getContext]
    gives no context, otherwise what [toDataURL("image/jpeg", 0.75)]
    returns for a canvas of the given width and height. *)
Inductive Upload : Type :=
| NoFile
| ReadFails
| DecodeFails
| Decoded (width height : N) (toDataURL : option (number -> number -> string)).

Definition setImagePreview (p : JsValue) (c : Client) : Client :=
  {| imagePreview := p; isRunning := isRunning c; error := error c;
     location := location c; alerts := alerts c |}.

(** [Object.is] on the values of [imagePreview], which are [null] and
    strings: the test React makes on the dependency of the effect. *)
Definition same_preview (a b : JsValue) : bool :=
  match a, b with
  | JNull, JNull => true
  | JStr x, JStr y => x =? y
  | _, _ => false
  end.

Section Uploads.

Context (host : Host).

(** [handleImageUpload] of the home page and of the analyze page. *)
Definition handleImageUpload (up : Upload) (c : Client) : Client :=
  let c := setError JNull c in
  match up with
  | NoFile => c
  | ReadFails => setError (JStr "Failed to read file.") c
  | DecodeFails => setError (JStr "Unsupported image file.") c
  | Decoded width height canvas =>
      let size := img_onload host width height in
      match canvas with
      | None => setError (JStr "Could not read image.") c
      | Some toDataURL =>
          let compressed := toDataURL (w size) (h size) in
          setImagePreview (JStr compressed) c
      end
  end.

(** The home page: the upload, then the effect on [imagePreview], which
    runs when the value has changed. *)
Definition HomePage_upload (up : Upload) (net : FetchResult) (c : Client) : Client :=
  let c' := handleImageUpload up c in
  if same_preview (imagePreview c) (imagePreview c') then c'
  else HomePage_analyze host net c'.

(** [handleImageUpload] of [UploadButton]: failures are silent, and the
    compressed image goes to [runAnalysis] at once. *)
Definition UploadButton_handleImageUpload (up : Upload) (net : FetchResult)
    (c : Client) : Client :=
  match up with
  | NoFile | ReadFails | DecodeFails => c
  | Decoded width height canvas =>
      let size := img_onload host width height in
      match canvas with
      | None => c
      | Some toDataURL =>
          let compressed := toDataURL (w size) (h size) in
          UploadButton_runAnalysis host net c
      end
  end.

End Uploads.

(* ================================================================== *)
(** * The bottom sheet: dragging *)
(* ================================================================== *)

Module Drag.

(** The state and the refs of [DraggableBottomSheet].  The effect that
    copies [dragY] into [currentDragYRef] after a render is left to
    the handlers, which set the two together. *)
Record Sheet : Type := {
  dragY : number;
  isDragging : bool;
  startYRef : number;
  startDragYRef : number;
  currentDragYRef : number
}.

(** The component as it mounts. *)
Definition initial : Sheet :=
  {| dragY := Fin 0; isDragging := false;
     startYRef := Fin 0; startDragYRef := Fin 0; currentDragYRef := Fin 0 |}.

(** A touch event: the [clientY] of its first touch, and the value of
    [window.innerHeight] when the handler reads it. *)
Inductive TouchEvent : Type :=
| TouchStart (clientY : number)
| TouchMove (innerHeight : N) (clientY : number)
| TouchEnd (innerHeight : N).

Section WithHost.

Context (host : Host).

(** [a + b] and [a - b]. *)
Definition Num_add (a b : number) : number :=
  match a, b with
  | NaN, _ | _, NaN => NaN
  | Fin p, Fin q => roundToDouble host (p + q)
  | PosInf, NegInf | NegInf, PosInf => NaN
  | PosInf, _ | _, PosInf => PosInf
  | NegInf, _ | _, NegInf => NegInf
  end.

Definition Num_sub (a b : number) : number :=
  match a, b with
  | NaN, _ | _, NaN => NaN
  | Fin p, Fin q => roundToDouble host (p - q)
  | PosInf, PosInf | NegInf, NegInf => NaN
  | PosInf, _ | _, NegInf => PosInf
  | NegInf, _ | _, PosInf => NegInf
  end.

(** [window.innerHeight * 0.8]. *)
Definition maxDrag (innerHeight : N) : number :=
  Num_mul host (Num.of_N innerHeight) (roundToDouble host (4 # 5)).

Definition handleTouchStart (clientY : number) (s : Sheet) : Sheet :=
  {| dragY := dragY s;
     isDragging := true;
     startYRef := clientY;
     startDragYRef := currentDragYRef s;
     currentDragYRef := currentDragYRef s |}.

Definition handleTouchMove (innerHeight : N) (clientY : number) (s : Sheet) : Sheet :=
  if negb (isDragging s) then s
  else
    let deltaY := Num_sub clientY (startYRef s) in
    let maxDrag := maxDrag innerHeight in
    let newPosition :=
      Math_max (Fin 0) (Math_min maxDrag (Num_add (startDragYRef s) deltaY)) in
    {| dragY := newPosition;
       isDragging := isDragging s;
       startYRef := startYRef s;
       startDragYRef := startDragYRef s;
       currentDragYRef := newPosition |}.

Definition handleTouchEnd (innerHeight : N) (s : Sheet) : Sheet :=
  if negb (isDragging s) then s
  else
    let maxDrag := maxDrag innerHeight in
    let threshold := Num_mul host maxDrag (roundToDouble host (1 # 2)) in
    let finalPosition :=
      if Num.gtb (currentDragYRef s) threshold then maxDrag else Fin 0 in
    {| dragY := finalPosition;
       isDragging := false;
       startYRef := startYRef s;
       startDragYRef := startDragYRef s;
       currentDragYRef := finalPosition |}.

(** One event.  The listeners for moves and ends are attached while
    [isDragging] holds, and React has rendered, and run the effect that
    attaches them, before the next event arrives. *)
Definition step (s : Sheet) (e : TouchEvent) : Sheet :=
  match e with
  | TouchStart y => handleTouchStart y s
  | TouchMove innerHeight y => handleTouchMove innerHeight y s
  | TouchEnd innerHeight => handleTouchEnd innerHeight s
  end.

Definition run (events : list TouchEvent) (s : Sheet) : Sheet :=
  fold_left step events s.

End WithHost.

End Drag.

(* ================================================================== *)
(** * Hosts, inputs and predicates of the statements *)
(* ================================================================== *)

(** A host for examples: exact arithmetic, a model that answers
    nothing, a table that numbers its rows by their count. *)
Definition exactHost : Host := {|
  roundToDouble := fun q => Fin (Qred q);
  NumberToString := fun _ => "?";
  JSON_parse := fun _ => None;
  DEFAULT_SYSTEM_PROMPT := "";
  chat_completions_create := fun _ => Return JNull;
  new_id := fun st => decimal (N.of_nat (List.length st));
  now := fun _ => 0%Z;
  create_rejects := fun _ => None |}.

(** A host whose model answers [reply] and whose [JSON.parse] maps that
    answer to [parsed]. *)
Definition scriptedHost (reply : string) (parsed : option JsValue) : Host := {|
  roundToDouble := fun q => Fin (Qred q);
  NumberToString := fun _ => "?";
  JSON_parse := fun _ => parsed;
  DEFAULT_SYSTEM_PROMPT := "";
  chat_completions_create := fun _ =>
    Return (JObj [("choices",
                   JArr [JObj [("message", JObj [("content", JStr reply)])]])]);
  new_id := fun st => decimal (N.of_nat (List.length st));
  now := fun _ => 0%Z;
  create_rejects := fun _ => None |}.

(** [s] between double quotes, for the text of a JSON reply. *)
Definition quoted (s : string) : string :=
  String "034"%char (s ++ String "034"%char "").

Definition testEnv : Env :=
  {| OPENAI_API_KEY := Some "sk-test"; UX_SYSTEM_PROMPT := None |}.

Definition testRequest : Outcome JsValue :=
  Return (JObj [("imageDataUrl", JStr "data:image/jpeg;base64,AAAA")]).

(** Replies of the model, parsed. *)
Definition reply_fraction : JsValue := JObj [("score", JNum (Fin (145 # 2)))].
Definition reply_words : JsValue := JObj [("score", JStr "abc")].

Definition long_text : string := string_of_list_ascii (repeat "a"%char 1501).

Definition reply_long_narrative_in_laws : JsValue :=
  JObj [("narrative", JStr "ok");
        ("laws", JObj [("narrative", JStr long_text)])].

Definition reply_number_narrative_in_laws : JsValue :=
  JObj [("narrative", JStr "Summary");
        ("laws", JObj [("narrative", JNum (Fin 7));
                       ("hicks", JObj [("title", JStr "Hick's Law");
                                       ("severity", JStr "Low")])])].

Definition error_response (message : string) (st : Z) : Response :=
  NextResponse_json (JObj [("error", JStr message)]) st.

(** A data URL of 2,000,011 code units. *)
Definition huge_url : string :=
  "data:image/" ++ N.iter 2000000 (String "A"%char) "".

(** The payload has passed the three guards with the data URL [url]. *)
Definition accepted (env : Env) (req_json : Outcome JsValue) (url : string) : Prop :=
  env_set (OPENAI_API_KEY env) = true /\
  exists body,
    req_json = Return body /\
    OptGet body "imageDataUrl" = JStr url /\
    prefix "data:image/" url = true /\
    (Z.of_nat (String.length url) <= MAX_IMAGE_DATAURL_CHARS)%Z.

(** The row [report] is the row the handler builds from [url] and the
    sanitized fields [s]. *)
Definition row_of (url : string) (s : Sanitized) (report : Report) : Prop :=
  imageDataUrl report = url /\
  goal report = "" /\
  navItems report = 0%Z /\ ctaCount report = 0%Z /\ formFields report = 0%Z /\
  score report = s_score s /\
  topFixes report = s_topFixes s /\
  laws report = s_lawsToStore s.

(** An answer that reports an error: not status 200, and a message
    under [error]. *)
Definition is_error (resp : Response) : Prop :=
  status resp <> 200%Z /\ truthy (Get (body resp) "error") = true.

Definition refusingHost : Host := scriptedHost " I am not JSON " None.

(** The request succeeds and the page navigates to [url]: the response
    is a success, its body is readable, and the address of the report
    can be built from it. *)
Definition succeeds (host : Host) (net : FetchResult) (url : string) : Prop :=
  exists data, net = Responded true (Return data) /\ results_url host data = Return url.

(** A page that has an image and no request in flight. *)
Definition idleClient : Client :=
  {| imagePreview := JStr "data:image/jpeg;base64,AAAA";
     isRunning := false;
     error := JNull;
     location := None;
     alerts := [] |}.

Definition okResponse : FetchResult :=
  Responded true (Return (JObj [("reportId", JStr "r1")])).

(** The styling of the default branch. *)
Definition LowStyle : Style :=
  {| borderColor := "#666"; background := "#1a1a1a"; color := "#b0b0b0" |}.

(** The list of top fixes the page shows for an array. *)
Definition shown_fixes (a : list JsValue) : Results.TopFixesList :=
  match a with
  | [] => Results.NoMajorIssues
  | _ => Results.Fixes a
  end.

Definition reply_null_law : JsValue :=
  JObj [("laws", JObj [("hicks", JNull)])].

Definition finding (title severity : string) : JsValue :=
  JObj [("title", JStr title); ("severity", JStr severity);
        ("finding", JStr "What is seen."); ("why", JStr "Why it matters.");
        ("fix", JStr "What to change.")].

Definition emptyReport : Report :=
  {| id := "r1"; createdAt := 0%Z; imageDataUrl := "data:image/jpeg;base64,AAAA";
     goal := ""; navItems := 0%Z; ctaCount := 0%Z; formFields := 0%Z;
     score := Fin 100; topFixes := JArr [];
     laws := JObj [("narrative", JStr "Nothing to fix.");
                   ("hicks", finding "Hick's Law" "Low")] |}.


Definition reply_five_laws : JsValue :=
  JObj [("score", JNum (Fin 72));
        ("narrative", JStr "The page converts, with friction.");
        ("topFixes", JArr [JStr "One call to action"; JStr "Shorter form"]);
        ("laws", JObj [("hicks", finding "Hick's Law" "High");
                       ("fitts", finding "Fitts's Law" "Medium");
                       ("vonRestorff", finding "Von Restorff Effect" "Low");
                       ("jakobs", finding "Jakob's Law" "Low");
                       ("cognitiveLoad", finding "Cognitive Load" "Medium")])].

(** [JSON.parse(JSON.stringify(v))] for a value in property order:
    what the other side receives of a body.  A property that is
    [undefined] is left out; [undefined] in an array, NaN and the
    infinities arrive as [null]. *)
Fixpoint JSON_roundtrip (v : JsValue) : JsValue :=
  match v with
  | JUndefined => JNull
  | JNum (Fin _) => v
  | JNum _ => JNull
  | JArr items => JArr (map JSON_roundtrip items)
  | JObj props =>
      JObj ((fix entries (l : list (string * JsValue)) : list (string * JsValue) :=
               match l with
               | [] => []
               | (k, JUndefined) :: rest => entries rest
               | (k, x) :: rest => (k, JSON_roundtrip x) :: entries rest
               end) props)
  | _ => v
  end.

(** The card of a law entry: its key, and the title, the severity and
    the finding of the entry, with the styling of the severity. *)
Definition card_shown (e : string * JsValue) : Results.LawCard :=
  {| Results.card_key := fst e;
     Results.card_title := Get (snd e) "title";
     Results.card_severity := Get (snd e) "severity";
     Results.card_finding := Get (snd e) "finding";
     Results.card_tag := Results.severityStyle (Get (snd e) "severity") |}.

(** React can show these top fixes and the title, the severity and the
    finding of these law entries: none of them is a plain object, or an
    array that holds one. *)
Definition can_be_shown (fixes : list JsValue) (entries : Props.t) : bool :=
  (forallb Results.React_child fixes &&
   forallb (fun e => Results.React_child (Get (snd e) "title") &&
                     Results.React_child (Get (snd e) "severity") &&
                     Results.React_child (Get (snd e) "finding")) entries)%bool.



Definition reply_object_title : JsValue :=
  JObj [("laws", JObj [("hicks", JObj [("title", JObj [("en", JStr "Hick's Law")]);
                                       ("severity", JStr "Low")])])].

(** A row as the endpoint writes it. *)
Definition endpoint_row (r : Report) : Prop :=
  prefix "data:image/" (imageDataUrl r) = true /\
  (Z.of_nat (String.length (imageDataUrl r)) <= MAX_IMAGE_DATAURL_CHARS)%Z /\
  (score r = NaN \/ Num.between 0 100 (score r)) /\
  (exists a, topFixes r = JArr a /\ (List.length a <= 3)%nat) /\
  (exists props, laws r = JObj props /\ has_own "narrative" props = true /\
                 Props.ordered props).

(** The answer is one of the four the handler gives: status 200 with
    the identifier of the one row appended, or status 400, 413 or 500
    with a message and the table as it was. *)
Definition answered (st : Store) (out : Response * Store) : Prop :=
  let '(resp, st') := out in
  (status resp = 200%Z /\
   exists report, st' = (st ++ [report])%list /\
                  body resp = JObj [("reportId", JStr (id report))]) \/
  ((status resp = 400%Z \/ status resp = 413%Z \/ status resp = 500%Z) /\
   st' = st /\ truthy (Get (body resp) "error") = true).

(** A host whose model service is down, and one whose table refuses
    every row. *)
Definition downHost : Host := {|
  roundToDouble := fun q => Fin (Qred q);
  NumberToString := fun _ => "?";
  JSON_parse := fun _ => None;
  DEFAULT_SYSTEM_PROMPT := "";
  chat_completions_create := fun _ => Throw (Error "Connection error.");
  new_id := fun st => decimal (N.of_nat (List.length st));
  now := fun _ => 0%Z;
  create_rejects := fun _ => None |}.

Definition fullHost (parsed : JsValue) : Host := {|
  roundToDouble := fun q => Fin (Qred q);
  NumberToString := fun _ => "?";
  JSON_parse := fun _ => Some parsed;
  DEFAULT_SYSTEM_PROMPT := "";
  chat_completions_create := fun _ =>
    Return (JObj [("choices",
                   JArr [JObj [("message", JObj [("content", JStr "(the reply)")])]])]);
  new_id := fun st => decimal (N.of_nat (List.length st));
  now := fun _ => 0%Z;
  create_rejects := fun _ => Some (Error "Can't reach database server") |}.

(** A host whose model answers without choices. *)
Definition silentHost : Host := {|
  roundToDouble := fun q => Fin (Qred q);
  NumberToString := fun _ => "?";
  JSON_parse := fun _ => None;
  DEFAULT_SYSTEM_PROMPT := "";
  chat_completions_create := fun _ => Return (JObj [("choices", JArr [])]);
  new_id := fun st => decimal (N.of_nat (List.length st));
  now := fun _ => 0%Z;
  create_rejects := fun _ => None |}.

(** The sanitized fields of a reply that has none. *)
Definition emptySanitized : Sanitized :=
  {| s_score := Fin 0;
     s_topFixes := JArr [];
     s_narrative := "";
     s_laws := JObj [];
     s_lawsToStore := JObj [("narrative", JStr "")] |}.

(** The request of a page for the image [image], answered by the
    endpoint: the body of the request is the JSON text of
    [{ imageDataUrl: image }], the page reads the JSON text of the
    answer, and [res.ok] holds for a status from 200 to 299. *)
Definition served (host : Host) (env : Env) (image : JsValue) (st : Store)
  : FetchResult * Store :=
  let request := JSON_roundtrip (JObj [("imageDataUrl", image)]) in
  let '(resp, st') := POST host env (Return request) st in
  (Responded ((200 <=? status resp) && (status resp <=? 299))%Z
             (Return (JSON_roundtrip (body resp))),
   st').

(** The value of [imagePreview] is [null] or a string. *)
Definition preview_typed (c : Client) : Prop :=
  imagePreview c = JNull \/ exists s, imagePreview c = JStr s.

(** The uploads that give the page no image. *)
Definition upload_fails (up : Upload) : bool :=
  match up with
  | Decoded _ _ (Some _) => false
  | _ => true
  end.

(** The touch events of a finger on the screen: [clientY] is a finite
    number. *)
Definition finite_touch (e : Drag.TouchEvent) : Prop :=
  match e with
  | Drag.TouchStart y | Drag.TouchMove _ y => exists q, y = Fin q
  | Drag.TouchEnd _ => True
  end.

(** The event reads a window height of at most [H], if it reads one. *)
Definition height_at_most (H : N) (e : Drag.TouchEvent) : Prop :=
  match e with
  | Drag.TouchStart _ => True
  | Drag.TouchMove n _ | Drag.TouchEnd n => (n <= H)%N
  end.

(** The window heights the releases of a sequence read. *)
Definition release_heights (events : list Drag.TouchEvent) : list N :=
  flat_map (fun e => match e with Drag.TouchEnd n => [n] | _ => [] end) events.

(** What the page shows of [emptyReport]. *)
Definition emptyReportView : Results.ReportView :=
  {| Results.view_image := "data:image/jpeg;base64,AAAA";
     Results.view_score := Fin 100;
     Results.view_narrative := "Nothing to fix.";
     Results.view_topFixes := Results.NoMajorIssues;
     Results.view_laws :=
       [{| Results.card_key := "hicks";
           Results.card_title := JStr "Hick's Law";
           Results.card_severity := JStr "Low";
           Results.card_finding := JStr "What is seen.";
           Results.card_tag := LowStyle |}] |}.

(** What a card shows of its entry. *)
Definition card_of (e : string * JsValue) (c : Results.LawCard) : Prop :=
  nullish (snd e) = false /\
  Results.card_key c = fst e /\
  Results.card_title c = Get (snd e) "title" /\
  Results.card_severity c = Get (snd e) "severity" /\
  Results.card_finding c = Get (snd e) "finding" /\
  Results.card_tag c = Results.severityStyle (Results.card_severity c).

(* ================================================================== *)
(** * Numbers: [clamp] *)
(* ================================================================== *)

Lemma Qle_bool_false (p q : Q) : Qle_bool p q = false -> q < p.
Proof.
  intros H. apply Qnot_le_lt. intros Hle.
  apply Qle_bool_iff in Hle. congruence.
Qed.

(** A clamped number that is not NaN lies between the bounds. *)
Lemma clamp_between (n : number) (lo hi : Q) :
  lo <= hi -> n <> NaN -> Num.between lo hi (clamp n (Fin lo) (Fin hi)).
Proof.
  intros Hlh Hn. unfold clamp, Math_min, Math_max, Num.leb.
  destruct n as [| | |q]; try congruence; simpl.
  - (* +infinity *)
    case_eq (Qle_bool lo hi); intros E; simpl.
    + split; [exact Hlh | apply Qle_refl].
    + apply Qle_bool_iff in Hlh. congruence.
  - (* -infinity *) split; [apply Qle_refl | exact Hlh].
  - case_eq (Qle_bool hi q); intros E1; simpl.
    + case_eq (Qle_bool lo hi); intros E2; simpl.
      * split; [exact Hlh | apply Qle_refl].
      * apply Qle_bool_iff in Hlh. congruence.
    + apply Qle_bool_false in E1.
      case_eq (Qle_bool lo q); intros E2; simpl.
      * apply Qle_bool_iff in E2. split; [exact E2 | apply Qlt_le_weak; exact E1].
      * split; [apply Qle_refl | exact Hlh].
Qed.

(** NaN goes through [clamp]. *)
Lemma clamp_NaN (lo hi : number) : clamp NaN lo hi = NaN.
Proof. unfold clamp, Math_min, Math_max. destruct hi, lo; reflexivity. Qed.

(** A number already between the bounds is left as it is. *)
Lemma clamp_inside (q lo hi : Q) :
  lo <= q -> q <= hi -> exists q', clamp (Fin q) (Fin lo) (Fin hi) = Fin q' /\ q' == q.
Proof.
  intros H1 H2. unfold clamp, Math_min, Math_max, Num.leb.
  case_eq (Qle_bool hi q); intros E1; simpl.
  - apply Qle_bool_iff in E1.
    assert (Hq : hi == q) by (apply Qle_antisym; assumption).
    case_eq (Qle_bool lo hi); intros E2.
    + exists hi. split; [reflexivity | exact Hq].
    + exists lo. split; [reflexivity|].
      apply Qle_bool_false in E2. exfalso.
      apply (Qlt_irrefl hi). apply Qlt_le_trans with lo; [exact E2|].
      apply Qle_trans with q; assumption.
  - case_eq (Qle_bool lo q); intros E2.
    + exists q. split; reflexivity.
    + apply Qle_bool_false in E2. exfalso.
      apply (Qlt_irrefl q). apply Qlt_le_trans with lo; assumption.
Qed.

(** An integer stays an integer. *)
Lemma clamp_keeps_integers (q : Q) :
  Num.is_integer (Fin q) = true ->
  Num.is_integer (clamp (Fin q) (Fin 0) (Fin 100)) = true.
Proof.
  intros H. unfold clamp, Math_min, Math_max, Num.leb.
  destruct (Qle_bool 100 q); cbn [Num.leb].
  - destruct (Qle_bool 0 100); reflexivity.
  - destruct (Qle_bool 0 q); [exact H | reflexivity].
Qed.

(* ================================================================== *)
(** * The score *)
(* ================================================================== *)

(** What a run of [sanitize] that returns has computed. *)
Lemma sanitize_Return (host : Host) (parsed : JsValue) (s : Sanitized) :
  sanitize host parsed = Return s ->
  nullish parsed = false /\
  exists n,
    ToNumber host (Coalesce (Get parsed "score") (JNum (Fin 0))) = Return n /\
    s = {| s_score := clamp n (Fin 0) (Fin 100);
           s_topFixes := topFixes_of (Get parsed "topFixes");
           s_narrative := narrative_of (Get parsed "narrative");
           s_laws := laws_of (Get parsed "laws");
           s_lawsToStore :=
             lawsToStore_of (narrative_of (Get parsed "narrative"))
                            (laws_of (Get parsed "laws")) |}.
Proof.
  unfold sanitize, GetProp.
  destruct (nullish parsed); cbn [bind]; [discriminate|].
  destruct (ToNumber host _) as [n|e]; cbn [bind]; [|discriminate].
  intros H. split; [reflexivity|]. exists n. split; [reflexivity|].
  congruence.
Qed.

(** A missing or [null] score is 0. *)
Lemma score_missing_is_zero (host : Host) (parsed : JsValue) (s : Sanitized) :
  sanitize host parsed = Return s ->
  nullish (Get parsed "score") = true ->
  s_score s = Fin 0.
Proof.
  intros H Hn. apply sanitize_Return in H as (_ & n & Hnum & ->).
  unfold Coalesce in Hnum. rewrite Hn in Hnum.
  cbn in Hnum. inversion Hnum; subst. reflexivity.
Qed.

(** Whatever the reply, the score is NaN or a number from 0 to 100. *)
Lemma score_between_or_NaN (host : Host) (parsed : JsValue) (s : Sanitized) :
  sanitize host parsed = Return s ->
  s_score s = NaN \/ Num.between 0 100 (s_score s).
Proof.
  intros H. apply sanitize_Return in H as (_ & n & _ & ->).
  cbn [s_score]. destruct n as [| | |q].
  - left. apply clamp_NaN.
  - right. apply clamp_between; [lra | discriminate].
  - right. apply clamp_between; [lra | discriminate].
  - right. apply clamp_between; [lra | discriminate].
Qed.

(** C1 (the code at the failing inputs).  The claim asks for an integer
    from 0 to 100 whatever the reply's score, and for 0 when the score
    is not numeric.  For the reply [{"score": 72.5}] the handler computes
    72.5, which is no integer, and for [{"score": "abc"}] it computes
    NaN, which is neither 0 nor in range; with a table that takes what
    it is given, NaN is the score of the row. *)
Theorem score_fraction_and_NaN_pass :
  (forall host : Host,
      exists s, sanitize host reply_fraction = Return s /\
                s_score s = Fin (145 # 2) /\
                Num.is_integer (s_score s) = false) /\
  (forall host : Host,
      exists s, sanitize host reply_words = Return s /\ s_score s = NaN) /\
  (exists resp row,
      POST (scriptedHost ("{" ++ quoted "score" ++ ": " ++ quoted "abc" ++ "}")
                        (Some reply_words))
           testEnv testRequest [] = (resp, [row]) /\
      status resp = 200%Z /\ score row = NaN).
Proof.
  split; [|split].
  - intros host. eexists. split; [reflexivity|]. split; reflexivity.
  - intros host. eexists. split; [reflexivity|]. reflexivity.
  - eexists. eexists. split; [vm_compute; reflexivity|]. split; reflexivity.
Qed.

(* ================================================================== *)
(** * Objects: property order is kept *)
(* ================================================================== *)

Module PropsFacts.

Import Props.

Lemma has_own_In (k : string) (props : t) :
  has_own k props = true <-> In k (keys props).
Proof.
  unfold has_own. induction props as [|[k' v] rest IH]; simpl.
  - split; [discriminate | tauto].
  - destruct (String.eqb_spec k' k) as [->|Hne].
    + split; [intros _; left; reflexivity | reflexivity].
    + rewrite IH. split; [intros H; right; exact H|].
      intros [H|H]; [congruence | exact H].
Qed.

Lemma has_own_not_In (k : string) (props : t) :
  has_own k props = false <-> ~ In k (keys props).
Proof.
  rewrite <- has_own_In. destruct (has_own k props); split; congruence.
Qed.

Lemma keys_replace (k : string) (v : JsValue) (props : t) :
  keys (replace k v props) = keys props.
Proof.
  induction props as [|[k' v'] rest IH]; simpl; [reflexivity|].
  destruct (k' =? k); simpl; [reflexivity | now rewrite IH].
Qed.

Lemma In_keys_insert_index (n : N) (k x : string) (v : JsValue) (props : t) :
  In x (keys (insert_index n k v props)) <-> x = k \/ In x (keys props).
Proof.
  induction props as [|[k' v'] rest IH]; simpl.
  - intuition congruence.
  - destruct (array_index k') as [n'|]; [destruct (n' <=? n)%N|]; simpl;
      try rewrite IH; intuition congruence.
Qed.

Lemma sorted_snoc {A : Type} (R : A -> A -> Prop) (l : list A) (x : A) :
  StronglySorted R l -> Forall (fun y => R y x) l ->
  StronglySorted R (l ++ [x]).
Proof.
  induction 1 as [|a l Hs IH Ha]; intros Hx; simpl.
  - constructor; constructor.
  - inversion Hx; subst. constructor; [apply IH; assumption|].
    apply Forall_app. split; [exact Ha | constructor; [assumption | constructor]].
Qed.


Lemma ordered_insert_index (n : N) (k : string) (v : JsValue) (props : t) :
  array_index k = Some n -> ~ In k (keys props) -> ordered props ->
  ordered (insert_index n k v props).
Proof.
  unfold ordered. intros Hk. induction props as [|[k' v'] rest IH]; simpl; intros Hin Hs.
  - constructor; constructor.
  - inversion Hs as [|? ? Hs' Hall]; subst.
    assert (Hne : k' <> k) by tauto.
    assert (Hin' : ~ In k (keys rest)) by tauto.
    destruct (array_index k') as [n'|] eqn:Hk'.
    + destruct (N.leb_spec n' n) as [Hle|Hlt]; simpl.
      * constructor; [apply IH; assumption|].
        apply Forall_forall. intros x Hx.
        apply In_keys_insert_index in Hx as [->|Hx].
        -- split; [exact Hne|]. rewrite Hk', Hk. exact Hle.
        -- rewrite Forall_forall in Hall. apply Hall. exact Hx.
      * constructor; [constructor; assumption|].
        constructor; simpl.
        -- split; [congruence|]. rewrite Hk, Hk'. lia.
        -- apply Forall_forall. intros x Hx.
           rewrite Forall_forall in Hall. destruct (Hall x Hx) as [Hxne Hord].
           split; [intros ->; tauto|].
           rewrite Hk. rewrite Hk' in Hord.
           destruct (array_index x); [lia | exact I].
    + constructor; [constructor; assumption|].
      constructor; simpl.
      * split; [congruence|]. rewrite Hk, Hk'. exact I.
      * apply Forall_forall. intros x Hx.
        rewrite Forall_forall in Hall. destruct (Hall x Hx) as [Hxne Hord].
        split; [intros ->; tauto|].
        rewrite Hk. rewrite Hk' in Hord.
        destruct (array_index x); [contradiction | exact I].
Qed.

Lemma ordered_define (props : t) (kv : string * JsValue) :
  ordered props -> ordered (define props kv).
Proof.
  destruct kv as [k v]. unfold define. intros Hs.
  destruct (has_own k props) eqn:Hown.
  - unfold ordered. rewrite keys_replace. exact Hs.
  - apply has_own_not_In in Hown.
    destruct (array_index k) as [n|] eqn:Hk.
    + apply ordered_insert_index; assumption.
    + unfold ordered, keys. rewrite map_app. simpl.
      apply sorted_snoc; [exact Hs|].
      apply Forall_forall. intros x Hx. split; [intros ->; tauto|].
      rewrite Hk. destruct (array_index x); exact I.
Qed.

Lemma ordered_fold (entries props : t) :
  ordered props -> ordered (fold_left define entries props).
Proof.
  revert props. induction entries as [|e rest IH]; intros props Hs;
    cbn [fold_left].
  - exact Hs.
  - apply IH. apply ordered_define. exact Hs.
Qed.

(** What a spread builds is in property order. *)
Lemma ordered_spread (props : t) (v : JsValue) :
  ordered props -> ordered (spread props v).
Proof. apply ordered_fold. Qed.






Lemma lookup_replace_other (k k' : string) (v : JsValue) (props : t) :
  k <> k' -> lookup k (replace k' v props) = lookup k props.
Proof.
  intros Hne. induction props as [|[k0 v0] rest IH]; simpl; [reflexivity|].
  destruct (String.eqb_spec k0 k') as [->|Hne0]; simpl.
  - destruct (String.eqb_spec k' k); [congruence | reflexivity].
  - destruct (k0 =? k); [reflexivity | exact IH].
Qed.

Lemma lookup_insert_index_other (n : N) (k k' : string) (v : JsValue) (props : t) :
  k <> k' -> lookup k (insert_index n k' v props) = lookup k props.
Proof.
  intros Hne. induction props as [|[k0 v0] rest IH]; simpl.
  - destruct (String.eqb_spec k' k); [congruence | reflexivity].
  - destruct (array_index k0) as [n0|]; [destruct (n0 <=? n)%N|]; simpl.
    + destruct (k0 =? k); [reflexivity | exact IH].
    + destruct (String.eqb_spec k' k); [congruence | reflexivity].
    + destruct (String.eqb_spec k' k); [congruence | reflexivity].
Qed.

Lemma lookup_app_other (k k' : string) (v : JsValue) (props : t) :
  k <> k' -> lookup k (props ++ [(k', v)])%list = lookup k props.
Proof.
  intros Hne. induction props as [|[k0 v0] rest IH]; simpl.
  - destruct (String.eqb_spec k' k); [congruence | reflexivity].
  - destruct (k0 =? k); [reflexivity | exact IH].
Qed.

(** Defining a property leaves the others as they are. *)
Lemma lookup_define_other (k k' : string) (v : JsValue) (props : t) :
  k <> k' -> lookup k (define props (k', v)) = lookup k props.
Proof.
  intros Hne. unfold define.
  destruct (has_own k' props); [apply lookup_replace_other; exact Hne|].
  destruct (array_index k');
    [apply lookup_insert_index_other | apply lookup_app_other]; exact Hne.
Qed.







End PropsFacts.

(* ================================================================== *)
(** * The narrative and the stored mapping *)
(* ================================================================== *)

Lemma substring_length_le (n : nat) (s : string) :
  (String.length (substring 0 n s) <= n)%nat.
Proof.
  revert s. induction n as [|n IH]; intros s.
  - destruct s; simpl; lia.
  - destruct s as [|c s]; simpl; [lia|]. specialize (IH s). lia.
Qed.

(** The narrative the handler computes has at most 1500 code units. *)
Lemma narrative_of_length (v : JsValue) :
  (String.length (narrative_of v) <= 1500)%nat.
Proof.
  unfold narrative_of. destruct (typeof v =? "string").
  - apply substring_length_le.
  - simpl. lia.
Qed.

(** Only a string is kept. *)
Lemma narrative_of_not_string (v : JsValue) :
  (forall s, v <> JStr s) -> narrative_of v = "".
Proof.
  intros H. destruct v; try reflexivity. exfalso. apply (H s). reflexivity.
Qed.


(** C2 (the code at the failing input).  The claim bounds the stored
    narrative by 1500 characters.  For a reply whose [laws] has an entry
    [narrative] of 1501 characters, the computed narrative is [ok], but
    the spread [{ narrative, ...laws }] copies the entry of [laws] over
    it: the stored mapping holds the 1501 characters under [narrative],
    and the report page shows them. *)
Theorem stored_narrative_exceeds_limit :
  (forall host : Host,
      exists s, sanitize host reply_long_narrative_in_laws = Return s /\
                s_narrative s = "ok" /\
                Get (s_lawsToStore s) "narrative" = JStr long_text) /\
  String.length long_text = 1501%nat /\
  (exists resp row view,
      POST (scriptedHost "(the reply)" (Some reply_long_narrative_in_laws))
           testEnv testRequest [] = (resp, [row]) /\
      Results.ResultsPage [row] (id row) = Return (Results.ReportPage view) /\
      Results.view_narrative view = long_text).
Proof.
  split; [|split].
  - intros host. eexists. split; [reflexivity|]. split; [reflexivity|].
    vm_compute. reflexivity.
  - vm_compute. reflexivity.
  - eexists. eexists. eexists. split; [vm_compute; reflexivity|].
    split; vm_compute; reflexivity.
Qed.

(** C3 (the code at the failing input).  The claim has the sanitized
    narrative stored under the reserved key.  For a reply whose [laws]
    has an entry [narrative] of its own, here the number 7, the stored
    mapping holds that entry under [narrative] and the sanitized
    narrative [Summary] is stored nowhere. *)
Theorem stored_narrative_overwritten :
  forall host : Host,
    exists s, sanitize host reply_number_narrative_in_laws = Return s /\
              s_narrative s = "Summary" /\
              s_lawsToStore s =
                JObj [("narrative", JNum (Fin 7));
                      ("hicks", JObj [("title", JStr "Hick's Law");
                                      ("severity", JStr "Low")])].
Proof.
  intros host. eexists. split; [reflexivity|]. split; reflexivity.
Qed.

(** The scenario of the specification: score 150, four top fixes, no
    laws. *)
Example scenario_score_150 (host : Host) :
  sanitize host (JObj [("score", JNum (Fin 150));
                    ("topFixes", JArr [JStr "a"; JStr "b"; JStr "c"; JStr "d"]);
                    ("narrative", JStr "...")])
  = Return {| s_score := Fin 100;
              s_topFixes := JArr [JStr "a"; JStr "b"; JStr "c"];
              s_narrative := "...";
              s_laws := JObj [];
              s_lawsToStore := JObj [("narrative", JStr "...")] |}.
Proof. reflexivity. Qed.

(** The same scenario through [POST]: the row that is written. *)
Example scenario_score_150_row :
  exists resp row,
    POST (scriptedHost "(the reply)"
            (Some (JObj [("score", JNum (Fin 150));
                         ("topFixes", JArr [JStr "a"; JStr "b"; JStr "c"; JStr "d"]);
                         ("narrative", JStr "...")])))
         testEnv testRequest [] = (resp, [row]) /\
    status resp = 200%Z /\
    score row = Fin 100 /\
    topFixes row = JArr [JStr "a"; JStr "b"; JStr "c"] /\
    laws row = JObj [("narrative", JStr "...")].
Proof.
  eexists. eexists. split; [vm_compute; reflexivity|].
  repeat split; reflexivity.
Qed.

(** The laws are kept when they are an object (an array is one), and
    are the empty object otherwise. *)
Lemma laws_of_cases (v : JsValue) :
  match v with
  | JObj _ | JArr _ => laws_of v = v
  | _ => laws_of v = JObj []
  end.
Proof.
  destruct v; unfold laws_of; try reflexivity;
    match goal with |- context [truthy ?x] => destruct (truthy x) end; reflexivity.
Qed.

(* ================================================================== *)
(** * The guards of the endpoint *)
(* ================================================================== *)

Lemma Qle_bool_inject_Z (x y : Z) :
  Qle_bool (inject_Z x) (inject_Z y) = (x <=? y)%Z.
Proof. unfold Qle_bool, inject_Z; simpl. now rewrite !Z.mul_1_r. Qed.

Lemma Length_gtb (s : string) (m : Z) :
  Num.gtb (Length (JStr s)) (Num.of_Z m) = (m <? Z.of_nat (String.length s))%Z.
Proof.
  unfold Length, Num.of_Z, Num.gtb, Num.leb. rewrite Qle_bool_inject_Z.
  rewrite Z.ltb_antisym. reflexivity.
Qed.

Lemma prefix_nonempty (p s : string) :
  p <> "" -> prefix p s = true -> s <> "".
Proof. intros Hp H ->. destruct p; [congruence | discriminate]. Qed.

Section Guards.

Context (host : Host) (env : Env) (st : Store).

Lemma POST_no_key (req_json : Outcome JsValue) :
  env_set (OPENAI_API_KEY env) = false ->
  POST host env req_json st = (error_response "Missing OPENAI_API_KEY in .env" 500, st).
Proof. intros H. unfold POST, POST_try. rewrite H. reflexivity. Qed.

Lemma POST_body_unreadable (err : JsValue) :
  env_set (OPENAI_API_KEY env) = true ->
  POST host env (Throw err) st =
    (NextResponse_json
       (JObj [("error", Or (OptGet err "message") (JStr "Internal server error"))])
       500, st).
Proof. intros H. unfold POST, POST_try. rewrite H. reflexivity. Qed.

Lemma POST_missing (body : JsValue) :
  env_set (OPENAI_API_KEY env) = true ->
  truthy (OptGet body "imageDataUrl") = false ->
  POST host env (Return body) st =
    (error_response "Missing screenshot upload (imageDataUrl)" 400, st).
Proof.
  intros Hk Hm. unfold POST, POST_try. rewrite Hk. cbn [negb bind].
  rewrite Hm. reflexivity.
Qed.

Lemma POST_not_image (body : JsValue) (s : string) :
  env_set (OPENAI_API_KEY env) = true ->
  OptGet body "imageDataUrl" = JStr s ->
  prefix "data:image/" s = false ->
  POST host env (Return body) st =
    (error_response "Missing screenshot upload (imageDataUrl)" 400, st).
Proof.
  intros Hk Hs Hp. unfold POST, POST_try. rewrite Hk. cbn [negb bind].
  rewrite Hs. destruct (truthy (JStr s)); cbn [negb bind String_startsWith];
    [rewrite Hp|]; reflexivity.
Qed.

Lemma POST_too_large (body : JsValue) (s : string) :
  env_set (OPENAI_API_KEY env) = true ->
  OptGet body "imageDataUrl" = JStr s ->
  prefix "data:image/" s = true ->
  (MAX_IMAGE_DATAURL_CHARS < Z.of_nat (String.length s))%Z ->
  POST host env (Return body) st =
    (error_response
       "Screenshot is too large. Upload a smaller image (or compress it) and try again."
       413, st).
Proof.
  intros Hk Hs Hp Hlen. unfold POST, POST_try. rewrite Hk. cbn [negb bind].
  rewrite Hs.
  assert (Ht : truthy (JStr s) = true).
  { unfold truthy. apply prefix_nonempty in Hp; [|discriminate].
    destruct (String.eqb_spec s ""); [congruence | reflexivity]. }
  rewrite Ht. cbn [negb bind String_startsWith]. rewrite Hp. cbn [negb].
  rewrite Length_gtb. apply Z.ltb_lt in Hlen. rewrite Hlen. reflexivity.
Qed.

(** A value that is neither missing nor a string has no [startsWith]:
    the call throws and the answer is 500. *)
Lemma POST_not_a_string (body : JsValue) :
  env_set (OPENAI_API_KEY env) = true ->
  truthy (OptGet body "imageDataUrl") = true ->
  (forall s, OptGet body "imageDataUrl" <> JStr s) ->
  POST host env (Return body) st =
    (error_response "body.imageDataUrl.startsWith is not a function" 500, st).
Proof.
  intros Hk Ht Hs. unfold POST, POST_try. rewrite Hk. cbn [negb bind].
  rewrite Ht. cbn [negb].
  destruct (OptGet body "imageDataUrl") eqn:E; try reflexivity.
  exfalso. apply (Hs s). reflexivity.
Qed.

(** A payload that passes the three guards is analyzed. *)
Lemma POST_try_accepted (body : JsValue) (url : string) :
  env_set (OPENAI_API_KEY env) = true ->
  OptGet body "imageDataUrl" = JStr url ->
  prefix "data:image/" url = true ->
  (Z.of_nat (String.length url) <= MAX_IMAGE_DATAURL_CHARS)%Z ->
  POST_try host env (Return body) st = analyze host env url st.
Proof.
  intros Hk Hs Hp Hlen. unfold POST_try. rewrite Hk. cbn [negb bind].
  rewrite Hs.
  assert (Ht : truthy (JStr url) = true).
  { unfold truthy. apply prefix_nonempty in Hp; [|discriminate].
    destruct (String.eqb_spec url ""); [congruence | reflexivity]. }
  rewrite Ht. cbn [negb bind String_startsWith]. rewrite Hp. cbn [negb].
  rewrite Length_gtb.
  destruct (Z.ltb_spec MAX_IMAGE_DATAURL_CHARS (Z.of_nat (String.length url)));
    [lia | reflexivity].
Qed.

End Guards.

(** C5 (counterexample).  A payload whose [imageDataUrl] is the number 5
    is answered with status 500, not 400: [startsWith] is not a method
    of a number, the call throws, and the [catch] answers. *)
Lemma number_payload_is_answered_500 :
  POST exactHost testEnv (Return (JObj [("imageDataUrl", JNum (Fin 5))])) [] =
    (error_response "body.imageDataUrl.startsWith is not a function" 500, []).
Proof. reflexivity. Qed.

(** C5 (amended).  The guards answer in order: without a model key, status 500;
    with a key and a payload whose [imageDataUrl] is missing (absent,
    [null], empty) or is a string that does not start with
    [data:image/], status 400; with a key and an image data URL of more
    than 2,000,000 characters, status 413.  Each answer carries a
    message under [error].  The table is left as it was. *)
Theorem POST_guards_in_order (host : Host) (env : Env) (req_json : Outcome JsValue)
    (st : Store) :
  (env_set (OPENAI_API_KEY env) = false ->
   POST host env req_json st =
     (error_response "Missing OPENAI_API_KEY in .env" 500, st)) /\
  (env_set (OPENAI_API_KEY env) = true ->
   forall body, req_json = Return body ->
     (truthy (OptGet body "imageDataUrl") = false \/
      exists s, OptGet body "imageDataUrl" = JStr s /\
                prefix "data:image/" s = false) ->
     POST host env req_json st =
       (error_response "Missing screenshot upload (imageDataUrl)" 400, st)) /\
  (env_set (OPENAI_API_KEY env) = true ->
   forall body s, req_json = Return body ->
     OptGet body "imageDataUrl" = JStr s ->
     prefix "data:image/" s = true ->
     (MAX_IMAGE_DATAURL_CHARS < Z.of_nat (String.length s))%Z ->
     POST host env req_json st =
       (error_response
          "Screenshot is too large. Upload a smaller image (or compress it) and try again."
          413, st)).
Proof.
  split; [|split].
  - apply POST_no_key.
  - intros Hk body -> [Hm | (s & Hs & Hp)].
    + apply POST_missing; assumption.
    + apply POST_not_image with s; assumption.
  - intros Hk body s -> Hs Hp Hlen. apply POST_too_large with s; assumption.
Qed.

(** C5 (witness): no key; no [imageDataUrl]; a URL that is no data URL;
    a data URL of 2,000,011 characters. *)
Lemma POST_guards_in_order_witness :
  POST exactHost {| OPENAI_API_KEY := None; UX_SYSTEM_PROMPT := None |}
       testRequest [] =
    (error_response "Missing OPENAI_API_KEY in .env" 500, []) /\
  POST exactHost testEnv (Return (JObj [("image", JStr "data:image/png;base64,AA")])) [] =
    (error_response "Missing screenshot upload (imageDataUrl)" 400, []) /\
  POST exactHost testEnv (Return (JObj [("imageDataUrl", JStr "https://example.com/a.png")])) [] =
    (error_response "Missing screenshot upload (imageDataUrl)" 400, []) /\
  POST exactHost testEnv (Return (JObj [("imageDataUrl", JStr huge_url)])) [] =
    (error_response
       "Screenshot is too large. Upload a smaller image (or compress it) and try again."
       413, []).
Proof.
  split; [|split; [|split]].
  - destruct (POST_guards_in_order exactHost
                {| OPENAI_API_KEY := None; UX_SYSTEM_PROMPT := None |}
                testRequest []) as (H & _ & _).
    apply H. reflexivity.
  - destruct (POST_guards_in_order exactHost testEnv
                (Return (JObj [("image", JStr "data:image/png;base64,AA")])) [])
      as (_ & H & _).
    eapply H; [reflexivity | reflexivity | left; reflexivity].
  - destruct (POST_guards_in_order exactHost testEnv
                (Return (JObj [("imageDataUrl", JStr "https://example.com/a.png")])) [])
      as (_ & H & _).
    eapply H; [reflexivity | reflexivity |].
    right. eexists. split; reflexivity.
  - destruct (POST_guards_in_order exactHost testEnv
                (Return (JObj [("imageDataUrl", JStr huge_url)])) [])
      as (_ & _ & H).
    apply (H eq_refl _ huge_url eq_refl eq_refl);
      vm_compute; reflexivity.
Defined.

(* ================================================================== *)
(** * A row is written last *)
(* ================================================================== *)

Lemma truthy_Or_message (a : JsValue) (m : string) :
  m <> "" -> truthy (Or a (JStr m)) = true.
Proof.
  intros Hm. unfold Or. destruct (truthy a) eqn:E; [exact E|].
  simpl. destruct (String.eqb_spec m ""); [congruence | reflexivity].
Qed.

Lemma is_error_response (m : string) (st : Z) :
  m <> "" -> st <> 200%Z -> is_error (error_response m st).
Proof.
  intros Hm Hst. split; [exact Hst|]. simpl.
  destruct (String.eqb_spec m ""); [congruence | reflexivity].
Qed.

Section Written.

Context (host : Host).

Lemma prisma_report_create_Return (st st' : Store) (d : ReportData) (report : Report) :
  prisma_report_create host st d = Return (report, st') ->
  st' = (st ++ [report])%list /\
  prisma_report_findUnique st (id report) = None /\
  imageDataUrl report = d_imageDataUrl d /\
  goal report = d_goal d /\
  navItems report = d_navItems d /\
  ctaCount report = d_ctaCount d /\
  formFields report = d_formFields d /\
  score report = d_score d /\
  topFixes report = d_topFixes d /\
  laws report = d_laws d.
Proof.
  unfold prisma_report_create.
  destruct (create_rejects host d); [discriminate|].
  destruct (existsb _ st) eqn:E; [discriminate|].
  intros H. inversion H; subst; clear H. cbn.
  split; [reflexivity|]. split; [|repeat split].
  unfold prisma_report_findUnique. cbn in E.
  destruct (find _ st) as [r|] eqn:F; [|reflexivity].
  apply find_some in F as [Hin Heq].
  assert (existsb (fun r' => id r' =? new_id host st) st = true)
    by (apply existsb_exists; exists r; split; assumption).
  congruence.
Qed.

(** What [analyze] returns: an error and the table as it was, or the
    identifier of a row appended after the reply has been parsed and
    sanitized. *)
Lemma analyze_Return (env : Env) (url : string) (st st' : Store) (resp : Response) :
  analyze host env url st = Return (resp, st') ->
  (st' = st /\ is_error resp) \/
  (exists completion raw parsed s report,
      chat_completions_create host (chat_request host env url) = Return completion /\
      reply_text completion = Return raw /\
      truthy raw = true /\
      JSON_parse host (string_of raw) = Some parsed /\
      sanitize host parsed = Return s /\
      prisma_report_create host st (report_data url s) = Return (report, st') /\
      resp = NextResponse_json (JObj [("reportId", JStr (id report))]) 200).
Proof.
  unfold analyze.
  destruct (chat_completions_create host _) as [completion|e] eqn:Hc; cbn [bind];
    [|discriminate].
  destruct (reply_text completion) as [raw|e] eqn:Hr; cbn [bind]; [|discriminate].
  destruct (truthy raw) eqn:Ht; cbn [negb].
  - destruct (JSON_parse host (string_of raw)) as [parsed|] eqn:Hp.
    + destruct (sanitize host parsed) as [s|e] eqn:Hs; cbn [bind]; [|discriminate].
      destruct (prisma_report_create host st (report_data url s)) as [[report st'']|e]
        eqn:Hcr; cbn [bind]; [|discriminate].
      intros H. inversion H; subst; clear H. right.
      exists completion, raw, parsed, s, report. repeat split; assumption.
    + intros H. inversion H; subst; clear H. left. split; [reflexivity|].
      split; [discriminate | reflexivity].
  - intros H. inversion H; subst; clear H. left. split; [reflexivity|].
    apply is_error_response; discriminate.
Qed.

Lemma POST_try_Return (env : Env) (req_json : Outcome JsValue) (st st' : Store)
    (resp : Response) :
  POST_try host env req_json st = Return (resp, st') ->
  (st' = st /\ is_error resp) \/
  (exists url, accepted env req_json url /\
               analyze host env url st = Return (resp, st')).
Proof.
  unfold POST_try.
  destruct (env_set (OPENAI_API_KEY env)) eqn:Hk; cbn [negb].
  2:{ intros H. inversion H; subst. left. split; [reflexivity|].
      split; [discriminate | reflexivity]. }
  destruct req_json as [body|e]; cbn [bind]; [|discriminate].
  destruct (truthy (OptGet body "imageDataUrl")) eqn:Ht; cbn [negb bind].
  2:{ intros H. inversion H; subst. left. split; [reflexivity|].
      split; [discriminate | reflexivity]. }
  destruct (OptGet body "imageDataUrl") as [| | | |url| |] eqn:Hu;
    cbn [String_startsWith bind]; try discriminate.
  destruct (prefix "data:image/" url) eqn:Hp; cbn [negb].
  2:{ intros H. inversion H; subst. left. split; [reflexivity|].
      split; [discriminate | reflexivity]. }
  rewrite Length_gtb.
  destruct (Z.ltb_spec MAX_IMAGE_DATAURL_CHARS (Z.of_nat (String.length url))) as [Hl|Hl].
  { intros H. inversion H; subst. left. split; [reflexivity|].
    split; [discriminate | reflexivity]. }
  cbn [string_of]. intros H. right. exists url. split; [|exact H].
  split; [exact Hk|]. exists body. repeat split; assumption.
Qed.

(** Every run of [POST]: an error and the table as it was, or status
    200 and one row appended, built from the sanitized reply. *)
Lemma POST_outcome (env : Env) (req_json : Outcome JsValue) (st st' : Store)
    (resp : Response) :
  POST host env req_json st = (resp, st') ->
  (st' = st /\ is_error resp) \/
  (exists url completion raw parsed s report,
      accepted env req_json url /\
      chat_completions_create host (chat_request host env url) = Return completion /\
      reply_text completion = Return raw /\
      truthy raw = true /\
      JSON_parse host (string_of raw) = Some parsed /\
      sanitize host parsed = Return s /\
      prisma_report_findUnique st (id report) = None /\
      st' = (st ++ [report])%list /\
      row_of url s report /\
      resp = NextResponse_json (JObj [("reportId", JStr (id report))]) 200).
Proof.
  unfold POST. destruct (POST_try host env req_json st) as [[resp0 st0]|e] eqn:Htry.
  - intros H. inversion H; subst; clear H.
    apply POST_try_Return in Htry as [Herr | (url & Hacc & Han)]; [left; exact Herr|].
    apply analyze_Return in Han
      as [Herr | (completion & raw & parsed & s & report & Hc & Hr & Ht & Hp & Hs & Hcr & ->)];
      [left; exact Herr|].
    right. exists url, completion, raw, parsed, s, report.
    apply prisma_report_create_Return in Hcr
      as (-> & Hfresh & H1 & H2 & H3 & H4 & H5 & H6 & H7 & H8).
    cbn [report_data d_imageDataUrl d_goal d_navItems d_ctaCount d_formFields
         d_score d_topFixes d_laws] in H1, H2, H3, H4, H5, H6, H7, H8.
    unfold row_of. split; [exact Hacc|]. repeat split; assumption.
  - intros H. inversion H; subst; clear H. left. split; [reflexivity|].
    split; [discriminate|]. cbn. apply truthy_Or_message. discriminate.
Qed.

Lemma POST_accepted (env : Env) (req_json : Outcome JsValue) (st : Store) (url : string) :
  accepted env req_json url ->
  POST host env req_json st =
    match analyze host env url st with
    | Return out => out
    | Throw err =>
        (NextResponse_json
           (JObj [("error", Or (OptGet err "message") (JStr "Internal server error"))])
           500, st)
    end.
Proof.
  intros (Hk & body & -> & Hu & Hp & Hl). unfold POST.
  rewrite (POST_try_accepted host env st body url Hk Hu Hp Hl). reflexivity.
Qed.

End Written.

(** C4.  A run of [POST] writes a row only after the reply of the model
    has been parsed and sanitized: if the table has changed, the payload
    passed the guards, the trimmed reply parsed, the parsed reply was
    sanitized, and the one new row holds the sanitized fields.  A
    request that fails the guards leaves the table as it was and is
    answered with an error; so does an empty reply (status 500); so
    does a reply that is not JSON, with status 500 and the trimmed text
    of the reply under [raw]. *)
Theorem report_written_only_after_sanitized_reply
    (host : Host) (env : Env) (req_json : Outcome JsValue) (st st' : Store)
    (resp : Response) :
  POST host env req_json st = (resp, st') ->
  (st' <> st ->
   exists url completion raw parsed s report,
     accepted env req_json url /\
     chat_completions_create host (chat_request host env url) = Return completion /\
     reply_text completion = Return raw /\
     JSON_parse host (string_of raw) = Some parsed /\
     sanitize host parsed = Return s /\
     st' = (st ++ [report])%list /\
     row_of url s report /\
     status resp = 200%Z) /\
  ((forall url, ~ accepted env req_json url) -> st' = st /\ is_error resp) /\
  (forall url completion raw,
      accepted env req_json url ->
      chat_completions_create host (chat_request host env url) = Return completion ->
      reply_text completion = Return raw ->
      (truthy raw = false ->
       st' = st /\ resp = error_response "Model returned empty response" 500) /\
      (truthy raw = true -> JSON_parse host (string_of raw) = None ->
       st' = st /\
       resp = NextResponse_json
                (JObj [("error", JStr "Model did not return valid JSON");
                       ("raw", raw)]) 500)).
Proof.
  intros HP. split; [|split].
  - intros Hne. apply POST_outcome in HP
      as [[Heq _] | (url & completion & raw & parsed & s & report &
                     Hacc & Hc & Hr & Ht & Hp & Hs & _ & Hst & Hrow & ->)];
      [congruence|].
    exists url, completion, raw, parsed, s, report. repeat split; try assumption;
      apply Hacc || apply Hrow.
  - intros Hno. apply POST_outcome in HP
      as [Herr | (url & _ & _ & _ & _ & _ & Hacc & _)]; [exact Herr|].
    exfalso. exact (Hno url Hacc).
  - intros url completion raw Hacc Hc Hr.
    rewrite (POST_accepted host env req_json st url Hacc) in HP.
    unfold analyze in HP. rewrite Hc in HP. cbn [bind] in HP.
    rewrite Hr in HP. cbn [bind] in HP.
    split.
    + intros Ht. rewrite Ht in HP. cbn [negb] in HP.
      inversion HP; subst. split; reflexivity.
    + intros Ht Hp. rewrite Ht, Hp in HP. cbn [negb] in HP.
      inversion HP; subst. split; reflexivity.
Qed.

(** C4 (witness): the model answers text that is not JSON. *)
Lemma report_written_only_after_sanitized_reply_witness :
  snd (POST refusingHost testEnv testRequest []) = [] /\
  fst (POST refusingHost testEnv testRequest []) =
    NextResponse_json
      (JObj [("error", JStr "Model did not return valid JSON");
             ("raw", JStr "I am not JSON")]) 500.
Proof.
  destruct (report_written_only_after_sanitized_reply
              refusingHost testEnv testRequest []
              (snd (POST refusingHost testEnv testRequest []))
              (fst (POST refusingHost testEnv testRequest []))
              (surjective_pairing _)) as (_ & _ & H).
  apply (H "data:image/jpeg;base64,AAAA"
           (JObj [("choices",
                   JArr [JObj [("message", JObj [("content", JStr " I am not JSON ")])]])])
           (JStr "I am not JSON")).
  - split; [reflexivity|]. eexists. split; [reflexivity|].
    split; [reflexivity|]. split; [reflexivity|]. vm_compute. discriminate.
  - reflexivity.
  - reflexivity.
  - reflexivity.
  - reflexivity.
Defined.

(* ================================================================== *)
(** * The in-flight flag of the submitters *)
(* ================================================================== *)

(** C6 (counterexample).  On a success response the home page and the
    upload button navigate and leave the flag set. *)
Lemma flag_stays_set_on_success :
  isRunning (HomePage_analyze exactHost okResponse idleClient) = true /\
  isRunning (UploadButton_runAnalysis exactHost okResponse idleClient) = true.
Proof. split; reflexivity. Qed.

Section Flag.

Context (host : Host).

Lemma AnalyzePage_clears (net : FetchResult) (c : Client) :
  truthy (imagePreview c) = true -> isRunning c = false ->
  isRunning (AnalyzePage_runAnalysis host net c) = false.
Proof.
  intros Hi Hr. unfold AnalyzePage_runAnalysis. rewrite Hi, Hr. reflexivity.
Qed.

(** The [try] of the home page and of the upload button ends in one of
    two ways. *)
Lemma not_succeeds_cases (net : FetchResult) :
  (forall url, ~ succeeds host net url) ->
  (exists err, fetch_json net = Throw err) \/
  (exists data, fetch_json net = Return (false, data)) \/
  (exists data err, fetch_json net = Return (true, data) /\
                    results_url host data = Throw err).
Proof.
  intros Hno. destruct net as [err|ok [data|err]]; cbn.
  - left. eexists. reflexivity.
  - destruct ok.
    + destruct (results_url host data) as [url|err] eqn:Hu.
      * exfalso. apply (Hno url). exists data. split; [reflexivity | exact Hu].
      * right. right. exists data, err. split; [reflexivity | exact Hu].
    + right. left. eexists. reflexivity.
  - left. eexists. reflexivity.
Qed.

Lemma HomePage_clears_unless_success (net : FetchResult) (c : Client) :
  truthy (imagePreview c) = true -> isRunning c = false ->
  (forall url, ~ succeeds host net url) ->
  isRunning (HomePage_analyze host net c) = false.
Proof.
  intros Hi Hr Hno. unfold HomePage_analyze. rewrite Hi, Hr. cbn [negb andb].
  destruct (not_succeeds_cases net Hno)
    as [(err & ->) | [(data & ->) | (data & err & -> & Hu)]]; cbn [bind negb].
  - reflexivity.
  - reflexivity.
  - rewrite Hu. reflexivity.
Qed.

Lemma HomePage_keeps_on_success (net : FetchResult) (c : Client) (url : string) :
  truthy (imagePreview c) = true -> isRunning c = false ->
  succeeds host net url ->
  isRunning (HomePage_analyze host net c) = true /\
  location (HomePage_analyze host net c) = Some url.
Proof.
  intros Hi Hr (data & -> & Hu). unfold HomePage_analyze. rewrite Hi, Hr.
  cbn [negb andb fetch_json bind]. rewrite Hu. split; reflexivity.
Qed.

Lemma UploadButton_clears_unless_success (net : FetchResult) (c : Client) :
  (forall url, ~ succeeds host net url) ->
  isRunning (UploadButton_runAnalysis host net c) = false.
Proof.
  intros Hno. unfold UploadButton_runAnalysis.
  destruct (not_succeeds_cases net Hno)
    as [(err & ->) | [(data & ->) | (data & err & -> & Hu)]]; cbn [bind negb].
  - reflexivity.
  - reflexivity.
  - rewrite Hu. reflexivity.
Qed.

Lemma UploadButton_keeps_on_success (net : FetchResult) (c : Client) (url : string) :
  succeeds host net url ->
  isRunning (UploadButton_runAnalysis host net c) = true /\
  location (UploadButton_runAnalysis host net c) = Some url.
Proof.
  intros (data & -> & Hu). unfold UploadButton_runAnalysis.
  cbn [fetch_json bind negb]. rewrite Hu. split; reflexivity.
Qed.

End Flag.

(** C6 (amended).  A request that the analyze page starts (an image is
    there, no request is in flight) ends with the flag cleared on every
    exit path.  A request that the home page or the upload button starts
    ends with the flag cleared unless it succeeds; when it succeeds the
    page navigates to the report and the flag stays set. *)
Theorem in_flight_flag_after_request
    (host : Host) (net : FetchResult) (c : Client) :
  truthy (imagePreview c) = true ->
  isRunning c = false ->
  isRunning (AnalyzePage_runAnalysis host net c) = false /\
  ((forall url, ~ succeeds host net url) ->
   isRunning (HomePage_analyze host net c) = false /\
   isRunning (UploadButton_runAnalysis host net c) = false) /\
  (forall url, succeeds host net url ->
   (isRunning (HomePage_analyze host net c) = true /\
    location (HomePage_analyze host net c) = Some url) /\
   (isRunning (UploadButton_runAnalysis host net c) = true /\
    location (UploadButton_runAnalysis host net c) = Some url)).
Proof.
  intros Hi Hr. split; [|split].
  - apply AnalyzePage_clears; assumption.
  - intros Hno. split.
    + apply HomePage_clears_unless_success; assumption.
    + apply UploadButton_clears_unless_success; assumption.
  - intros url Hs. split.
    + apply HomePage_keeps_on_success; assumption.
    + apply UploadButton_keeps_on_success; assumption.
Qed.

(** C6 (witness): a success and a network failure on the analyze page,
    a non-success response on the home page. *)
Lemma in_flight_flag_after_request_witness :
  isRunning (AnalyzePage_runAnalysis exactHost okResponse idleClient) = false /\
  isRunning (AnalyzePage_runAnalysis exactHost
               (NetworkFailure (Error "Failed to fetch")) idleClient) = false /\
  isRunning (HomePage_analyze exactHost
               (Responded false (Return (JObj [("error", JStr "Model returned empty response")])))
               idleClient) = false.
Proof.
  split; [|split].
  - exact (proj1 (in_flight_flag_after_request exactHost okResponse idleClient
                    eq_refl eq_refl)).
  - exact (proj1 (in_flight_flag_after_request exactHost
                    (NetworkFailure (Error "Failed to fetch")) idleClient
                    eq_refl eq_refl)).
  - destruct (in_flight_flag_after_request exactHost
                (Responded false
                   (Return (JObj [("error", JStr "Model returned empty response")])))
                idleClient eq_refl eq_refl) as (_ & H & _).
    apply H. intros url (data & E & _). discriminate E.
Defined.

(* ================================================================== *)
(** * The report page *)
(* ================================================================== *)

(** A severity that is not a string takes the default branch as well. *)
Lemma severityStyle_not_string (sev : JsValue) :
  (forall s, sev <> JStr s) ->
  Results.severityStyle sev = LowStyle /\ BottomSheet.severityStyle sev = LowStyle.
Proof.
  intros H. destruct sev; try (split; reflexivity). exfalso. apply (H s). reflexivity.
Qed.

(** C10.  [severityStyle], in the report page and in the bottom sheet,
    is a total function, and every severity string other than High and
    Medium gets the styling of Low; a law finding with such a severity
    gets its card, with that styling. *)
Theorem severityStyle_falls_through_to_Low (s : string) :
  s <> "High" -> s <> "Medium" ->
  Results.severityStyle (JStr s) = LowStyle /\
  BottomSheet.severityStyle (JStr s) = LowStyle /\
  forall (key : string) (item : JsValue),
    nullish item = false ->
    Get item "severity" = JStr s ->
    exists card,
      Results.law_card (key, item) = Return card /\
      Results.card_key card = key /\
      Results.card_severity card = JStr s /\
      Results.card_tag card = LowStyle.
Proof.
  intros Hh Hm.
  assert (E : Results.severityStyle (JStr s) = LowStyle).
  { unfold Results.severityStyle.
    destruct (String.eqb_spec s "High"); [congruence|].
    destruct (String.eqb_spec s "Medium"); [congruence|]. reflexivity. }
  split; [exact E|]. split.
  - unfold BottomSheet.severityStyle.
    destruct (String.eqb_spec s "High"); [congruence|].
    destruct (String.eqb_spec s "Medium"); [congruence|]. reflexivity.
  - intros key item Hn Hs. unfold Results.law_card, GetProp. rewrite Hn, Hs.
    cbn [bind]. eexists. split; [reflexivity|]. cbn.
    split; [reflexivity|]. split; [reflexivity|]. exact E.
Qed.

(** C10 (witness): the severity Critical. *)
Lemma severityStyle_falls_through_to_Low_witness :
  Results.severityStyle (JStr "Critical") = LowStyle /\
  BottomSheet.severityStyle (JStr "Critical") = LowStyle.
Proof.
  destruct (severityStyle_falls_through_to_Low "Critical") as (H1 & H2 & _);
    [discriminate | discriminate |].
  split; [exact H1 | exact H2].
Defined.

Lemma top_fixes_list_array (a : list JsValue) :
  Results.top_fixes_list (JArr a) = Return (shown_fixes a).
Proof. destruct a; reflexivity. Qed.

(** The cards are built when no entry is [null] or [undefined]. *)
Lemma law_cards_Return (entries : Props.t) :
  (forall e, In e entries -> nullish (snd e) = false) ->
  exists cards, Results.law_cards entries = Return cards /\
                map Results.card_key cards = map fst entries.
Proof.
  induction entries as [|[k item] rest IH]; intros H.
  - exists []. split; reflexivity.
  - destruct IH as (cards & Hc & Hk); [intros e He; apply H; right; exact He|].
    assert (Hn : nullish item = false) by (apply (H (k, item)); left; reflexivity).
    cbn [Results.law_cards Results.law_card]. unfold GetProp. rewrite Hn.
    cbn [bind]. rewrite Hc. cbn [bind]. eexists. split; [reflexivity|].
    cbn. now rewrite Hk.
Qed.

(** With no entry [null] or [undefined], the cards are those of the
    entries. *)
Lemma law_cards_shown (entries : Props.t) :
  (forall e, In e entries -> nullish (snd e) = false) ->
  Results.law_cards entries = Return (map card_shown entries).
Proof.
  induction entries as [|[k item] rest IH]; intros H.
  - reflexivity.
  - assert (Hn : nullish item = false) by (apply (H (k, item)); left; reflexivity).
    cbn [Results.law_cards Results.law_card]. unfold GetProp. rewrite Hn.
    cbn [bind]. rewrite IH by (intros e He; apply H; right; exact He).
    reflexivity.
Qed.

(** What React is handed for these fixes and these cards. *)
Lemma children_shown (image : string) (n : number) (narrative : string)
    (a : list JsValue) (entries : Props.t) :
  forallb Results.React_child
    (Results.children {| Results.view_image := image;
                         Results.view_score := n;
                         Results.view_narrative := narrative;
                         Results.view_topFixes := shown_fixes a;
                         Results.view_laws := map card_shown entries |}) =
  can_be_shown a entries.
Proof.
  unfold Results.children, can_be_shown.
  cbn [Results.view_score Results.view_narrative Results.view_topFixes
       Results.view_laws forallb Results.React_child andb].
  rewrite forallb_app. f_equal.
  - destruct a; reflexivity.
  - induction entries as [|e rest IH]; [reflexivity|].
    cbn [map flat_map app forallb card_shown Results.card_title
         Results.card_severity Results.card_finding].
    rewrite IH, !andb_assoc. reflexivity.
Qed.

(** The page of a report that is found, whose top fixes are an array
    and whose first three law entries are not [null] or [undefined]. *)
Lemma ResultsPage_found (st : Store) (i : string) (report : Report) (a : list JsValue) :
  prisma_report_findUnique st i = Some report ->
  topFixes report = JArr a ->
  (forall e,
      In e (firstn 3 (Results.law_entries (Coalesce (laws report) (JObj [])))) ->
      nullish (snd e) = false) ->
  Results.ResultsPage st i =
    Results.render
      {| Results.view_image := imageDataUrl report;
         Results.view_score := score report;
         Results.view_narrative :=
           Results.narrative_shown (Coalesce (laws report) (JObj []));
         Results.view_topFixes := shown_fixes a;
         Results.view_laws :=
           map card_shown
               (firstn 3 (Results.law_entries (Coalesce (laws report) (JObj [])))) |}.
Proof.
  intros Hf Ht Hl. unfold Results.ResultsPage. rewrite Hf, Ht.
  cbn [Coalesce nullish]. rewrite top_fixes_list_array. cbn [bind].
  rewrite (law_cards_shown _ Hl). reflexivity.
Qed.

(** C9 (counterexample).  The endpoint stores the reply
    [{"laws": {"hicks": null}}] with an empty list of top fixes; the
    page of that report reads [item.severity] of [null] and throws.  It
    stores the reply whose law has an object for its title as well, no
    entry of which is [null]; the page of that report hands the title
    to React, and the render throws. *)
Lemma page_throws_without_top_fixes :
  (exists resp row,
      POST (scriptedHost "(the reply)" (Some reply_null_law)) testEnv testRequest []
        = (resp, [row]) /\
      topFixes row = JArr [] /\
      Results.ResultsPage [row] (id row) =
        Throw (TypeError "Cannot read properties of null (reading 'severity')")) /\
  (exists resp row,
      POST (scriptedHost "(the reply)" (Some reply_object_title)) testEnv testRequest []
        = (resp, [row]) /\
      topFixes row = JArr [] /\
      (forall e,
          In e (firstn 3 (Results.law_entries (Coalesce (laws row) (JObj [])))) ->
          nullish (snd e) = false) /\
      Results.ResultsPage [row] (id row) =
        Throw (Error "Objects are not valid as a React child")).
Proof.
  split.
  - eexists. eexists. split; [vm_compute; reflexivity|].
    split; vm_compute; reflexivity.
  - eexists. eexists. split; [vm_compute; reflexivity|].
    split; [vm_compute; reflexivity|]. split; [|vm_compute; reflexivity].
    intros e He. vm_compute in He. destruct He as [<-|[]]. reflexivity.
Qed.

(** C9 (amended).  An identifier with no report gives the view "Report
    not found", and nothing is thrown.  A report whose stored list of
    top fixes is empty is rendered, and its list of top fixes is the
    placeholder "No major issues detected.", when its first three law
    entries are neither [null] nor [undefined] and none has an object
    for its title, its severity or its finding. *)
Theorem page_not_found_or_no_major_issues (st : Store) (i : string) :
  (prisma_report_findUnique st i = None ->
   Results.ResultsPage st i = Return Results.ReportNotFound) /\
  (forall report,
      prisma_report_findUnique st i = Some report ->
      topFixes report = JArr [] ->
      (forall e,
          In e (firstn 3 (Results.law_entries (Coalesce (laws report) (JObj [])))) ->
          nullish (snd e) = false) ->
      can_be_shown []
        (firstn 3 (Results.law_entries (Coalesce (laws report) (JObj [])))) = true ->
      exists view,
        Results.ResultsPage st i = Return (Results.ReportPage view) /\
        Results.view_topFixes view = Results.NoMajorIssues).
Proof.
  split.
  - intros H. unfold Results.ResultsPage. rewrite H. reflexivity.
  - intros report Hf Ht Hl Hshow.
    rewrite (ResultsPage_found st i report [] Hf Ht Hl).
    unfold Results.render. rewrite children_shown, Hshow.
    eexists. split; reflexivity.
Qed.

(** C9 (witness): a table of one report without top fixes. *)
Lemma page_not_found_or_no_major_issues_witness :
  Results.ResultsPage [emptyReport] "r2" = Return Results.ReportNotFound /\
  exists view,
    Results.ResultsPage [emptyReport] "r1" = Return (Results.ReportPage view) /\
    Results.view_topFixes view = Results.NoMajorIssues.
Proof.
  split.
  - apply (proj1 (page_not_found_or_no_major_issues [emptyReport] "r2")).
    reflexivity.
  - apply (proj2 (page_not_found_or_no_major_issues [emptyReport] "r1") emptyReport).
    + reflexivity.
    + reflexivity.
    + intros e He. vm_compute in He. destruct He as [<-|[]]. reflexivity.
    + reflexivity.
Defined.

(* ================================================================== *)
(** * From the endpoint to the report page *)
(* ================================================================== *)

Lemma find_app_new (st : Store) (report : Report) :
  prisma_report_findUnique st (id report) = None ->
  prisma_report_findUnique (st ++ [report])%list (id report) = Some report.
Proof.
  unfold prisma_report_findUnique. induction st as [|r st IH]; simpl.
  - intros _. now rewrite String.eqb_refl.
  - destruct (id r =? id report); [discriminate | exact IH].
Qed.


Lemma topFixes_of_array (v : JsValue) :
  exists a, topFixes_of v = JArr a /\ (List.length a <= 3)%nat /\
            (forall b, v = JArr b -> a = firstn 3 b) /\
            ((forall b, v <> JArr b) -> a = []).
Proof.
  destruct v as [| |b0|n|s|b|p];
    try (exists []; split; [reflexivity|]; split; [simpl; lia|];
         split; [intros b' E; discriminate E | reflexivity]).
  exists (firstn 3 b). split; [reflexivity|]. split; [apply firstn_le_length|].
  split; [intros b' E; inversion E; reflexivity|].
  intros H. exfalso. apply (H b). reflexivity.
Qed.




(* ================================================================== *)
(** * The canvas is never wider than 1200 pixels *)
(* ================================================================== *)

Lemma leb_Fin (p q : Q) : Num.leb (Fin p) (Fin q) = true <-> p <= q.
Proof. apply Qle_bool_iff. Qed.

Lemma ulp_rel_small : 0 <= ulp_rel /\ ulp_rel <= 1 # 10000.
Proof. split; apply Qle_bool_iff; vm_compute; reflexivity. Qed.

Lemma normal_range : min_normal <= 1 # 1000000000000 /\ 1201 <= max_normal.
Proof. split; apply Qle_bool_iff; vm_compute; reflexivity. Qed.

(** Rounding to the nearest integer does not pass an integer that the
    argument stays less than a half above. *)
Lemma Math_round_le (q : Q) (z : Z) :
  q < inject_Z z + (1 # 2) ->
  exists r, Math_round (Fin q) = Fin (inject_Z r) /\ (r <= z)%Z.
Proof.
  intros H. exists (Qfloor (q + (1 # 2))). split; [reflexivity|].
  assert (Hf := Qfloor_le (q + (1 # 2))).
  assert (Hlt : inject_Z (Qfloor (q + (1 # 2))) < inject_Z (z + 1)).
  { rewrite inject_Z_plus. apply Qle_lt_trans with (q + (1 # 2)); [exact Hf|].
    change (inject_Z 1) with 1. lra. }
  rewrite <- Zlt_Qlt in Hlt. lia.
Qed.

Lemma between_same (x : Q) (n : number) :
  Num.between x x n -> exists q, n = Fin q /\ q == x.
Proof.
  destruct n as [| | |q]; simpl; try contradiction. intros [H1 H2].
  exists q. split; [reflexivity | apply Qle_antisym; assumption].
Qed.

Section Canvas.

Context (host : Host) (Hfl : Binary64 (roundToDouble host)).

Lemma W_pos (width : N) : (0 < width)%N -> 0 < W width.
Proof.
  intros H. unfold W. change 0 with (inject_Z 0). rewrite <- Zlt_Qlt. lia.
Qed.

Lemma W_le (width : N) (z : Z) : (Z.of_N width <= z)%Z -> W width <= inject_Z z.
Proof. intros H. unfold W. rewrite <- Zle_Qle. exact H. Qed.

Lemma W_gt (width : N) (z : Z) : (z < Z.of_N width)%Z -> inject_Z z < W width.
Proof. intros H. unfold W. rewrite <- Zlt_Qlt. exact H. Qed.

(** The quotient [MAX_W / img.width] of a positive width. *)
Lemma quotient (width : N) :
  (0 < width)%N ->
  Num_div host (Fin 1200) (Num.of_N width) = roundToDouble host (1200 / W width) /\
  W width * (1200 / W width) == 1200.
Proof.
  intros Hpos. pose proof (W_pos width Hpos) as HW.
  assert (Hnz : ~ W width == 0) by lra.
  split; [|apply Qmult_div_r; exact Hnz].
  unfold Num_div, Num.of_N, Num.of_Z. fold (W width).
  destruct (Qeq_bool (W width) 0) eqn:E; [|reflexivity].
  apply Qeq_bool_eq in E. contradiction.
Qed.

Lemma one_is_a_number : exists q1, roundToDouble host 1 = Fin q1 /\ q1 == 1.
Proof.
  apply between_same. apply (fl_exact _ Hfl 1 1%Z); [reflexivity|].
  vm_compute. discriminate.
Qed.

(** An image at most 1200 pixels wide keeps its size. *)
Lemma img_onload_small (width height : N) :
  (width <= 1200)%N ->
  scale (img_onload host width height) = Fin 1 /\
  w (img_onload host width height) = Num.of_N width.
Proof.
  intros Hle.
  assert (Hscale : scale (img_onload host width height) = Fin 1).
  { cbn [img_onload scale]. destruct (N.eq_dec width 0) as [->|Hnz].
    - reflexivity.
    - destruct (quotient width) as [-> Hq]; [lia|].
      pose proof (W_pos width ltac:(lia)) as HW.
      pose proof (W_le width 1200 ltac:(lia)) as HW'.
      change (inject_Z 1200) with 1200 in HW'.
      set (x := 1200 / W width) in *. clearbody x.
      assert (Hx : 1 <= x) by nra.
      pose proof (fl_monotone _ Hfl _ _ Hx) as Hm.
      destruct one_is_a_number as (q1 & E1 & Hq1). rewrite E1 in Hm.
      destruct (roundToDouble host x) as [| | |y];
        try discriminate; [reflexivity|].
      apply leb_Fin in Hm. unfold Math_min, Num.leb.
      assert (Hy : Qle_bool 1 y = true) by (apply Qle_bool_iff; lra).
      rewrite Hy. reflexivity. }
  split; [exact Hscale|].
  cbn [img_onload scale] in Hscale. cbn [img_onload w]. rewrite Hscale.
  unfold Num_mul, Num.of_N, Num.of_Z at 1. fold (W width).
  assert (Hx : W width * 1 == inject_Z (Z.of_N width)) by (unfold W; ring).
  destruct (between_same _ _ (fl_exact _ Hfl _ _ Hx ltac:(lia))) as (q & -> & Hq).
  unfold Math_round, Num.of_Z. f_equal. f_equal.
  rewrite (Qfloor_comp (q + (1 # 2)) (inject_Z (Z.of_N width) + (1 # 2)))
    by (rewrite Hq, Hx; reflexivity).
  assert (H1 := Qfloor_le (inject_Z (Z.of_N width) + (1 # 2))).
  assert (H2 := Qlt_floor (inject_Z (Z.of_N width) + (1 # 2))).
  set (f := Qfloor (inject_Z (Z.of_N width) + (1 # 2))) in *.
  assert (Hlo : inject_Z (Z.of_N width) < inject_Z (f + 1)) by lra.
  assert (Hhi : inject_Z f < inject_Z (Z.of_N width + 1)).
  { rewrite inject_Z_plus. change (inject_Z 1) with 1. lra. }
  rewrite <- Zlt_Qlt in Hlo, Hhi. lia.
Qed.

(** A wider image is scaled down to at most 1200 pixels. *)
Lemma img_onload_large (width height : N) :
  (1200 < width)%N -> (width < 2 ^ 32)%N ->
  exists s r,
    scale (img_onload host width height) = Fin s /\ s <= 1 /\
    w (img_onload host width height) = Fin (inject_Z r) /\ (r <= 1200)%Z.
Proof.
  intros Hgt Hlt.
  pose proof (W_pos width ltac:(lia)) as HW.
  pose proof (W_gt width 1200 ltac:(lia)) as HW1.
  pose proof (W_le width (2 ^ 32) ltac:(lia)) as HW2.
  change (inject_Z 1200) with 1200 in HW1.
  change (inject_Z (2 ^ 32)) with 4294967296 in HW2.
  destruct ulp_rel_small as [Hu0 Hu1]. destruct normal_range as [Hn0 Hn1].
  destruct (quotient width) as [Ediv Hq]; [lia|].
  cbn [img_onload scale w]. rewrite Ediv.
  unfold Num.of_N, Num.of_Z. fold (W width).
  set (x := 1200 / W width) in *. clearbody x.
  set (Wq := W width) in *. clearbody Wq.
  set (u := ulp_rel) in *.
  assert (Hx0 : min_normal <= x) by nra.
  assert (Hx1 : x <= max_normal) by nra.
  pose proof (fl_error _ Hfl _ Hx0 Hx1) as Hb. fold u in Hb.
  destruct (roundToDouble host x) as [| | |y]; simpl in Hb; try contradiction.
  destruct Hb as [Hb0 Hb1].
  assert (Hs : exists s, Math_min (Fin 1) (Fin y) = Fin s /\ s <= 1 /\
                         1200 * (1 - u) <= Wq * s /\ Wq * s <= 1200 * (1 + u)).
  { unfold Math_min, Num.leb. destruct (Qle_bool 1 y) eqn:Ey.
    - apply Qle_bool_iff in Ey. exists 1. split; [reflexivity|].
      split; [lra|]. split; nra.
    - apply Qle_bool_false in Ey. exists y. split; [reflexivity|].
      split; [lra|]. split; nra. }
  destruct Hs as (s & -> & Hs1 & Hlo & Hhi).
  exists s. unfold Num_mul.
  assert (Hp0 : min_normal <= Wq * s) by nra.
  assert (Hp1 : Wq * s <= max_normal) by nra.
  pose proof (fl_error _ Hfl _ Hp0 Hp1) as Hb. fold u in Hb.
  destruct (roundToDouble host (Wq * s)) as [| | |p]; simpl in Hb; try contradiction.
  destruct Hb as [_ Hp].
  destruct (Math_round_le p 1200) as (r & Er & Hr).
  { change (inject_Z 1200) with 1200. set (t := Wq * s) in *. clearbody t. nra. }
  exists r. repeat split; assumption.
Qed.

End Canvas.

(** C8.  For an image of any width, [scale] is
    [Math.min(1, 1200 / img.width)], it is at most 1, and the width of
    the canvas is at most 1200 and at most the width of the image. *)
Theorem canvas_is_never_wider (host : Host) (width height : N) :
  Binary64 (roundToDouble host) ->
  (width < 2 ^ 32)%N ->
  scale (img_onload host width height) =
    Math_min (Fin 1) (Num_div host (Fin 1200) (Num.of_N width)) /\
  Num.leb (scale (img_onload host width height)) (Fin 1) = true /\
  Num.leb (w (img_onload host width height)) (Fin 1200) = true /\
  Num.leb (w (img_onload host width height)) (Num.of_N width) = true.
Proof.
  intros Hfl Hlt. split; [reflexivity|].
  destruct (N.le_gt_cases width 1200) as [Hle|Hgt].
  - destruct (img_onload_small host Hfl width height Hle) as [-> ->].
    split; [reflexivity|]. unfold Num.of_N, Num.of_Z.
    split; apply leb_Fin.
    + change 1200 with (inject_Z 1200). rewrite <- Zle_Qle. lia.
    + apply Qle_refl.
  - destruct (img_onload_large host Hfl width height Hgt Hlt)
      as (s & r & -> & Hs & -> & Hr).
    split; [apply leb_Fin; exact Hs|]. unfold Num.of_N, Num.of_Z.
    split; apply leb_Fin.
    + change 1200 with (inject_Z 1200). rewrite <- Zle_Qle. exact Hr.
    + rewrite <- Zle_Qle. lia.
Qed.

(** Exact arithmetic rounds as this development asks. *)
Lemma exact_rounding : Binary64 (roundToDouble exactHost).
Proof.
  destruct ulp_rel_small as [Hu0 _].
  assert (Hmin : 0 < min_normal) by (unfold min_normal; reflexivity).
  split; cbn [roundToDouble exactHost]; unfold Num.between, Num.leb.
  - intros x z _ _. rewrite Qred_correct. split; apply Qle_refl.
  - intros x y Hxy. apply Qle_bool_iff. now rewrite !Qred_correct.
  - intros x Hx _. rewrite Qred_correct.
    set (u := ulp_rel) in *. clearbody u. split; nra.
Qed.

(** C8 (witness): a screenshot 2400 pixels wide, in exact arithmetic. *)
Lemma canvas_is_never_wider_witness :
  scale (img_onload exactHost 2400 1000) =
    Math_min (Fin 1) (Num_div exactHost (Fin 1200) (Num.of_N 2400)) /\
  Num.leb (scale (img_onload exactHost 2400 1000)) (Fin 1) = true /\
  Num.leb (w (img_onload exactHost 2400 1000)) (Fin 1200) = true /\
  Num.leb (w (img_onload exactHost 2400 1000)) (Num.of_N 2400) = true.
Proof.
  exact (canvas_is_never_wider exactHost 2400 1000 exact_rounding eq_refl).
Defined.

(** A screenshot 2400 by 1000 is halved; one 800 by 600 keeps its size. *)
Example img_onload_2400 :
  img_onload exactHost 2400 1000 =
    {| scale := Fin (1 # 2); w := Fin 1200; h := Fin 500 |}.
Proof. vm_compute. reflexivity. Qed.

Example img_onload_800 :
  img_onload exactHost 800 600 = {| scale := Fin 1; w := Fin 800; h := Fin 600 |}.
Proof. vm_compute. reflexivity. Qed.

(* ================================================================== *)
(** * The answers of the endpoint *)
(* ================================================================== *)

Lemma find_app_old (st more : Store) (i : string) (r : Report) :
  prisma_report_findUnique st i = Some r ->
  prisma_report_findUnique (st ++ more)%list i = Some r.
Proof.
  unfold prisma_report_findUnique. induction st as [|r0 st IH]; simpl.
  - discriminate.
  - destruct (id r0 =? i); [trivial | exact IH].
Qed.

Section Answers.

Context (host : Host).

(** What the [try] after the guards answers: status 200 and one row
    more, or status 500 and the table as it was. *)
Lemma analyze_cases (env : Env) (url : string) (st st' : Store) (resp : Response) :
  analyze host env url st = Return (resp, st') ->
  (status resp = 200%Z /\
   exists report, st' = (st ++ [report])%list /\
                  body resp = JObj [("reportId", JStr (id report))]) \/
  (status resp = 500%Z /\ st' = st /\ truthy (Get (body resp) "error") = true).
Proof.
  intros H. pose proof H as H0. apply analyze_Return in H0
    as [[-> _] | (completion & raw & parsed & s & report & _ & _ & _ & _ & _ & Hcr & ->)].
  - right. revert H. unfold analyze.
    destruct (chat_completions_create host _) as [completion|e]; cbn [bind];
      [|discriminate].
    destruct (reply_text completion) as [raw|e]; cbn [bind]; [|discriminate].
    destruct (truthy raw); cbn [negb].
    + destruct (JSON_parse host (string_of raw)) as [parsed|].
      * destruct (sanitize host parsed) as [s|e]; cbn [bind]; [|discriminate].
        destruct (prisma_report_create host st (report_data url s)) as [[report st'']|e]
          eqn:Hcr; cbn [bind]; [|discriminate].
        intros H. inversion H; subst; clear H.
        apply prisma_report_create_Return in Hcr as (Hst & _).
        exfalso. apply (f_equal (@List.length Report)) in Hst.
        rewrite length_app in Hst. simpl in Hst. lia.
      * intros H. inversion H; subst. repeat split.
    + intros H. inversion H; subst. repeat split.
  - left. split; [reflexivity|]. exists report.
    apply prisma_report_create_Return in Hcr as (-> & _). split; reflexivity.
Qed.

Lemma POST_try_cases (env : Env) (req_json : Outcome JsValue) (st st' : Store)
    (resp : Response) :
  POST_try host env req_json st = Return (resp, st') -> answered st (resp, st').
Proof.
  unfold POST_try, answered.
  destruct (env_set (OPENAI_API_KEY env)); cbn [negb].
  2:{ intros H. inversion H; subst. right. repeat split. tauto. }
  destruct req_json as [body|e]; cbn [bind]; [|discriminate].
  destruct (truthy (OptGet body "imageDataUrl")); cbn [negb bind].
  2:{ intros H. inversion H; subst. right. repeat split. tauto. }
  destruct (OptGet body "imageDataUrl") as [| | | |url| |];
    cbn [String_startsWith bind]; try discriminate.
  destruct (prefix "data:image/" url); cbn [negb].
  2:{ intros H. inversion H; subst. right. repeat split. tauto. }
  destruct (Num.gtb _ _).
  { intros H. inversion H; subst. right. repeat split. tauto. }
  intros H. apply analyze_cases in H as [H | (H5 & Hst & Ht)]; [left; exact H|].
  right. tauto.
Qed.

(** Every answer of [POST] is one of the four. *)
Lemma POST_cases (env : Env) (req_json : Outcome JsValue) (st : Store) :
  answered st (POST host env req_json st).
Proof.
  unfold POST. destruct (POST_try host env req_json st) as [[resp st']|e] eqn:E.
  - apply POST_try_cases with env req_json. exact E.
  - right. split; [tauto|]. split; [reflexivity|].
    cbn. apply truthy_Or_message. discriminate.
Qed.

(** With a key and an image data URL within the limit, the answer is
    200 or 500. *)
Lemma POST_within_limit (env : Env) (body : JsValue) (url : string) (st : Store) :
  env_set (OPENAI_API_KEY env) = true ->
  OptGet body "imageDataUrl" = JStr url ->
  prefix "data:image/" url = true ->
  (Z.of_nat (String.length url) <= MAX_IMAGE_DATAURL_CHARS)%Z ->
  status (fst (POST host env (Return body) st)) = 200%Z \/
  status (fst (POST host env (Return body) st)) = 500%Z.
Proof.
  intros Hk Hu Hp Hl. unfold POST.
  rewrite (POST_try_accepted host env st body url Hk Hu Hp Hl).
  destruct (analyze host env url st) as [[resp st']|e] eqn:E.
  - apply analyze_cases in E as [[H _] | [H _]]; [left | right]; exact H.
  - right. reflexivity.
Qed.

End Answers.

(** X1.  Every request is answered with status 200, 400, 413 or 500.
    Status 200 comes with the identifier of the one row appended to the
    table; the other three come with a message under [error] and leave
    the table as it was.  So the status is 200 exactly when the table
    has changed. *)
Theorem POST_answers_one_of_four
    (host : Host) (env : Env) (req_json : Outcome JsValue) (st : Store) :
  answered st (POST host env req_json st) /\
  (status (fst (POST host env req_json st)) = 200%Z <->
   snd (POST host env req_json st) <> st).
Proof.
  pose proof (POST_cases host env req_json st) as H.
  split; [exact H|].
  destruct (POST host env req_json st) as [resp st']. cbn [fst snd answered] in *.
  assert (Hgrow : forall report : Report, (st ++ [report])%list <> st).
  { intros report E. apply (f_equal (@List.length Report)) in E.
    rewrite length_app in E. simpl in E. lia. }
  destruct H as [(H2 & report & -> & _) | (Hs & -> & _)].
  - split; [intros _; apply Hgrow | intros _; exact H2].
  - split; [intros E; rewrite E in Hs; lia | congruence].
Qed.

(** X2.  The size limit is 2,000,000 code units, inclusive: with a key
    and an image data URL, the answer has status 413 exactly when the
    data URL is longer than that. *)
Theorem POST_too_large_iff
    (host : Host) (env : Env) (body : JsValue) (url : string) (st : Store) :
  env_set (OPENAI_API_KEY env) = true ->
  OptGet body "imageDataUrl" = JStr url ->
  prefix "data:image/" url = true ->
  (status (fst (POST host env (Return body) st)) = 413%Z <->
   (2000000 < Z.of_nat (String.length url))%Z).
Proof.
  intros Hk Hu Hp. split.
  - intros H413.
    destruct (Z.lt_ge_cases 2000000 (Z.of_nat (String.length url))) as [Hl|Hl];
      [exact Hl|].
    destruct (POST_within_limit host env body url st Hk Hu Hp) as [E|E];
      [unfold MAX_IMAGE_DATAURL_CHARS; lia | |]; rewrite E in H413; discriminate.
  - intros Hl. rewrite (POST_too_large host env st body url Hk Hu Hp Hl). reflexivity.
Qed.

(** X2 (witness): a data URL of 27 code units. *)
Lemma POST_too_large_iff_witness :
  status (fst (POST exactHost testEnv
                 (Return (JObj [("imageDataUrl", JStr "data:image/jpeg;base64,AAAA")]))
                 [])) = 413%Z <->
  (2000000 < Z.of_nat (String.length "data:image/jpeg;base64,AAAA"))%Z.
Proof.
  apply (POST_too_large_iff exactHost testEnv
           (JObj [("imageDataUrl", JStr "data:image/jpeg;base64,AAAA")])
           "data:image/jpeg;base64,AAAA" []); reflexivity.
Defined.

(** X3.  A request never touches the reports that exist: a report that
    can be looked up before the request can be looked up after it, and
    is the same. *)
Theorem POST_keeps_reports
    (host : Host) (env : Env) (req_json : Outcome JsValue) (st : Store)
    (i : string) (r : Report) :
  prisma_report_findUnique st i = Some r ->
  prisma_report_findUnique (snd (POST host env req_json st)) i = Some r.
Proof.
  intros Hf. pose proof (POST_cases host env req_json st) as H.
  destruct (POST host env req_json st) as [resp st']. cbn [snd answered] in *.
  destruct H as [(_ & report & -> & _) | (_ & -> & _)].
  - apply find_app_old. exact Hf.
  - exact Hf.
Qed.

(** X3 (witness): a table of one report, and a request that adds one. *)
Lemma POST_keeps_reports_witness :
  prisma_report_findUnique
    (snd (POST (scriptedHost "(the reply)" (Some reply_five_laws)) testEnv testRequest
               [emptyReport])) "r1" = Some emptyReport.
Proof.
  apply (POST_keeps_reports (scriptedHost "(the reply)" (Some reply_five_laws))
           testEnv testRequest [emptyReport] "r1" emptyReport).
  reflexivity.
Defined.

(* ================================================================== *)
(** * The rows of the table *)
(* ================================================================== *)

Lemma In_keys_define (x : string) (props : Props.t) (kv : string * JsValue) :
  In x (Props.keys (Props.define props kv)) <-> x = fst kv \/ In x (Props.keys props).
Proof.
  destruct kv as [k v]. unfold Props.define. cbn [fst].
  destruct (has_own k props) eqn:Hown.
  - rewrite PropsFacts.keys_replace. apply PropsFacts.has_own_In in Hown.
    split; [tauto|]. intros [->|H]; assumption.
  - destruct (Props.array_index k) as [n|].
    + apply PropsFacts.In_keys_insert_index.
    + unfold Props.keys. rewrite map_app, in_app_iff. simpl. intuition congruence.
Qed.

Lemma In_keys_fold (x : string) (entries props : Props.t) :
  In x (Props.keys (fold_left Props.define entries props)) <->
  In x (Props.keys entries) \/ In x (Props.keys props).
Proof.
  revert props. induction entries as [|e rest IH]; intros props; cbn [fold_left].
  - simpl. tauto.
  - rewrite IH, In_keys_define. simpl. intuition congruence.
Qed.

(** The stored mapping is an object in property order that has the key
    [narrative]. *)
Lemma lawsToStore_of_shape (narrative : string) (laws : JsValue) :
  exists props, lawsToStore_of narrative laws = JObj props /\
                has_own "narrative" props = true /\ Props.ordered props.
Proof.
  eexists. split; [reflexivity|]. split.
  - apply PropsFacts.has_own_In. apply In_keys_fold. right. left. reflexivity.
  - apply PropsFacts.ordered_spread. repeat constructor.
Qed.

(** X5.  Every row the endpoint writes has the shape the report page
    reads: the image is an image data URL within the size limit, the
    score is NaN or a number from 0 to 100, the top fixes are an array
    of at most three items, and the stored laws are an object in
    property order that has the key [narrative].  A table whose rows
    have this shape keeps it through every request. *)
Theorem POST_keeps_rows_well_formed
    (host : Host) (env : Env) (req_json : Outcome JsValue) (st : Store) :
  Forall endpoint_row st ->
  Forall endpoint_row (snd (POST host env req_json st)).
Proof.
  intros Hall.
  destruct (POST host env req_json st) as [resp st'] eqn:E. cbn [snd].
  apply POST_outcome in E
    as [[-> _] | (url & completion & raw & parsed & s & report &
                  Hacc & _ & _ & _ & _ & Hs & _ & -> & Hrow & _)];
    [exact Hall|].
  apply Forall_app. split; [exact Hall|]. constructor; [|constructor].
  destruct Hacc as (_ & body & _ & _ & Hp & Hl).
  destruct Hrow as (Himg & _ & _ & _ & _ & Hscore & Htop & Hlaws).
  unfold endpoint_row. rewrite Himg, Hscore, Htop, Hlaws.
  split; [exact Hp|]. split; [exact Hl|].
  split; [apply (score_between_or_NaN host parsed); exact Hs|].
  destruct (sanitize_Return host parsed s Hs) as (_ & n & _ & ->).
  cbn [s_topFixes s_lawsToStore]. split.
  - destruct (topFixes_of_array (Get parsed "topFixes")) as (a & Ha & Hlen & _).
    exists a. split; assumption.
  - apply lawsToStore_of_shape.
Qed.

(** X5 (witness): the row written for the reply with five laws. *)
Lemma POST_keeps_rows_well_formed_witness :
  Forall endpoint_row
    (snd (POST (scriptedHost "(the reply)" (Some reply_five_laws)) testEnv testRequest [])).
Proof.
  apply (POST_keeps_rows_well_formed
           (scriptedHost "(the reply)" (Some reply_five_laws)) testEnv testRequest []).
  constructor.
Defined.

(** X6.  When the model service fails, or the table refuses the row,
    the request is answered with status 500 and the message of the
    exception (or [Internal server error] when it has none), and the
    table is as it was. *)
Theorem POST_service_failure
    (host : Host) (env : Env) (req_json : Outcome JsValue) (st : Store) (url : string) :
  accepted env req_json url ->
  (forall err,
      chat_completions_create host (chat_request host env url) = Throw err ->
      POST host env req_json st =
        (NextResponse_json
           (JObj [("error", Or (OptGet err "message") (JStr "Internal server error"))])
           500, st)) /\
  (forall completion raw parsed s err,
      chat_completions_create host (chat_request host env url) = Return completion ->
      reply_text completion = Return raw ->
      truthy raw = true ->
      JSON_parse host (string_of raw) = Some parsed ->
      sanitize host parsed = Return s ->
      create_rejects host (report_data url s) = Some err ->
      POST host env req_json st =
        (NextResponse_json
           (JObj [("error", Or (OptGet err "message") (JStr "Internal server error"))])
           500, st)).
Proof.
  intros Hacc. split.
  - intros err Hc. rewrite (POST_accepted host env req_json st url Hacc).
    unfold analyze. rewrite Hc. reflexivity.
  - intros completion raw parsed s err Hc Hr Ht Hp Hs Hrej.
    rewrite (POST_accepted host env req_json st url Hacc).
    unfold analyze. rewrite Hc. cbn [bind]. rewrite Hr. cbn [bind].
    rewrite Ht. cbn [negb]. rewrite Hp, Hs. cbn [bind].
    unfold prisma_report_create. rewrite Hrej. reflexivity.
Qed.

(** X6 (witness): a model service that is down; a table that refuses the row. *)
Lemma POST_service_failure_witness :
  POST downHost testEnv testRequest [emptyReport] =
    (error_response "Connection error." 500, [emptyReport]) /\
  POST (fullHost reply_five_laws) testEnv testRequest [emptyReport] =
    (error_response "Can't reach database server" 500, [emptyReport]).
Proof.
  assert (Hacc : accepted testEnv testRequest "data:image/jpeg;base64,AAAA").
  { split; [reflexivity|]. eexists. split; [reflexivity|].
    split; [reflexivity|]. split; [reflexivity|]. vm_compute. discriminate. }
  split.
  - exact (proj1 (POST_service_failure downHost testEnv testRequest [emptyReport]
                    "data:image/jpeg;base64,AAAA" Hacc)
                 (Error "Connection error.") eq_refl).
  - refine (proj2 (POST_service_failure (fullHost reply_five_laws) testEnv testRequest
                     [emptyReport] "data:image/jpeg;base64,AAAA" Hacc)
                  _ (JStr "(the reply)") reply_five_laws _
                  (Error "Can't reach database server")
                  eq_refl eq_refl eq_refl eq_refl eq_refl eq_refl).
Defined.

(* ================================================================== *)
(** * What is kept of the reply *)
(* ================================================================== *)

(** X7.  A reply that is JSON but no object (a number, a string, a
    boolean, an array) is kept as a report without content: score 0, no
    top fixes, an empty narrative, no laws.  The reply [null] makes the
    handler throw when it reads the score. *)
Theorem sanitize_reply_without_fields (host : Host) (parsed : JsValue) :
  (forall props, parsed <> JObj props) ->
  parsed <> JUndefined ->
  match parsed with
  | JNull =>
      sanitize host parsed =
        Throw (TypeError "Cannot read properties of null (reading 'score')")
  | _ => sanitize host parsed = Return emptySanitized
  end.
Proof.
  intros Hobj Hundef. destruct parsed; try reflexivity.
  - congruence.
  - exfalso. apply (Hobj props). reflexivity.
Qed.

(** X7 (witness): the reply [[72]]. *)
Lemma sanitize_reply_without_fields_witness :
  sanitize exactHost (JArr [JNum (Fin 72)]) = Return emptySanitized.
Proof.
  apply (sanitize_reply_without_fields exactHost (JArr [JNum (Fin 72)])); discriminate.
Defined.

(** X8.  A reply whose score is a number other than NaN gets a score
    from 0 to 100: the number itself when it lies in that range, 0 when
    it is below, 100 when it is above (an infinity included). *)
Theorem score_of_number (host : Host) (parsed : JsValue) (n : number) :
  nullish parsed = false ->
  Get parsed "score" = JNum n ->
  n <> NaN ->
  exists s,
    sanitize host parsed = Return s /\
    Num.between 0 100 (s_score s) /\
    (forall q, n = Fin q -> 0 <= q <= 100 -> Num.between q q (s_score s)) /\
    (Num.leb n (Fin 0) = true -> Num.between 0 0 (s_score s)) /\
    (Num.leb (Fin 100) n = true -> Num.between 100 100 (s_score s)).
Proof.
  intros Hn Hscore Hnan. unfold sanitize, GetProp. rewrite Hn. cbn [bind].
  rewrite Hscore. cbn [Coalesce nullish ToNumber bind].
  eexists. split; [reflexivity|]. cbn [s_score].
  split; [apply clamp_between; [lra | exact Hnan]|].
  split; [|split].
  - intros q -> [H0 H1]. destruct (clamp_inside q 0 100 H0 H1) as (q' & -> & Hq).
    simpl. lra.
  - destruct n as [| | |q]; try discriminate.
    + intros _. simpl. lra.
    + intros H. apply leb_Fin in H.
      pose proof (clamp_between (Fin q) 0 100 ltac:(lra) ltac:(discriminate)) as Hb.
      revert Hb. unfold clamp, Math_min, Math_max, Num.leb.
      destruct (Qle_bool 100 q) eqn:E1.
      * apply Qle_bool_iff in E1. lra.
      * destruct (Qle_bool 0 q) eqn:E2; simpl; [|lra].
        apply Qle_bool_iff in E2. lra.
  - destruct n as [| | |q]; try discriminate.
    + intros _. simpl. lra.
    + intros H. apply leb_Fin in H. unfold clamp, Math_min, Math_max, Num.leb.
      assert (E1 : Qle_bool 100 q = true) by (apply Qle_bool_iff; exact H).
      rewrite E1. simpl. lra.
Qed.

(** X8 (witness): the score 150. *)
Lemma score_of_number_witness :
  exists s,
    sanitize exactHost (JObj [("score", JNum (Fin 150))]) = Return s /\
    Num.between 100 100 (s_score s).
Proof.
  destruct (score_of_number exactHost (JObj [("score", JNum (Fin 150))]) (Fin 150))
    as (s & Hs & _ & _ & _ & H100); [reflexivity | reflexivity | discriminate |].
  exists s. split; [exact Hs|]. apply H100. reflexivity.
Defined.

Lemma substring_prefix (n : nat) (s : string) : prefix (substring 0 n s) s = true.
Proof.
  revert s. induction n as [|n IH]; intros s.
  - destruct s; reflexivity.
  - destruct s as [|c s]; simpl; [reflexivity|].
    destruct (ascii_dec c c); [apply IH | congruence].
Qed.

Lemma substring_length (n : nat) (s : string) :
  String.length (substring 0 n s) = Nat.min n (String.length s).
Proof.
  revert s. induction n as [|n IH]; intros s.
  - destruct s; reflexivity.
  - destruct s as [|c s]; simpl; [reflexivity|]. now rewrite IH.
Qed.

Lemma substring_all (n : nat) (s : string) :
  (String.length s <= n)%nat -> substring 0 n s = s.
Proof.
  revert s. induction n as [|n IH]; intros s.
  - destruct s; simpl; [reflexivity | lia].
  - destruct s as [|c s]; simpl; [reflexivity|]. intros H. rewrite IH; [reflexivity | lia].
Qed.

(** X9.  The narrative the handler computes from a string is its first
    1500 code units: a prefix of the string, of length
    [min 1500 (length)], and the string itself when it is that short.
    Computing it again changes nothing. *)
Theorem narrative_is_prefix (t : string) :
  prefix (narrative_of (JStr t)) t = true /\
  String.length (narrative_of (JStr t)) = Nat.min 1500 (String.length t) /\
  ((String.length t <= 1500)%nat -> narrative_of (JStr t) = t) /\
  narrative_of (JStr (narrative_of (JStr t))) = narrative_of (JStr t).
Proof.
  unfold narrative_of. cbn [typeof string_of]. rewrite String.eqb_refl.
  unfold String_slice0.
  split; [apply substring_prefix|]. split; [apply substring_length|].
  split; [apply substring_all|].
  apply substring_all. apply substring_length_le.
Qed.

Lemma ordered_NoDup (props : Props.t) :
  Props.ordered props -> NoDup (Props.keys props).
Proof.
  unfold Props.ordered. induction 1 as [|k l Hs IH Hall]; constructor; [|exact IH].
  intros Hin. rewrite Forall_forall in Hall. destruct (Hall k Hin) as [Hne _].
  congruence.
Qed.

Lemma lookup_define_same (k : string) (v : JsValue) (props : Props.t) :
  lookup k (Props.define props (k, v)) = Some v.
Proof.
  unfold Props.define. destruct (has_own k props) eqn:Hown.
  - unfold has_own in Hown. induction props as [|[k0 v0] rest IH]; simpl in *;
      [discriminate|].
    destruct (String.eqb_spec k0 k) as [->|Hne]; simpl.
    + now rewrite String.eqb_refl.
    + destruct (String.eqb_spec k0 k); [congruence | apply IH; exact Hown].
  - destruct (Props.array_index k) as [n|].
    + unfold has_own in Hown. induction props as [|[k0 v0] rest IH]; simpl in *.
      * now rewrite String.eqb_refl.
      * destruct (String.eqb_spec k0 k) as [->|Hne]; [discriminate|].
        destruct (Props.array_index k0) as [n0|]; [destruct (n0 <=? n)%N|]; simpl.
        -- destruct (String.eqb_spec k0 k); [congruence | apply IH; exact Hown].
        -- now rewrite String.eqb_refl.
        -- now rewrite String.eqb_refl.
    + unfold has_own in Hown. induction props as [|[k0 v0] rest IH]; simpl in *.
      * now rewrite String.eqb_refl.
      * destruct (String.eqb_spec k0 k) as [->|Hne]; [discriminate|].
        apply IH; exact Hown.
Qed.

Lemma lookup_not_In (k : string) (props : Props.t) :
  ~ In k (Props.keys props) -> lookup k props = None.
Proof.
  intros H. apply PropsFacts.has_own_not_In in H. unfold has_own in H.
  destruct (lookup k props); [discriminate | reflexivity].
Qed.

(** Definitions in a row: each key takes the value defined for it, and
    the keys that are not defined keep theirs. *)
Lemma lookup_fold_define (k : string) (entries props : Props.t) :
  NoDup (Props.keys entries) ->
  lookup k (fold_left Props.define entries props) =
    match lookup k entries with
    | Some v => Some v
    | None => lookup k props
    end.
Proof.
  revert props. induction entries as [|[k' v'] rest IH]; intros props Hnd;
    cbn [fold_left].
  - reflexivity.
  - inversion Hnd as [|? ? Hnot Hnd']; subst. rewrite IH by exact Hnd'.
    cbn [lookup]. destruct (String.eqb_spec k' k) as [->|Hne].
    + rewrite (lookup_not_In k rest Hnot). apply lookup_define_same.
    + destruct (lookup k rest); [reflexivity|].
      apply PropsFacts.lookup_define_other. congruence.
Qed.

(** X10.  The stored mapping [{ narrative, ...laws }] holds every entry
    of the laws under its key with its value, an entry called
    [narrative] included; the computed narrative is stored only when the
    laws have no such entry; and the mapping holds nothing else. *)
Theorem stored_mapping_entries (narrative : string) (laws : JsValue) (k : string) :
  Props.ordered (Props.own laws) ->
  lookup k (Props.own (lawsToStore_of narrative laws)) =
    match lookup k (Props.own laws) with
    | Some v => Some v
    | None => if k =? "narrative" then Some (JStr narrative) else None
    end.
Proof.
  intros Hord. unfold lawsToStore_of, Props.spread. cbn [Props.own].
  rewrite lookup_fold_define by (apply ordered_NoDup; exact Hord).
  destruct (lookup k (Props.own laws)); [reflexivity|].
  cbn [lookup]. rewrite String.eqb_sym. reflexivity.
Qed.

(** X10 (witness): laws with an entry [narrative], and laws without. *)
Lemma stored_mapping_entries_witness :
  lookup "narrative"
    (Props.own (lawsToStore_of "Summary"
                  (JObj [("narrative", JNum (Fin 7)); ("hicks", JNull)]))) =
    Some (JNum (Fin 7)) /\
  lookup "narrative" (Props.own (lawsToStore_of "Summary" (JObj [("hicks", JNull)]))) =
    Some (JStr "Summary").
Proof.
  split.
  - apply (stored_mapping_entries "Summary"
             (JObj [("narrative", JNum (Fin 7)); ("hicks", JNull)]) "narrative").
    repeat constructor; simpl; try discriminate.
  - apply (stored_mapping_entries "Summary" (JObj [("hicks", JNull)]) "narrative").
    repeat constructor.
Defined.

(* ================================================================== *)
(** * The cards of the report page *)
(* ================================================================== *)

Lemma In_firstn {A : Type} (n : nat) (l : list A) (x : A) :
  In x (firstn n l) -> In x l.
Proof.
  revert l. induction n as [|n IH]; intros [|a l]; simpl; try tauto.
  intros [H|H]; [left; exact H | right; apply IH; exact H].
Qed.

Lemma NoDup_firstn {A : Type} (n : nat) (l : list A) :
  NoDup l -> NoDup (firstn n l).
Proof.
  revert l. induction n as [|n IH]; intros [|a l] H; simpl; try constructor.
  - inversion H; subst. intros Hin. apply In_firstn in Hin. contradiction.
  - inversion H; subst. apply IH. assumption.
Qed.

Lemma law_cards_inv (entries : Props.t) (cards : list Results.LawCard) :
  Results.law_cards entries = Return cards -> Forall2 card_of entries cards.
Proof.
  revert cards. induction entries as [|[k item] rest IH]; intros cards.
  - intros H. inversion H; subst. constructor.
  - cbn [Results.law_cards Results.law_card]. unfold GetProp.
    destruct (nullish item) eqn:Hn; cbn [bind]; [discriminate|].
    destruct (Results.law_cards rest) as [cs|e]; cbn [bind]; [|discriminate].
    intros H. inversion H; subst; clear H. constructor; [|apply IH; reflexivity].
    repeat split. exact Hn.
Qed.

Lemma law_cards_Throw (entries : Props.t) :
  (exists e, In e entries /\ nullish (snd e) = true) ->
  exists err, Results.law_cards entries = Throw err.
Proof.
  induction entries as [|[k item] rest IH]; intros (e & Hin & Hn).
  - destruct Hin.
  - cbn [Results.law_cards Results.law_card]. unfold GetProp.
    destruct (nullish item) eqn:Hi; cbn [bind]; [eexists; reflexivity|].
    destruct Hin as [<-|Hin]; [simpl in Hn; congruence|].
    destruct IH as (err & ->); [exists e; split; assumption|].
    cbn [bind]. eexists. reflexivity.
Qed.

Lemma Forall2_keys (entries : Props.t) (cards : list Results.LawCard) :
  Forall2 card_of entries cards ->
  map Results.card_key cards = Props.keys entries.
Proof.
  induction 1 as [|e c es cs (_ & Hk & _) _ IH]; simpl; [reflexivity|].
  now rewrite Hk, IH.
Qed.

(** The entries of the cards: distinct keys of the stored mapping, none
    of them [narrative]. *)
Lemma law_entries_keys (lawsAll : JsValue) :
  NoDup (Props.keys (Results.law_entries lawsAll)) /\
  forall k, In k (Props.keys (Results.law_entries lawsAll)) ->
            k <> "narrative" /\ has_own k (Props.own lawsAll) = true.
Proof.
  unfold Results.law_entries, Props.fromEntries. split.
  - apply ordered_NoDup. apply PropsFacts.ordered_fold. constructor.
  - intros k Hin. apply In_keys_fold in Hin as [Hin|[]].
    unfold Props.keys in Hin. apply in_map_iff in Hin as ([k' v] & <- & Hin).
    apply filter_In in Hin as [Hin Hk]. cbn [fst] in *. split.
    + intros ->. simpl in Hk. discriminate.
    + apply PropsFacts.has_own_In. unfold Props.keys. apply in_map_iff.
      exists (k', v). split; [reflexivity | exact Hin].
Qed.

(** X11.  A page that is rendered shows the image and the score of the
    report, and at most three cards: their keys are distinct keys of the
    stored mapping, none is [narrative], and each card carries the
    styling of its severity. *)
Theorem ResultsPage_cards (st : Store) (i : string) (v : Results.ReportView) :
  Results.ResultsPage st i = Return (Results.ReportPage v) ->
  exists report,
    prisma_report_findUnique st i = Some report /\
    Results.view_image v = imageDataUrl report /\
    Results.view_score v = score report /\
    (List.length (Results.view_laws v) <= 3)%nat /\
    NoDup (map Results.card_key (Results.view_laws v)) /\
    forall c, In c (Results.view_laws v) ->
      Results.card_key c <> "narrative" /\
      has_own (Results.card_key c) (Props.own (Coalesce (laws report) (JObj []))) = true /\
      Results.card_tag c = Results.severityStyle (Results.card_severity c).
Proof.
  unfold Results.ResultsPage.
  destruct (prisma_report_findUnique st i) as [report|]; [|discriminate].
  destruct (Results.top_fixes_list _) as [fixes|e]; cbn [bind]; [|discriminate].
  destruct (Results.law_cards _) as [cards|e] eqn:Hc; cbn [bind]; [|discriminate].
  unfold Results.render. destruct (forallb _ _); [|discriminate].
  intros H. inversion H; subst; clear H. cbn.
  exists report. split; [reflexivity|]. split; [reflexivity|]. split; [reflexivity|].
  apply law_cards_inv in Hc. pose proof (Forall2_keys _ _ Hc) as Hk.
  destruct (law_entries_keys (Coalesce (laws report) (JObj []))) as [Hnd Hkeys].
  split; [|split].
  - rewrite <- (length_map Results.card_key), Hk. unfold Props.keys.
    rewrite length_map. apply firstn_le_length.
  - rewrite Hk. unfold Props.keys. rewrite <- firstn_map.
    apply NoDup_firstn. exact Hnd.
  - intros c Hin.
    assert (Hkey : In (Results.card_key c)
                      (Props.keys (Results.law_entries (Coalesce (laws report) (JObj []))))).
    { assert (H : In (Results.card_key c) (map Results.card_key cards))
        by (apply in_map; exact Hin).
      rewrite Hk in H. unfold Props.keys in *. rewrite <- firstn_map in H.
      apply In_firstn in H. exact H. }
    destruct (Hkeys _ Hkey) as [Hne Hown].
    split; [exact Hne|]. split; [exact Hown|].
    clear - Hc Hin. induction Hc as [|e c' es cs (_ & _ & _ & _ & _ & Ht) _ IH];
      [destruct Hin|].
    destruct Hin as [<-|Hin]; [exact Ht | apply IH; exact Hin].
Qed.

(** X11 (witness): the page of [emptyReport]. *)
Lemma ResultsPage_cards_witness :
  exists report,
    prisma_report_findUnique [emptyReport] "r1" = Some report /\
    Results.view_score emptyReportView = score report /\
    NoDup (map Results.card_key (Results.view_laws emptyReportView)).
Proof.
  destruct (ResultsPage_cards [emptyReport] "r1" emptyReportView eq_refl)
    as (report & Hf & _ & Hs & _ & Hnd & _).
  exists report. split; [exact Hf|]. split; [exact Hs | exact Hnd].
Defined.

(** X12.  The page of a report whose top fixes are an array is
    rendered exactly when none of the first three entries it makes
    cards of is [null] or [undefined], and React can show the top fixes
    and the titles, severities and findings of those entries (none is
    an object); otherwise the page throws. *)
Theorem ResultsPage_renders_iff (st : Store) (i : string) (report : Report)
    (a : list JsValue) :
  prisma_report_findUnique st i = Some report ->
  topFixes report = JArr a ->
  ((exists v, Results.ResultsPage st i = Return (Results.ReportPage v)) <->
   ((forall e,
        In e (firstn 3 (Results.law_entries (Coalesce (laws report) (JObj [])))) ->
        nullish (snd e) = false) /\
    can_be_shown a
      (firstn 3 (Results.law_entries (Coalesce (laws report) (JObj [])))) = true)) /\
  ((exists v, Results.ResultsPage st i = Return (Results.ReportPage v)) \/
   (exists err, Results.ResultsPage st i = Throw err)).
Proof.
  intros Hf Ht.
  set (entries := firstn 3 (Results.law_entries (Coalesce (laws report) (JObj [])))).
  assert (Hcases : (forall e, In e entries -> nullish (snd e) = false) \/
                   (exists e, In e entries /\ nullish (snd e) = true)).
  { clearbody entries. induction entries as [|e rest IH].
    - left. intros e [].
    - destruct (nullish (snd e)) eqn:Hn.
      + right. exists e. split; [left; reflexivity | exact Hn].
      + destruct IH as [Hall | (e' & Hin & Hn')].
        * left. intros e' [<-|Hin]; [exact Hn | apply Hall; exact Hin].
        * right. exists e'. split; [right; exact Hin | exact Hn']. }
  destruct Hcases as [Hall | Hex].
  - rewrite (ResultsPage_found st i report a Hf Ht Hall). fold entries.
    unfold Results.render. rewrite children_shown.
    destruct (can_be_shown a entries).
    + split; [|left; eexists; reflexivity].
      split; [intros _; split; [exact Hall | reflexivity] | intros _; eexists; reflexivity].
    + split; [|right; eexists; reflexivity].
      split; [intros (v & H); discriminate H | intros [_ H]; discriminate H].
  - assert (Hthrow : exists err, Results.ResultsPage st i = Throw err).
    { unfold Results.ResultsPage. rewrite Hf, Ht.
      cbn [Coalesce nullish]. rewrite top_fixes_list_array. cbn [bind].
      fold entries. destruct (law_cards_Throw entries Hex) as (err & ->).
      cbn [bind]. eexists. reflexivity. }
    split; [|right; exact Hthrow].
    destruct Hthrow as (err & Herr). split.
    + intros (v & H). rewrite Herr in H. discriminate H.
    + intros [Hall _]. destruct Hex as (e & Hin & Hn).
      rewrite (Hall e Hin) in Hn. discriminate Hn.
Qed.

(** X12 (witness): the page of [emptyReport] is rendered. *)
Lemma ResultsPage_renders_iff_witness :
  exists v, Results.ResultsPage [emptyReport] "r1" = Return (Results.ReportPage v).
Proof.
  apply (proj1 (ResultsPage_renders_iff [emptyReport] "r1" emptyReport []
                  eq_refl eq_refl)).
  split; [|reflexivity].
  intros e He. vm_compute in He. destruct He as [<-|[]]. reflexivity.
Defined.

(* ================================================================== *)
(** * What the submitters show *)
(* ================================================================== *)

(** X13.  When a submitter navigates.  On a network failure, a
    response that is not ok, a body that cannot be read, and a body
    that is [null], the three submitters leave the location as it was.
    After an ok response with any other body they go to [/results/]
    followed by the string of [data.reportId], whatever that is: for a
    body that has no [reportId] it is [/results/undefined].  Only when
    [data.reportId] cannot be made a string do they stay. *)
Theorem submitters_navigate_only_on_success
    (host : Host) (net : FetchResult) (c : Client) :
  ((forall data, net = Responded true (Return data) -> nullish data = true) ->
   location (AnalyzePage_runAnalysis host net c) = location c /\
   location (HomePage_analyze host net c) = location c /\
   location (UploadButton_runAnalysis host net c) = location c) /\
  (forall data,
      net = Responded true (Return data) -> nullish data = false ->
      truthy (imagePreview c) = true -> isRunning c = false ->
      match ToString host (Get data "reportId") with
      | Return s =>
          location (AnalyzePage_runAnalysis host net c) = Some ("/results/" ++ s) /\
          location (HomePage_analyze host net c) = Some ("/results/" ++ s) /\
          location (UploadButton_runAnalysis host net c) = Some ("/results/" ++ s)
      | Throw _ =>
          location (AnalyzePage_runAnalysis host net c) = location c /\
          location (HomePage_analyze host net c) = location c /\
          location (UploadButton_runAnalysis host net c) = location c
      end) /\
  (forall data,
      net = Responded true (Return data) -> nullish data = false ->
      Get data "reportId" = JUndefined ->
      truthy (imagePreview c) = true -> isRunning c = false ->
      location (AnalyzePage_runAnalysis host net c) = Some "/results/undefined" /\
      location (HomePage_analyze host net c) = Some "/results/undefined" /\
      location (UploadButton_runAnalysis host net c) = Some "/results/undefined").
Proof.
  assert (Hgo : forall data,
             net = Responded true (Return data) -> nullish data = false ->
             truthy (imagePreview c) = true -> isRunning c = false ->
             match ToString host (Get data "reportId") with
             | Return s =>
                 location (AnalyzePage_runAnalysis host net c) = Some ("/results/" ++ s) /\
                 location (HomePage_analyze host net c) = Some ("/results/" ++ s) /\
                 location (UploadButton_runAnalysis host net c) = Some ("/results/" ++ s)
             | Throw _ =>
                 location (AnalyzePage_runAnalysis host net c) = location c /\
                 location (HomePage_analyze host net c) = location c /\
                 location (UploadButton_runAnalysis host net c) = location c
             end).
  { intros data -> Hn Hi Hr.
    unfold AnalyzePage_runAnalysis, HomePage_analyze, UploadButton_runAnalysis.
    rewrite Hi, Hr. cbn [negb orb andb fetch_json bind].
    unfold results_url, GetProp. rewrite Hn. cbn [bind].
    destruct (ToString host (Get data "reportId")); cbn [bind]; repeat split. }
  split; [|split; [exact Hgo|]].
  - intros Hnull.
    unfold AnalyzePage_runAnalysis, HomePage_analyze, UploadButton_runAnalysis.
    destruct net as [err|ok [data|err]]; cbn [fetch_json bind].
    + destruct (truthy (imagePreview c)), (isRunning c); repeat split.
    + destruct ok; cbn [negb].
      * unfold results_url, GetProp. rewrite (Hnull data eq_refl). cbn [bind].
        destruct (truthy (imagePreview c)), (isRunning c); repeat split.
      * destruct (truthy (imagePreview c)), (isRunning c); repeat split.
    + destruct (truthy (imagePreview c)), (isRunning c); repeat split.
  - intros data Hnet Hn Hid Hi Hr. pose proof (Hgo data Hnet Hn Hi Hr) as H.
    rewrite Hid in H. exact H.
Qed.

(** X13 (witness): a network failure, and an ok response whose body
    has no [reportId], on the analyze page. *)
Lemma submitters_navigate_only_on_success_witness :
  location (AnalyzePage_runAnalysis exactHost
              (NetworkFailure (Error "Failed to fetch")) idleClient) = None /\
  location (AnalyzePage_runAnalysis exactHost (Responded true (Return (JObj [])))
              idleClient) = Some "/results/undefined".
Proof.
  destruct (submitters_navigate_only_on_success exactHost
              (NetworkFailure (Error "Failed to fetch")) idleClient) as (H & _ & _).
  destruct (submitters_navigate_only_on_success exactHost
              (Responded true (Return (JObj []))) idleClient) as (_ & _ & H').
  split.
  - apply H. intros data E. discriminate E.
  - apply (H' (JObj [])); reflexivity.
Defined.

(** X14.  A request that does not succeed is never silent.  The two
    pages end with a message in [error], the upload button with one
    alert more; the message is the one the endpoint sent under [error]
    when the response carries one. *)
Theorem request_failure_is_reported
    (host : Host) (net : FetchResult) (c : Client) :
  truthy (imagePreview c) = true ->
  isRunning c = false ->
  (forall url, ~ succeeds host net url) ->
  (truthy (error (AnalyzePage_runAnalysis host net c)) = true /\
   truthy (error (HomePage_analyze host net c)) = true /\
   exists m, alerts (UploadButton_runAnalysis host net c) = (alerts c ++ [m])%list /\
             truthy m = true) /\
  (forall data,
      net = Responded false (Return data) ->
      truthy (OptGet data "error") = true ->
      error (AnalyzePage_runAnalysis host net c) = OptGet data "error" /\
      error (HomePage_analyze host net c) = OptGet data "error" /\
      alerts (UploadButton_runAnalysis host net c) =
        (alerts c ++ [OptGet data "error"])%list).
Proof.
  intros Hi Hr Hno. split.
  - unfold AnalyzePage_runAnalysis, HomePage_analyze, UploadButton_runAnalysis.
    rewrite Hi, Hr. cbn [negb orb andb].
    destruct (not_succeeds_cases host net Hno)
      as [(err & ->) | [(data & ->) | (data & err & -> & Hu)]]; cbn [bind negb];
      try rewrite Hu; cbn [bind]; cbn;
      (split; [apply truthy_Or_message; discriminate|]);
      (split; [apply truthy_Or_message; discriminate|]);
      (eexists; split; [reflexivity | apply truthy_Or_message; discriminate]).
  - intros data -> Ht.
    unfold AnalyzePage_runAnalysis, HomePage_analyze, UploadButton_runAnalysis.
    rewrite Hi, Hr. cbn. unfold Or. rewrite Ht. repeat split.
Qed.

(** X14 (witness): the home page shows the message of the endpoint. *)
Lemma request_failure_is_reported_witness :
  error (HomePage_analyze exactHost
           (Responded false (Return (JObj [("error", JStr "Model returned empty response")])))
           idleClient) = JStr "Model returned empty response".
Proof.
  destruct (request_failure_is_reported exactHost
              (Responded false
                 (Return (JObj [("error", JStr "Model returned empty response")])))
              idleClient eq_refl eq_refl) as [_ H].
  - intros url (data & E & _). discriminate E.
  - destruct (H (JObj [("error", JStr "Model returned empty response")]) eq_refl eq_refl)
      as (_ & H2 & _).
    exact H2.
Defined.

(* ================================================================== *)
(** * From the upload to the report *)
(* ================================================================== *)

(** X15.  The home page and the endpoint together.  When the page has
    an image and sends it, one of two things has happened when the
    request ends.  Either the table has one row more, holding the image
    that was sent, and the page has navigated to the address of that
    row, which the table finds.  Or the table is as it was, the page has
    not navigated, the flag is cleared, and the page shows a message. *)
Theorem HomePage_request_served
    (host : Host) (env : Env) (st : Store) (c : Client) (p : string) :
  imagePreview c = JStr p ->
  p <> "" ->
  isRunning c = false ->
  let net := fst (served host env (JStr p) st) in
  let st' := snd (served host env (JStr p) st) in
  let c' := HomePage_analyze host net c in
  (exists report,
      st' = (st ++ [report])%list /\
      imageDataUrl report = p /\
      location c' = Some ("/results/" ++ id report) /\
      prisma_report_findUnique st' (id report) = Some report) \/
  (st' = st /\
   location c' = location c /\
   isRunning c' = false /\
   truthy (error c') = true).
Proof.
  intros Hp Hne Hr. unfold served.
  change (JSON_roundtrip (JObj [("imageDataUrl", JStr p)]))
    with (JObj [("imageDataUrl", JStr p)]). cbv zeta.
  pose proof (POST_cases host env (Return (JObj [("imageDataUrl", JStr p)])) st) as Hans.
  destruct (POST host env (Return (JObj [("imageDataUrl", JStr p)])) st)
    as [resp st'] eqn:E.
  cbn [fst snd answered] in *.
  assert (Ht : truthy (imagePreview c) = true).
  { rewrite Hp. simpl. destruct (String.eqb_spec p ""); [congruence | reflexivity]. }
  unfold HomePage_analyze. rewrite Ht, Hr. cbn [negb andb fetch_json bind].
  destruct Hans as [(H200 & report & -> & Hbody) | (Hs & -> & Herr)].
  - left. exists report. rewrite H200, Hbody. cbn.
    apply POST_outcome in E
      as [[Habs _] | (url & completion & raw & parsed & s & report' &
                      Hacc & _ & _ & _ & _ & _ & Hfresh & Hst & Hrow & Hresp)].
    { exfalso. apply (f_equal (@List.length Report)) in Habs.
      rewrite length_app in Habs. simpl in Habs. lia. }
    apply app_inj_tail in Hst as [_ <-].
    destruct Hacc as (_ & body & Hb & Hu & _). inversion Hb; subst body.
    cbn in Hu. inversion Hu; subst url.
    destruct Hrow as (Himg & _).
    split; [reflexivity|]. split; [exact Himg|]. split; [reflexivity|].
    apply find_app_new. exact Hfresh.
  - right. split; [reflexivity|].
    assert (Hok : ((200 <=? status resp) && (status resp <=? 299))%Z = false).
    { destruct Hs as [-> | [-> | ->]]; reflexivity. }
    rewrite Hok. cbn [negb bind].
    split; [reflexivity|]. split; [reflexivity|].
    cbn. apply truthy_Or_message. discriminate.
Qed.

(** X15 (witness): the first report of an empty table. *)
Lemma HomePage_request_served_witness :
  location
    (HomePage_analyze (scriptedHost "(the reply)" (Some reply_five_laws))
       (fst (served (scriptedHost "(the reply)" (Some reply_five_laws)) testEnv
               (JStr "data:image/jpeg;base64,AAAA") []))
       idleClient) = Some "/results/0".
Proof.
  destruct (HomePage_request_served (scriptedHost "(the reply)" (Some reply_five_laws))
              testEnv [] idleClient "data:image/jpeg;base64,AAAA"
              eq_refl ltac:(discriminate) eq_refl)
    as [(report & Hst & _ & Hloc & _) | (Hst & _)].
  - vm_compute in Hst. inversion Hst; subst report. exact Hloc.
  - vm_compute in Hst. discriminate Hst.
Defined.

(* ================================================================== *)
(** * The size of the canvas *)
(* ================================================================== *)

Lemma ulp_rel_tiny : ulp_rel * 4294967296 <= 1 # 2097152.
Proof. apply Qle_bool_iff. vm_compute. reflexivity. Qed.

(** Rounding to the nearest integer gives the integer the argument is
    within a half of. *)
Lemma Math_round_eq (q : Q) (z : Z) :
  inject_Z z - (1 # 2) <= q -> q < inject_Z z + (1 # 2) ->
  Math_round (Fin q) = Fin (inject_Z z).
Proof.
  intros Hlo Hhi. unfold Math_round. f_equal. f_equal.
  assert (H1 := Qfloor_le (q + (1 # 2))).
  assert (H2 := Qlt_floor (q + (1 # 2))).
  set (f := Qfloor (q + (1 # 2))) in *.
  assert (Hf1 : inject_Z f < inject_Z (z + 1)).
  { rewrite inject_Z_plus. change (inject_Z 1) with 1. lra. }
  assert (Hf2 : inject_Z z < inject_Z (f + 1)) by lra.
  rewrite <- Zlt_Qlt in Hf1, Hf2. lia.
Qed.

(** The rounded argument is within a half of what [Math.round] gives. *)
Lemma Math_round_near (q : Q) :
  exists r, Math_round (Fin q) = Fin (inject_Z r) /\
            q - (1 # 2) <= inject_Z r /\ inject_Z r <= q + (1 # 2).
Proof.
  exists (Qfloor (q + (1 # 2))). split; [reflexivity|].
  assert (H1 := Qfloor_le (q + (1 # 2))).
  assert (H2 := Qlt_floor (q + (1 # 2))).
  rewrite inject_Z_plus in H2. change (inject_Z 1) with 1 in H2. lra.
Qed.

Section Sizes.

Context (host : Host) (Hfl : Binary64 (roundToDouble host)).

Lemma fl_not_NaN (x : Q) : roundToDouble host x <> NaN.
Proof.
  intros E. pose proof (fl_monotone _ Hfl x x (Qle_refl x)) as H.
  rewrite E in H. discriminate H.
Qed.

(** An integer below [2^53] times one, rounded. *)
Lemma round_times_one (n : N) :
  (n < 2 ^ 53)%N ->
  Math_round (Num_mul host (Num.of_N n) (Fin 1)) = Num.of_N n.
Proof.
  intros Hn. unfold Num_mul, Num.of_N, Num.of_Z at 1. fold (W n).
  assert (Hx : W n * 1 == inject_Z (Z.of_N n)) by (unfold W; ring).
  destruct (between_same _ _ (fl_exact _ Hfl _ _ Hx ltac:(lia))) as (q & -> & Hq).
  unfold Num.of_Z. apply Math_round_eq; rewrite Hq, Hx; lra.
Qed.

(** The scale of an image wider than 1200 pixels. *)
Lemma scale_of_wide (width : N) :
  (1200 < width)%N -> (width < 2 ^ 32)%N ->
  exists s,
    Math_min (Fin 1) (Num_div host (Fin 1200) (Num.of_N width)) = Fin s /\
    0 < s /\ s <= 1 /\
    1200 * (1 - ulp_rel) <= W width * s /\ W width * s <= 1200 * (1 + ulp_rel).
Proof.
  intros Hgt Hlt.
  pose proof (W_pos width ltac:(lia)) as HW.
  pose proof (W_gt width 1200 ltac:(lia)) as HW1.
  pose proof (W_le width (2 ^ 32) ltac:(lia)) as HW2.
  change (inject_Z 1200) with 1200 in HW1.
  change (inject_Z (2 ^ 32)) with 4294967296 in HW2.
  destruct ulp_rel_small as [Hu0 Hu1]. destruct normal_range as [Hn0 Hn1].
  destruct (quotient host width) as [Ediv Hq]; [lia|].
  rewrite Ediv.
  set (x := 1200 / W width) in *. clearbody x.
  set (Wq := W width) in *. clearbody Wq.
  set (u := ulp_rel) in *.
  assert (Hx0 : min_normal <= x) by nra.
  assert (Hx1 : x <= max_normal) by nra.
  pose proof (fl_error _ Hfl _ Hx0 Hx1) as Hb. fold u in Hb.
  destruct (roundToDouble host x) as [| | |y]; simpl in Hb; try contradiction.
  destruct Hb as [Hb0 Hb1].
  unfold Math_min, Num.leb. destruct (Qle_bool 1 y) eqn:Ey.
  - apply Qle_bool_iff in Ey. exists 1. split; [reflexivity|].
    split; [lra|]. split; [lra|]. split; nra.
  - apply Qle_bool_false in Ey. exists y. split; [reflexivity|].
    split; [nra|]. split; [lra|]. split; nra.
Qed.

(** A length in pixels times a scale, as [img.onload] computes it. *)
Lemma scaled_length (n : N) (s : Q) :
  (n < 2 ^ 32)%N -> 1 # 10000000 <= s -> s <= 1 ->
  exists p, Num_mul host (Num.of_N n) (Fin s) = Fin p /\
            W n * s * (1 - ulp_rel) <= p /\ p <= W n * s * (1 + ulp_rel) /\
            p <= W n.
Proof.
  intros Hn Hs0 Hs1. unfold Num_mul, Num.of_N, Num.of_Z. fold (W n).
  destruct ulp_rel_small as [Hu0 Hu1]. destruct normal_range as [Hn0 Hn1].
  pose proof (W_le n (2 ^ 32) ltac:(lia)) as HW2.
  change (inject_Z (2 ^ 32)) with 4294967296 in HW2.
  assert (Hx : W n == inject_Z (Z.of_N n)) by reflexivity.
  destruct (between_same _ _ (fl_exact _ Hfl _ _ Hx ltac:(lia))) as (qn & En & Hqn).
  assert (Hmono : Num.leb (roundToDouble host (W n * s)) (roundToDouble host (W n)) = true).
  { apply (fl_monotone _ Hfl).
    assert (0 <= W n) by (unfold W; change 0 with (inject_Z 0); rewrite <- Zle_Qle; lia).
    nra. }
  rewrite En in Hmono.
  destruct (N.eq_dec n 0) as [->|Hnz].
  - assert (Hz : W 0 * s == inject_Z 0) by (unfold W; simpl; ring).
    destruct (between_same _ _ (fl_exact _ Hfl _ _ Hz ltac:(lia))) as (p & Ep & Hp).
    exists p. split; [exact Ep|]. rewrite Hp, Hz.
    change (inject_Z 0) with 0. change (W 0) with 0.
    set (u := ulp_rel) in *. clearbody u. repeat split; lra.
  - pose proof (W_le n (2 ^ 32) ltac:(lia)) as _.
    assert (HW1 : 1 <= W n).
    { unfold W. change 1 with (inject_Z 1). rewrite <- Zle_Qle. lia. }
    set (Wq := W n) in *. clearbody Wq.
    assert (Hp0 : min_normal <= Wq * s) by nra.
    assert (Hp1 : Wq * s <= max_normal).
    { apply Qle_trans with 4294967296; [nra|].
      apply Qle_bool_iff. vm_compute. reflexivity. }
    pose proof (fl_error _ Hfl _ Hp0 Hp1) as Hb.
    destruct (roundToDouble host (Wq * s)) as [| | |p]; simpl in Hb; try contradiction.
    exists p. split; [reflexivity|]. destruct Hb as [Hb0 Hb1].
    split; [exact Hb0|]. split; [exact Hb1|].
    apply leb_Fin in Hmono. lra.
Qed.

End Sizes.

(** X16.  An image at most 1200 pixels wide is not scaled: the scale is
    1 and the canvas has the width and the height of the image. *)
Theorem img_onload_keeps_small_images (host : Host) (width height : N) :
  Binary64 (roundToDouble host) ->
  (width <= 1200)%N ->
  (height < 2 ^ 32)%N ->
  img_onload host width height =
    {| scale := Fin 1; w := Num.of_N width; h := Num.of_N height |}.
Proof.
  intros Hfl Hw Hh.
  destruct (img_onload_small host Hfl width height Hw) as [Hs Hwd].
  unfold img_onload in *. cbn [scale w] in Hs, Hwd. rewrite Hwd, Hs.
  rewrite (round_times_one host Hfl height) by lia. reflexivity.
Qed.

(** X16 (witness): a screenshot 800 by 600. *)
Lemma img_onload_keeps_small_images_witness :
  img_onload exactHost 800 600 =
    {| scale := Fin 1; w := Num.of_N 800; h := Num.of_N 600 |}.
Proof.
  apply (img_onload_keeps_small_images exactHost 800 600 exact_rounding);
    [discriminate | reflexivity].
Defined.

(** X17.  An image wider than 1200 pixels gets a canvas exactly 1200
    pixels wide.  The height of the canvas is an integer from 0 to the
    height of the image, within a rounding (half a pixel, and a
    thousandth for the floating point) of [height * 1200 / width]: the
    proportions are kept. *)
Theorem img_onload_scales_wide_images (host : Host) (width height : N) :
  Binary64 (roundToDouble host) ->
  (1200 < width)%N -> (width < 2 ^ 32)%N ->
  (height < 2 ^ 32)%N ->
  exists r : Z,
    w (img_onload host width height) = Fin 1200 /\
    h (img_onload host width height) = Fin (inject_Z r) /\
    (0 <= r <= Z.of_N height)%Z /\
    W height * 1200 / W width - (501 # 1000) <= inject_Z r /\
    inject_Z r <= W height * 1200 / W width + (501 # 1000).
Proof.
  intros Hfl Hgt Hlt Hh.
  destruct (scale_of_wide host Hfl width Hgt Hlt) as (s & Es & Hs0 & Hs1 & Hlo & Hhi).
  pose proof (W_pos width ltac:(lia)) as HW.
  pose proof (W_gt width 1200 ltac:(lia)) as HW1.
  pose proof (W_le width (2 ^ 32) ltac:(lia)) as HW2.
  change (inject_Z 1200) with 1200 in HW1.
  change (inject_Z (2 ^ 32)) with 4294967296 in HW2.
  destruct ulp_rel_small as [Hu0 Hu1]. pose proof ulp_rel_tiny as Hu2.
  assert (Hsmin : 1 # 10000000 <= s).
  { set (Wq := W width) in *. clearbody Wq. set (u := ulp_rel) in *. clearbody u. nra. }
  destruct (scaled_length host Hfl width s Hlt Hsmin Hs1) as (pw & Ew & Hw0 & Hw1 & _).
  destruct (scaled_length host Hfl height s Hh Hsmin Hs1) as (ph & Eh & Hh0 & Hh1 & Hh2).
  unfold img_onload. cbn [w h]. rewrite Es, Ew, Eh.
  destruct (Math_round_near ph) as (r & Er & Hr0 & Hr1).
  exists r. split; [|split; [exact Er|]].
  - change (Fin 1200) with (Fin (inject_Z 1200)). apply Math_round_eq;
      change (inject_Z 1200) with 1200;
      set (Wq := W width) in *; clearbody Wq; set (t := Wq * s) in *; clearbody t;
      set (u := ulp_rel) in *; clearbody u; nra.
  - assert (HH0 : 0 <= W height).
    { unfold W. change 0 with (inject_Z 0). rewrite <- Zle_Qle. lia. }
    pose proof (W_le height (2 ^ 32) ltac:(lia)) as HH2.
    change (inject_Z (2 ^ 32)) with 4294967296 in HH2.
    assert (Hpos : 0 <= ph).
    { set (Hq := W height) in *. clearbody Hq. set (u := ulp_rel) in *. clearbody u.
      assert (0 <= Hq * s) by nra. nra. }
    split.
    + assert (H1 : inject_Z (-1) < inject_Z r) by (change (inject_Z (-1)) with (-1); lra).
      assert (H2 : inject_Z r < inject_Z (Z.of_N height + 1)).
      { rewrite inject_Z_plus. change (inject_Z 1) with 1. fold (W height). lra. }
      rewrite <- Zlt_Qlt in H1, H2. lia.
    + assert (Hnz : ~ W width == 0) by lra.
      set (t := W height * 1200 / W width).
      assert (Ht : t * W width == W height * 1200).
      { unfold t. field. exact Hnz. }
      clearbody t.
      set (Hq := W height) in *. clearbody Hq.
      set (Wq := W width) in *. clearbody Wq.
      set (u := ulp_rel) in *. clearbody u.
      assert (Ht0 : 0 <= t) by nra.
      assert (Ht1 : t <= 4294967296) by nra.
      assert (Htu : t * u <= 1 # 2097152) by nra.
      assert (Htu0 : 0 <= t * u) by nra.
      (* [Hq * s] is within [t * u] of [t] *)
      assert (Ha : t * (1 - u) <= Hq * s).
      { assert (Wq * (t * (1 - u)) <= Wq * (Hq * s)); [|nra].
        assert (Wq * t * (1 - u) <= Hq * (Wq * s)); [|nra].
        rewrite (Qmult_comm Wq t), Ht. nra. }
      assert (Hb : Hq * s <= t * (1 + u)).
      { assert (Wq * (Hq * s) <= Wq * (t * (1 + u))); [|nra].
        assert (Hq * (Wq * s) <= Wq * t * (1 + u)); [|nra].
        rewrite (Qmult_comm Wq t), Ht. nra. }
      set (y := Hq * s) in *. clearbody y.
      set (tu := t * u) in *.
      assert (Hy1 : y <= t + tu) by (unfold tu; nra).
      assert (Hy0 : t - tu <= y) by (unfold tu; nra).
      assert (Hyu : y * u <= 2 * tu).
      { unfold tu. assert (y <= 2 * t) by (unfold tu in *; nra). nra. }
      assert (Hyu0 : 0 <= y * u) by nra.
      split; nra.
Qed.

(** X17 (witness): a screenshot 2400 by 1000. *)
Lemma img_onload_scales_wide_images_witness :
  exists r : Z,
    w (img_onload exactHost 2400 1000) = Fin 1200 /\
    h (img_onload exactHost 2400 1000) = Fin (inject_Z r) /\
    (0 <= r <= 1000)%Z.
Proof.
  destruct (img_onload_scales_wide_images exactHost 2400 1000 exact_rounding)
    as (r & Hw & Hh & Hr & _); [reflexivity | reflexivity | reflexivity |].
  exists r. split; [exact Hw|]. split; [exact Hh | exact Hr].
Defined.

(* ================================================================== *)
(** * Uploads *)
(* ================================================================== *)

Lemma succeeds_or_not (host : Host) (net : FetchResult) :
  (exists url, succeeds host net url) \/ (forall url, ~ succeeds host net url).
Proof.
  destruct net as [err|ok [data|err]].
  - right. intros url (data & E & _). discriminate E.
  - destruct ok.
    + destruct (results_url host data) as [url|err] eqn:Hu.
      * left. exists url, data. split; [reflexivity | exact Hu].
      * right. intros url (data' & E & Hu'). inversion E; subst. congruence.
    + right. intros url (data' & E & _). discriminate E.
  - right. intros url (data & E & _). discriminate E.
Qed.

Lemma same_preview_typed (c : Client) :
  preview_typed c -> same_preview (imagePreview c) (imagePreview c) = true.
Proof.
  intros [E | (s & E)]; rewrite E; simpl; [reflexivity | apply String.eqb_refl].
Qed.

(** X18.  The home page sends a request only for a new image.  An
    upload that fails (no file, a file that cannot be read or decoded,
    no canvas context) leaves the image, the flag and the location as
    they were.  An upload whose compressed image is the one the page
    already has clears the message and sends nothing, so an analysis
    that failed is not tried again for the same image.  Any other
    upload stores the compressed image and runs the analysis on it. *)
Theorem HomePage_upload_requests
    (host : Host) (up : Upload) (net : FetchResult) (c : Client) :
  preview_typed c ->
  (upload_fails up = true ->
   HomePage_upload host up net c = handleImageUpload host up c /\
   imagePreview (HomePage_upload host up net c) = imagePreview c /\
   isRunning (HomePage_upload host up net c) = isRunning c /\
   location (HomePage_upload host up net c) = location c) /\
  (forall width height toDataURL,
      up = Decoded width height (Some toDataURL) ->
      let url := toDataURL (w (img_onload host width height))
                           (h (img_onload host width height)) in
      (imagePreview c = JStr url ->
       HomePage_upload host up net c = setError JNull c) /\
      (imagePreview c <> JStr url ->
       HomePage_upload host up net c =
         HomePage_analyze host net (setImagePreview (JStr url) (setError JNull c)))).
Proof.
  intros Ht. pose proof (same_preview_typed c Ht) as Hsame. split.
  - intros Hf. unfold HomePage_upload.
    assert (E : imagePreview (handleImageUpload host up c) = imagePreview c).
    { destruct up as [| | |width height [f|]]; try reflexivity. discriminate Hf. }
    rewrite E, Hsame. split; [reflexivity|]. split; [exact E|].
    destruct up as [| | |width height [f|]]; split; reflexivity.
  - intros width height f -> url. unfold HomePage_upload.
    cbn [handleImageUpload]. fold url. cbn [setImagePreview imagePreview]. split.
    + intros E. rewrite E. cbn [same_preview]. rewrite String.eqb_refl.
      unfold setImagePreview, setError. cbn. rewrite E. reflexivity.
    + intros Hne.
      assert (Hdiff : same_preview (imagePreview c) (JStr url) = false).
      { destruct Ht as [E | (s & E)]; rewrite E; [reflexivity|]. simpl.
        destruct (String.eqb_spec s url) as [->|]; [congruence | reflexivity]. }
      rewrite Hdiff. reflexivity.
Qed.

(** X18 (witness): the image the page has, uploaded again; a file that is no image. *)
Lemma HomePage_upload_requests_witness :
  HomePage_upload exactHost
    (Decoded 800 600 (Some (fun _ _ => "data:image/jpeg;base64,AAAA")))
    okResponse idleClient = setError JNull idleClient /\
  HomePage_upload exactHost DecodeFails okResponse idleClient =
    handleImageUpload exactHost DecodeFails idleClient.
Proof.
  assert (Ht : preview_typed idleClient) by (right; eexists; reflexivity).
  split.
  - destruct (HomePage_upload_requests exactHost
                (Decoded 800 600 (Some (fun _ _ => "data:image/jpeg;base64,AAAA")))
                okResponse idleClient Ht) as [_ H].
    destruct (H 800%N 600%N (fun _ _ => "data:image/jpeg;base64,AAAA") eq_refl)
      as [H1 _].
    apply H1. reflexivity.
  - destruct (HomePage_upload_requests exactHost DecodeFails okResponse idleClient Ht)
      as [H _].
    apply H. reflexivity.
Defined.

(** X19.  The upload button never touches the image or the message of
    its page.  An upload that fails is silent: nothing changes.  And
    the button navigates only after an upload that gave an image whose
    request succeeded. *)
Theorem UploadButton_upload
    (host : Host) (up : Upload) (net : FetchResult) (c : Client) :
  imagePreview (UploadButton_handleImageUpload host up net c) = imagePreview c /\
  error (UploadButton_handleImageUpload host up net c) = error c /\
  (upload_fails up = true -> UploadButton_handleImageUpload host up net c = c) /\
  (location (UploadButton_handleImageUpload host up net c) <> location c ->
   upload_fails up = false /\
   exists url, succeeds host net url /\
               location (UploadButton_handleImageUpload host up net c) = Some url).
Proof.
  assert (Hrun : imagePreview (UploadButton_runAnalysis host net c) = imagePreview c /\
                 error (UploadButton_runAnalysis host net c) = error c).
  { unfold UploadButton_runAnalysis.
    destruct (fetch_json net) as [[ok data]|err]; cbn [bind]; [|split; reflexivity].
    destruct ok; cbn [negb]; [|split; reflexivity].
    destruct (results_url host data); cbn [bind]; split; reflexivity. }
  destruct up as [| | |width height [f|]]; cbn [UploadButton_handleImageUpload upload_fails];
    try (split; [reflexivity|]; split; [reflexivity|]; split; [reflexivity|];
         intros H; exfalso; apply H; reflexivity).
  split; [apply Hrun|]. split; [apply Hrun|]. split; [discriminate|].
  intros Hloc. split; [reflexivity|].
  destruct (succeeds_or_not host net) as [(url & Hs) | Hno].
  - exists url. split; [exact Hs|].
    apply (UploadButton_keeps_on_success host net c url Hs).
  - exfalso. apply Hloc. unfold UploadButton_runAnalysis.
    destruct (not_succeeds_cases host net Hno)
      as [(err & ->) | [(data & ->) | (data & err & -> & Hu)]]; cbn [bind negb];
      try rewrite Hu; reflexivity.
Qed.

(* ================================================================== *)
(** * Dragging the bottom sheet *)
(* ================================================================== *)

(** The ref follows the state, and a sheet that is not held lies where
    the last release has put it: at 0, or down by 80% of the height a
    release has read. *)
Lemma Drag_step_rest (host : Host) (heights : list N) (s : Drag.Sheet)
    (e : Drag.TouchEvent) :
  Drag.currentDragYRef s = Drag.dragY s /\
  (Drag.isDragging s = false ->
   Drag.dragY s = Fin 0 \/
   exists n, In n heights /\ Drag.dragY s = Drag.maxDrag host n) ->
  Drag.currentDragYRef (Drag.step host s e) = Drag.dragY (Drag.step host s e) /\
  (Drag.isDragging (Drag.step host s e) = false ->
   Drag.dragY (Drag.step host s e) = Fin 0 \/
   exists n, In n (heights ++ release_heights [e])%list /\
             Drag.dragY (Drag.step host s e) = Drag.maxDrag host n).
Proof.
  intros [Href Hrest].
  assert (Hkeep : Drag.isDragging s = false ->
                  Drag.dragY s = Fin 0 \/
                  exists n, In n (heights ++ release_heights [e])%list /\
                            Drag.dragY s = Drag.maxDrag host n).
  { intros Hd. destruct (Hrest Hd) as [H0 | (n & Hin & Hn)]; [left; exact H0|].
    right. exists n. split; [apply in_or_app; left; exact Hin | exact Hn]. }
  destruct e as [y|h y|h]; cbn [Drag.step].
  - unfold Drag.handleTouchStart. cbn. split; [exact Href | discriminate].
  - unfold Drag.handleTouchMove. destruct (Drag.isDragging s) eqn:Hd; cbn [negb].
    + cbn. split; [reflexivity | discriminate].
    + rewrite Hd. split; [exact Href | exact Hkeep].
  - unfold Drag.handleTouchEnd. destruct (Drag.isDragging s) eqn:Hd; cbn [negb].
    + cbn [Drag.dragY Drag.isDragging Drag.currentDragYRef].
      split; [reflexivity|]. intros _.
      destruct (Num.gtb _ _); [right | left; reflexivity].
      exists h. split; [|reflexivity].
      apply in_or_app. right. left. reflexivity.
    + rewrite Hd. split; [exact Href | exact Hkeep].
Qed.

Lemma Drag_run_rest (host : Host) (events : list Drag.TouchEvent) (heights : list N)
    (s : Drag.Sheet) :
  Drag.currentDragYRef s = Drag.dragY s /\
  (Drag.isDragging s = false ->
   Drag.dragY s = Fin 0 \/
   exists n, In n heights /\ Drag.dragY s = Drag.maxDrag host n) ->
  Drag.currentDragYRef (Drag.run host events s) = Drag.dragY (Drag.run host events s) /\
  (Drag.isDragging (Drag.run host events s) = false ->
   Drag.dragY (Drag.run host events s) = Fin 0 \/
   exists n, In n (heights ++ release_heights events)%list /\
             Drag.dragY (Drag.run host events s) = Drag.maxDrag host n).
Proof.
  unfold Drag.run. revert heights s.
  induction events as [|e rest IH]; intros heights s H0; cbn [fold_left].
  - unfold release_heights. cbn [flat_map]. rewrite app_nil_r. exact H0.
  - apply (Drag_step_rest host heights s e) in H0.
    apply IH in H0. rewrite <- app_assoc in H0.
    replace (release_heights (e :: rest))
      with (release_heights [e] ++ release_heights rest)%list
      by (unfold release_heights; cbn [flat_map]; rewrite app_nil_r; reflexivity).
    exact H0.
Qed.

(** X20.  Whatever the touches, the ref of the bottom sheet holds the
    position the state holds, and a sheet that is not being dragged
    lies where a release has put it: fully up (0), or down by 80% of
    the height of the window as a release of the sequence has read it.
    So, as long as the releases read one height (the window is not
    resized), a sheet at rest is at one of the two ends of its track.
    After a resize it stays where the old height has put it. *)
Theorem Drag_rests_at_an_end (host : Host) (events : list Drag.TouchEvent) :
  Drag.currentDragYRef (Drag.run host events Drag.initial) =
    Drag.dragY (Drag.run host events Drag.initial) /\
  (Drag.isDragging (Drag.run host events Drag.initial) = false ->
   Drag.dragY (Drag.run host events Drag.initial) = Fin 0 \/
   exists n, In n (release_heights events) /\
             Drag.dragY (Drag.run host events Drag.initial) = Drag.maxDrag host n) /\
  (forall innerHeight,
      Forall (fun n => n = innerHeight) (release_heights events) ->
      Drag.isDragging (Drag.run host events Drag.initial) = false ->
      Drag.dragY (Drag.run host events Drag.initial) = Fin 0 \/
      Drag.dragY (Drag.run host events Drag.initial) = Drag.maxDrag host innerHeight).
Proof.
  destruct (Drag_run_rest host events [] Drag.initial) as [Href Hrest].
  { split; [reflexivity | intros _; left; reflexivity]. }
  cbn [app] in Hrest.
  split; [exact Href|]. split; [exact Hrest|].
  intros innerHeight Hall Hd. destruct (Hrest Hd) as [H0 | (n & Hin & Hn)];
    [left; exact H0|].
  right. rewrite Forall_forall in Hall. rewrite <- (Hall n Hin). exact Hn.
Qed.

Lemma between_below (lo hi hi' : Q) (n : number) :
  hi <= hi' -> Num.between lo hi n -> Num.between lo hi' n.
Proof.
  intros Hle. destruct n as [| | |q]; simpl; try tauto.
  intros [H0 H1]. split; [exact H0 | lra].
Qed.

Section Dragging.

Context (host : Host) (Hfl : Binary64 (roundToDouble host)).

(** The lower end of the track. *)
Lemma maxDrag_value (innerHeight : N) :
  (innerHeight < 2 ^ 32)%N ->
  exists m, Drag.maxDrag host innerHeight = Fin m /\ 0 <= m /\
            ((1 <= innerHeight)%N -> 3 # 4 <= m /\ m <= 4294967296).
Proof.
  intros Hn. unfold Drag.maxDrag.
  destruct ulp_rel_small as [Hu0 Hu1]. destruct normal_range as [Hn0 Hn1].
  assert (H0 : min_normal <= 4 # 5) by lra.
  assert (H1 : 4 # 5 <= max_normal) by lra.
  pose proof (fl_error _ Hfl _ H0 H1) as Hb.
  destruct (roundToDouble host (4 # 5)) as [| | |f]; simpl in Hb; try contradiction.
  destruct Hb as [Hf0 Hf1].
  unfold Num_mul, Num.of_N, Num.of_Z. fold (W innerHeight).
  pose proof (W_le innerHeight (2 ^ 32) ltac:(lia)) as HW2.
  change (inject_Z (2 ^ 32)) with 4294967296 in HW2.
  destruct (N.eq_dec innerHeight 0) as [->|Hnz].
  - assert (Hz : W 0 * f == inject_Z 0) by (unfold W; simpl; ring).
    destruct (between_same _ _ (fl_exact _ Hfl _ _ Hz ltac:(lia))) as (m & Em & Hm).
    exists m. split; [exact Em|]. split; [rewrite Hm; discriminate | lia].
  - assert (HW1 : 1 <= W innerHeight).
    { unfold W. change 1 with (inject_Z 1). rewrite <- Zle_Qle. lia. }
    set (Wq := W innerHeight) in *. clearbody Wq.
    set (u := ulp_rel) in *.
    assert (Hp0 : min_normal <= Wq * f) by nra.
    assert (Hp1 : Wq * f <= max_normal).
    { apply Qle_trans with 4294967296; [nra|].
      apply Qle_bool_iff. vm_compute. reflexivity. }
    pose proof (fl_error _ Hfl _ Hp0 Hp1) as Hb. fold u in Hb.
    destruct (roundToDouble host (Wq * f)) as [| | |m]; simpl in Hb; try contradiction.
    destruct Hb as [Hm0 Hm1].
    exists m. split; [reflexivity|].
    set (t := Wq * f) in *.
    assert (Ht0 : (4 # 5) * (1 - u) <= t) by (unfold t; nra).
    assert (Ht1 : t <= 4294967296 * (4 # 5) * (1 + u)) by (unfold t; nra).
    clearbody t. clearbody u.
    split; [nra|]. intros _. split; nra.
Qed.

(** A lower window has a shorter track. *)
Lemma maxDrag_mono (n H : N) (mn mH : Q) :
  (n <= H)%N ->
  Drag.maxDrag host n = Fin mn -> Drag.maxDrag host H = Fin mH -> mn <= mH.
Proof.
  intros Hle. unfold Drag.maxDrag.
  destruct ulp_rel_small as [Hu0 Hu1]. destruct normal_range as [Hn0 Hn1].
  assert (H0 : min_normal <= 4 # 5) by lra.
  assert (H1 : 4 # 5 <= max_normal) by lra.
  pose proof (fl_error _ Hfl _ H0 H1) as Hb.
  destruct (roundToDouble host (4 # 5)) as [| | |f]; simpl in Hb; try contradiction.
  destruct Hb as [Hf0 _].
  unfold Num_mul, Num.of_N, Num.of_Z. fold (W n) (W H). intros En EH.
  assert (HW : W n <= W H) by (unfold W; rewrite <- Zle_Qle; lia).
  assert (Hf : 0 <= f).
  { set (u := ulp_rel) in *. clearbody u. nra. }
  assert (Hprod : W n * f <= W H * f) by nra.
  pose proof (fl_monotone _ Hfl _ _ Hprod) as Hm. rewrite En, EH in Hm.
  apply leb_Fin in Hm. exact Hm.
Qed.

(** One touch keeps the position on the track of the highest window. *)
Lemma Drag_step_range (H : N) (m : Q) (s : Drag.Sheet) (e : Drag.TouchEvent) :
  (H < 2 ^ 32)%N ->
  Drag.maxDrag host H = Fin m ->
  finite_touch e -> height_at_most H e ->
  (Num.between 0 m (Drag.dragY s) /\
   (exists y0, Drag.startYRef s = Fin y0) /\
   Num.between 0 m (Drag.startDragYRef s) /\
   Num.between 0 m (Drag.currentDragYRef s)) ->
  Num.between 0 m (Drag.dragY (Drag.step host s e)) /\
  (exists y0, Drag.startYRef (Drag.step host s e) = Fin y0) /\
  Num.between 0 m (Drag.startDragYRef (Drag.step host s e)) /\
  Num.between 0 m (Drag.currentDragYRef (Drag.step host s e)).
Proof.
  intros HH Hm Hfin Hhigh (Hd & (y0 & Hy0) & Hsd & Hcur).
  destruct e as [y|n y|n]; cbn [Drag.step].
  - destruct Hfin as (q & ->). unfold Drag.handleTouchStart. cbn.
    split; [exact Hd|]. split; [eexists; reflexivity|]. split; exact Hcur.
  - destruct Hfin as (q & ->). cbn [height_at_most] in Hhigh.
    destruct (maxDrag_value n ltac:(lia)) as (mn & Hmn & Hmn0 & _).
    pose proof (maxDrag_mono n H mn m Hhigh Hmn Hm) as Hle.
    unfold Drag.handleTouchMove.
    destruct (Drag.isDragging s); cbn [negb].
    + cbn [Drag.dragY Drag.isDragging Drag.startYRef Drag.startDragYRef Drag.currentDragYRef].
      rewrite Hmn, Hy0.
      destruct (Drag.startDragYRef s) as [| | |d0] eqn:Ed0; simpl in Hsd;
        try contradiction.
      set (sum := Drag.Num_add host (Fin d0) (Drag.Num_sub host (Fin q) (Fin y0))).
      assert (Hsum : sum <> NaN).
      { unfold sum. cbn [Drag.Num_sub].
        pose proof (fl_not_NaN host Hfl (q - y0)) as Hdelta.
        destruct (roundToDouble host (q - y0)) as [| | |dy]; cbn [Drag.Num_add];
          try congruence; try discriminate.
        apply (fl_not_NaN host Hfl). }
      pose proof (clamp_between sum 0 mn Hmn0 Hsum) as Hb. unfold clamp in Hb.
      apply (between_below 0 mn m _ Hle) in Hb.
      split; [exact Hb|]. split; [eexists; reflexivity|].
      split; [simpl; exact Hsd | exact Hb].
    + split; [exact Hd|]. split; [exists y0; exact Hy0|]. split; assumption.
  - cbn [height_at_most] in Hhigh.
    destruct (maxDrag_value n ltac:(lia)) as (mn & Hmn & Hmn0 & _).
    pose proof (maxDrag_mono n H mn m Hhigh Hmn Hm) as Hle.
    unfold Drag.handleTouchEnd. destruct (Drag.isDragging s); cbn [negb].
    + cbn [Drag.dragY Drag.isDragging Drag.startYRef Drag.startDragYRef Drag.currentDragYRef].
      rewrite Hmn.
      assert (Hfinal : Num.between 0 m
                (if Num.gtb (Drag.currentDragYRef s)
                      (Num_mul host (Fin mn) (roundToDouble host (1 # 2)))
                 then Fin mn else Fin 0)).
      { destruct (Num.gtb _ _); simpl; lra. }
      split; [exact Hfinal|]. split; [exists y0; exact Hy0|].
      split; [exact Hsd | exact Hfinal].
    + split; [exact Hd|]. split; [exists y0; exact Hy0|]. split; assumption.
Qed.

Lemma Drag_run_range (H : N) (m : Q) (events : list Drag.TouchEvent) (s : Drag.Sheet) :
  (H < 2 ^ 32)%N ->
  Drag.maxDrag host H = Fin m ->
  Forall finite_touch events -> Forall (height_at_most H) events ->
  (Num.between 0 m (Drag.dragY s) /\
   (exists y0, Drag.startYRef s = Fin y0) /\
   Num.between 0 m (Drag.startDragYRef s) /\
   Num.between 0 m (Drag.currentDragYRef s)) ->
  Num.between 0 m (Drag.dragY (Drag.run host events s)) /\
  (exists y0, Drag.startYRef (Drag.run host events s) = Fin y0) /\
  Num.between 0 m (Drag.startDragYRef (Drag.run host events s)) /\
  Num.between 0 m (Drag.currentDragYRef (Drag.run host events s)).
Proof.
  intros HH Hm Hfin. revert s. unfold Drag.run.
  induction Hfin as [|e rest He Hrest IH]; intros s Hhigh H0; cbn [fold_left].
  - exact H0.
  - inversion Hhigh; subst. apply IH; [assumption|].
    apply (Drag_step_range H m s e HH Hm He); assumption.
Qed.

End Dragging.

(** X21.  The position of the sheet is a number that is never negative
    and never more than 80% of the height of the highest window the
    touches have read: with touches that read window heights of at
    most [H], it lies from 0 to the lower end of the track of a window
    of height [H].  So the sheet never leaves its track as long as the
    window is not resized.  And whatever the window was before, a move
    that is handled while the sheet is dragged puts it on the track of
    the window as that move reads it. *)
Theorem Drag_position_in_range
    (host : Host) (H : N) (events : list Drag.TouchEvent) :
  Binary64 (roundToDouble host) ->
  (H < 2 ^ 32)%N ->
  Forall finite_touch events ->
  Forall (height_at_most H) events ->
  (exists m,
      Drag.maxDrag host H = Fin m /\
      Num.between 0 m (Drag.dragY (Drag.run host events Drag.initial))) /\
  (forall (n : N) (q : Q),
      (n <= H)%N ->
      Drag.isDragging (Drag.run host events Drag.initial) = true ->
      exists m,
        Drag.maxDrag host n = Fin m /\
        Num.between 0 m
          (Drag.dragY (Drag.step host (Drag.run host events Drag.initial)
                         (Drag.TouchMove n (Fin q))))).
Proof.
  intros Hfl HH Hfin Hhigh.
  destruct (maxDrag_value host Hfl H HH) as (m & Hm & Hm0 & _).
  assert (H0 : Num.between 0 m (Drag.dragY Drag.initial) /\
               (exists y0, Drag.startYRef Drag.initial = Fin y0) /\
               Num.between 0 m (Drag.startDragYRef Drag.initial) /\
               Num.between 0 m (Drag.currentDragYRef Drag.initial)).
  { simpl. split; [lra|]. split; [eexists; reflexivity|]. split; lra. }
  pose proof (Drag_run_range host Hfl H m events Drag.initial HH Hm Hfin Hhigh H0)
    as (Hd & (y0 & Hy0) & Hsd & Hcur).
  split; [exists m; split; [exact Hm | exact Hd]|].
  intros n q Hn Hdrag.
  destruct (maxDrag_value host Hfl n ltac:(lia)) as (mn & Hmn & Hmn0 & _).
  exists mn. split; [exact Hmn|].
  cbn [Drag.step]. unfold Drag.handleTouchMove. rewrite Hdrag. cbn [negb].
  cbn [Drag.dragY]. rewrite Hmn, Hy0.
  destruct (Drag.startDragYRef (Drag.run host events Drag.initial)) as [| | |d0];
    simpl in Hsd; try contradiction.
  set (sum := Drag.Num_add host (Fin d0) (Drag.Num_sub host (Fin q) (Fin y0))).
  assert (Hsum : sum <> NaN).
  { unfold sum. cbn [Drag.Num_sub].
    pose proof (fl_not_NaN host Hfl (q - y0)) as Hdelta.
    destruct (roundToDouble host (q - y0)) as [| | |dy]; cbn [Drag.Num_add];
      try congruence; try discriminate.
    apply (fl_not_NaN host Hfl). }
  exact (clamp_between sum 0 mn Hmn0 Hsum).
Qed.

(** X21 (witness): a drag far below a window 800 high. *)
Lemma Drag_position_in_range_witness :
  exists m,
    Drag.maxDrag exactHost 800 = Fin m /\
    Num.between 0 m
      (Drag.dragY (Drag.run exactHost
                     [Drag.TouchStart (Fin 100); Drag.TouchMove 800 (Fin 2000)]
                     Drag.initial)).
Proof.
  apply (proj1 (Drag_position_in_range exactHost 800
                  [Drag.TouchStart (Fin 100); Drag.TouchMove 800 (Fin 2000)]
                  exact_rounding eq_refl
                  ltac:(repeat constructor; eexists; reflexivity)
                  ltac:(repeat constructor; discriminate))).
Defined.

(** X22.  A tap does not move the sheet: a touch that starts and ends
    on a sheet at rest, up or down, leaves it where it was. *)
Theorem Drag_tap_keeps_position
    (host : Host) (innerHeight : N) (s : Drag.Sheet) (y : number) :
  Binary64 (roundToDouble host) ->
  (1 <= innerHeight)%N -> (innerHeight < 2 ^ 32)%N ->
  Drag.currentDragYRef s = Drag.dragY s ->
  Drag.dragY s = Fin 0 \/ Drag.dragY s = Drag.maxDrag host innerHeight ->
  Drag.dragY (Drag.run host [Drag.TouchStart y; Drag.TouchEnd innerHeight] s) =
    Drag.dragY s /\
  Drag.isDragging (Drag.run host [Drag.TouchStart y; Drag.TouchEnd innerHeight] s) =
    false.
Proof.
  intros Hfl H1 Hn Href Hrest.
  destruct (maxDrag_value host Hfl innerHeight Hn) as (m & Hm & _ & Hbounds).
  destruct (Hbounds H1) as [Hm0 Hm1].
  unfold Drag.run. cbn [fold_left Drag.step].
  unfold Drag.handleTouchEnd, Drag.handleTouchStart.
  cbn [Drag.dragY Drag.isDragging Drag.startYRef Drag.startDragYRef Drag.currentDragYRef].
  cbn [negb]. split; [|reflexivity].
  rewrite Hm in *. rewrite Href.
  destruct ulp_rel_small as [Hu0 Hu1]. destruct normal_range as [Hn0 Hn1].
  assert (H0 : min_normal <= 1 # 2) by lra.
  assert (H2 : 1 # 2 <= max_normal) by lra.
  pose proof (fl_error _ Hfl _ H0 H2) as Hb.
  destruct (roundToDouble host (1 # 2)) as [| | |f]; simpl in Hb; try contradiction.
  destruct Hb as [Hf0 Hf1]. cbn [Num_mul].
  set (u := ulp_rel) in *.
  assert (Hp0 : min_normal <= m * f) by nra.
  assert (Hp1 : m * f <= max_normal).
  { apply Qle_trans with 4294967296; [nra|].
    apply Qle_bool_iff. vm_compute. reflexivity. }
  pose proof (fl_error _ Hfl _ Hp0 Hp1) as Hb. fold u in Hb.
  destruct (roundToDouble host (m * f)) as [| | |th]; simpl in Hb; try contradiction.
  destruct Hb as [Hth0 Hth1].
  set (t := m * f) in *.
  assert (Ht0 : (3 # 8) * (1 - u) <= t) by (unfold t; nra).
  assert (Ht1 : t <= m * (1 # 2) * (1 + u)) by (unfold t; nra).
  clearbody t. clearbody u.
  destruct Hrest as [E|E]; rewrite E; unfold Num.gtb, Num.leb.
  - assert (Hle : Qle_bool 0 th = true) by (apply Qle_bool_iff; nra).
    rewrite Hle. reflexivity.
  - destruct (Qle_bool m th) eqn:Hle; [|reflexivity].
    apply Qle_bool_iff in Hle. exfalso. nra.
Qed.

(** X22 (witness): a tap on the sheet as it mounts. *)
Lemma Drag_tap_keeps_position_witness :
  Drag.dragY (Drag.run exactHost [Drag.TouchStart (Fin 100); Drag.TouchEnd 800]
                Drag.initial) = Fin 0.
Proof.
  apply (proj1 (Drag_tap_keeps_position exactHost 800 Drag.initial (Fin 100)
                  exact_rounding ltac:(discriminate) eq_refl eq_refl
                  (or_introl eq_refl))).
Defined.

(* ================================================================== *)
(** * A reply without text *)
(* ================================================================== *)

Lemma trim_start_white (l : list ascii) :
  Forall (fun ch => is_white_space ch = true) l -> trim_start l = [].
Proof.
  induction 1 as [|ch l Hc _ IH]; cbn [trim_start]; [reflexivity|].
  rewrite Hc. exact IH.
Qed.

Lemma String_trim_white (s : string) :
  Forall (fun ch => is_white_space ch = true) (list_ascii_of_string s) ->
  String_trim s = "".
Proof.
  intros H. unfold String_trim, trim_chars. rewrite (trim_start_white _ H). reflexivity.
Qed.

(** X23.  A completion without text is answered with status 500 and
    the message [Model returned empty response], and nothing is
    written: so it is when the completion has no choices, when the
    first choice has no message or the message no content, and when the
    content is white space only. *)
Theorem POST_reply_without_text
    (host : Host) (env : Env) (req_json : Outcome JsValue) (st : Store)
    (url : string) (completion : JsValue) :
  accepted env req_json url ->
  chat_completions_create host (chat_request host env url) = Return completion ->
  nullish completion = false ->
  (nullish (OptGet (OptGet (OptFirst (Get completion "choices")) "message") "content")
     = true \/
   exists s,
     OptGet (OptGet (OptFirst (Get completion "choices")) "message") "content" = JStr s /\
     Forall (fun ch => is_white_space ch = true) (list_ascii_of_string s)) ->
  POST host env req_json st = (error_response "Model returned empty response" 500, st).
Proof.
  intros Hacc Hc Hn Hcontent.
  rewrite (POST_accepted host env req_json st url Hacc).
  unfold analyze. rewrite Hc. cbn [bind].
  unfold reply_text, GetProp. rewrite Hn. cbn [bind]. unfold Opt_trim.
  destruct Hcontent as [Hnull | (s & -> & Hwhite)].
  - rewrite Hnull. reflexivity.
  - cbn [nullish bind]. rewrite (String_trim_white s Hwhite). reflexivity.
Qed.

(** X23 (witness): a reply of two spaces; a completion without choices. *)
Lemma POST_reply_without_text_witness :
  POST (scriptedHost "  " None) testEnv testRequest [emptyReport] =
    (error_response "Model returned empty response" 500, [emptyReport]) /\
  POST silentHost testEnv testRequest [emptyReport] =
    (error_response "Model returned empty response" 500, [emptyReport]).
Proof.
  assert (Hacc : accepted testEnv testRequest "data:image/jpeg;base64,AAAA").
  { split; [reflexivity|]. eexists. split; [reflexivity|].
    split; [reflexivity|]. split; [reflexivity|]. vm_compute. discriminate. }
  split.
  - refine (POST_reply_without_text (scriptedHost "  " None) testEnv testRequest
              [emptyReport] "data:image/jpeg;base64,AAAA" _ Hacc eq_refl eq_refl _).
    right. exists "  ". split; [reflexivity|]. repeat constructor.
  - refine (POST_reply_without_text silentHost testEnv testRequest
              [emptyReport] "data:image/jpeg;base64,AAAA" _ Hacc eq_refl eq_refl _).
    left. reflexivity.
Defined.
